(** * NiftiMapsMasker: fit / transform life cycle of the maps masker

    A shallow embedding of [nilearn/maskers/nifti_maps_masker.py].

    The masker is a Python object whose methods mutate it and the images
    it works on.  The embedding therefore threads a [world] through every
    method: the heap of image objects, the attributes of [self], and a log
    of the calls that reach outside the class (image loading, resampling,
    warnings, signal extraction).  A raised exception keeps the world as
    it was at the point of the [raise], as in Python. *)

From Stdlib Require Import QArith Qabs ZArith String List Bool Lia Lqa.
From stdpp Require Import base list.
Import ListNotations.

(** ** Arrays and images *)

(** An image object is identified by its address in the heap. *)
Abbreviation loc := nat.

Inductive np_dtype := float32 | float64 | int32 | int64 | uint8.

(** [dtype.kind] *)
Definition kind (d : np_dtype) : string :=
  match d with
  | float32 | float64 => "f"
  | int32 | int64 => "i"
  | uint8 => "u"
  end.

(** [np.finfo(dtype).eps]; NumPy refuses the integer types. *)
Definition finfo_eps (d : np_dtype) : option Q :=
  match d with
  | float32 => Some (1 # 8388608)
  | float64 => Some (1 # 4503599627370496)
  | _ => None
  end.

(** A voxel value.  Every finite floating-point (or integer) value is a
    rational; the three non-finite values are kept apart, with the
    comparisons IEEE 754 gives them. *)
Inductive voxel := Finite (q : Q) | NaN | PInf | NInf.

Definition Qltb (x y : Q) : bool := negb (Qle_bool y x).

(** [v < c] for a finite constant [c] *)
Definition voxel_lt (v : voxel) (c : Q) : bool :=
  match v with
  | Finite q => Qltb q c
  | NInf => true
  | NaN | PInf => false
  end.

(** [v > 0.0] *)
Definition voxel_pos (v : voxel) : bool :=
  match v with
  | Finite q => Qltb 0 q
  | PInf => true
  | NaN | NInf => false
  end.

(** [np.isfinite(v)] *)
Definition isfinite (v : voxel) : bool :=
  match v with Finite _ => true | _ => false end.

(** The data of an image.  [rows] is the array seen voxel by voxel: one
    row per position of the first three axes, and in a row one value per
    index of the last axis (the maps of a 4D maps image; a single value
    for a 3D image). *)
Record ndarray := mk_ndarray {
  arr_dtype : np_dtype;
  shape : list nat;
  rows : list (list voxel)
}.

Record Nifti1Image := mk_img {
  dataobj : ndarray;
  affine : list Q
}.

Definition img_shape (i : Nifti1Image) : list nat := shape (dataobj i).

Inductive interpolation := linear | nearest.

(** Which attribute of the masker an image passed to [resample_img] was
    read from; recorded in the log only. *)
Inductive img_role := maps_role | mask_role.

(** ** Exceptions, log, masker object *)

Inductive exn :=
| ValueError (msg : string)
| TypeError (msg : string)
| AttributeError (msg : string)
| IndexError (msg : string)
| NotFittedError (msg : string).

Inductive outcome (A : Type) :=
| Ok (a : A)
| Raised (e : exn).
Arguments Ok {A} a.
Arguments Raised {A} e.

Definition kwargs := list (string * string).

(** The arguments of [__init__]. *)
Record Params := mk_params {
  maps_img : option loc;
  mask_img : option loc;
  allow_overlap : bool;
  smoothing_fwhm : option Q;
  standardize : bool;
  standardize_confounds : bool;
  high_variance_confounds : bool;
  detrend : bool;
  low_pass : option Q;
  high_pass : option Q;
  t_r : option Q;
  dtype : option np_dtype;
  resampling_target : option string;
  keep_masked_maps : bool;
  memory : option string;
  memory_level : nat;
  verbose : nat;
  reports : bool;
  cmap : string;
  clean_args : option kwargs;
  clean_kwargs : kwargs
}.

(** [self._report_content] *)
Record report_content := mk_report_content {
  description : string;
  warning_message : option string;
  number_of_maps : option nat;
  content_displayed_maps : option (list Z)
}.

(** [self._reporting_data] *)
Record reporting_data := mk_reporting_data {
  maps_image : option loc;
  mask : option loc;
  dim : option nat;
  img : option loc
}.

(** The values [generate_report] can be given for [displayed_maps]: a
    Python integer, a list of them, a NumPy array of dtype [int], a
    string, or anything else (an array of another dtype among them). *)
Inductive pyvalue :=
| PyInt (n : Z)
| PyList (l : list Z)
| PyArray (a : list Z)
| PyStr (s : string)
| PyOther.

(** [nilearn.reporting.html_report.HTMLReport], as far as the masker
    is concerned: the displays the report embeds, or the empty report
    that is built when there is nothing to display. *)
Inductive HTMLReport :=
| EmptyReport
| Report (displays : list (option string)).

(** The masker.  An attribute that [__init__] does not set is [None]
    until some method assigns it ([hasattr] is [is_Some]); an attribute
    holding Python's [None] is [Some None]. *)
Record NiftiMapsMasker := mk_masker {
  params : Params;
  _maps_img : option (option loc);
  clean_kwargs_ : option kwargs;
  clean_args_ : option kwargs;
  _report_content : option report_content;
  maps_img_ : option (option loc);
  mask_img_ : option (option loc);
  _reporting_data : option (option reporting_data);
  n_elements_ : option nat;
  displayed_maps : option pyvalue
}.

Inductive event :=
| Logged (msg : string)
| Warned (msg : string)
| Touched (fn : string) (image : option loc)
| Resampled (what : img_role) (image : option loc) (interp : interpolation)
    (to_shape : list nat) (to_affine : list Q)
| Extracted (maps_image mask_image : option loc).

(** The log has the most recent event first. *)
Record world := mk_world {
  heap : list Nifti1Image;
  self : NiftiMapsMasker;
  log : list event
}.

(** ** The monad of methods *)

Definition M (A : Type) : Type := world -> outcome A * world.

Definition ret {A} (a : A) : M A := fun w => (Ok a, w).

Definition raise {A} (e : exn) : M A := fun w => (Raised e, w).

Definition bind {A B} (m : M A) (k : A -> M B) : M B :=
  fun w =>
    match m w with
    | (Ok a, w') => k a w'
    | (Raised e, w') => (Raised e, w')
    end.

Declare Scope masker_scope.
Delimit Scope masker_scope with masker.
Notation "x <- m ;; k" := (bind m (fun x => k))
  (at level 100, m at next level, right associativity) : masker_scope.
Notation "m ;; k" := (bind m (fun _ => k))
  (at level 100, right associativity) : masker_scope.
Local Open Scope masker_scope.

Definition get_self : M NiftiMapsMasker := fun w => (Ok (self w), w).

Definition set_self (f : NiftiMapsMasker -> NiftiMapsMasker) : M unit :=
  fun w => (Ok tt, mk_world (heap w) (f (self w)) (log w)).

Definition emit (e : event) : M unit :=
  fun w => (Ok tt, mk_world (heap w) (self w) (e :: log w)).

(** A new image object. *)
Definition alloc (i : Nifti1Image) : M loc :=
  fun w => (Ok (length (heap w)), mk_world (heap w ++ [i]) (self w) (log w)).

Definition peek (l : loc) : M (option Nifti1Image) :=
  fun w => (Ok (heap w !! l), w).

(** In-place assignment into the array of an existing image. *)
Definition poke (l : loc) (i : Nifti1Image) : M unit :=
  fun w => (Ok tt, mk_world (<[l := i]> (heap w)) (self w) (log w)).

(** [obj.attr] on something that is [None] or is not an image. *)
Definition deref (x : option loc) : M Nifti1Image :=
  match x with
  | None => raise (AttributeError "'NoneType' object has no attribute")
  | Some l =>
      o <- peek l ;;
      match o with
      | Some i => ret i
      | None => raise (AttributeError "object is not an image")
      end
  end.

(** [self.attr] for an attribute that may not exist yet. *)
Definition getattr {A} (name : string) (f : NiftiMapsMasker -> option A) : M A :=
  s <- get_self ;;
  match f s with
  | Some a => ret a
  | None => raise (AttributeError name)
  end.

(** Attribute assignments. *)
Definition with_clean_kwargs_ (v : kwargs) (s : NiftiMapsMasker) :=
  mk_masker (params s) (_maps_img s) (Some v) (clean_args_ s)
    (_report_content s) (maps_img_ s) (mask_img_ s) (_reporting_data s)
    (n_elements_ s) (displayed_maps s).

Definition with_clean_args_ (v : kwargs) (s : NiftiMapsMasker) :=
  mk_masker (params s) (_maps_img s) (clean_kwargs_ s) (Some v)
    (_report_content s) (maps_img_ s) (mask_img_ s) (_reporting_data s)
    (n_elements_ s) (displayed_maps s).

Definition with_report_content (v : report_content) (s : NiftiMapsMasker) :=
  mk_masker (params s) (_maps_img s) (clean_kwargs_ s) (clean_args_ s)
    (Some v) (maps_img_ s) (mask_img_ s) (_reporting_data s)
    (n_elements_ s) (displayed_maps s).

Definition with_maps_img_ (v : option loc) (s : NiftiMapsMasker) :=
  mk_masker (params s) (_maps_img s) (clean_kwargs_ s) (clean_args_ s)
    (_report_content s) (Some v) (mask_img_ s) (_reporting_data s)
    (n_elements_ s) (displayed_maps s).

Definition with_mask_img_ (v : option loc) (s : NiftiMapsMasker) :=
  mk_masker (params s) (_maps_img s) (clean_kwargs_ s) (clean_args_ s)
    (_report_content s) (maps_img_ s) (Some v) (_reporting_data s)
    (n_elements_ s) (displayed_maps s).

Definition with_reporting_data (v : option reporting_data) (s : NiftiMapsMasker) :=
  mk_masker (params s) (_maps_img s) (clean_kwargs_ s) (clean_args_ s)
    (_report_content s) (maps_img_ s) (mask_img_ s) (Some v)
    (n_elements_ s) (displayed_maps s).

Definition with_n_elements_ (v : nat) (s : NiftiMapsMasker) :=
  mk_masker (params s) (_maps_img s) (clean_kwargs_ s) (clean_args_ s)
    (_report_content s) (maps_img_ s) (mask_img_ s) (_reporting_data s)
    (Some v) (displayed_maps s).

Definition with_displayed_maps (v : pyvalue) (s : NiftiMapsMasker) :=
  mk_masker (params s) (_maps_img s) (clean_kwargs_ s) (clean_args_ s)
    (_report_content s) (maps_img_ s) (mask_img_ s) (_reporting_data s)
    (n_elements_ s) (Some v).

(** Assignment to a constructor argument, as [set_params] or a plain
    attribute assignment does between two calls. *)
Definition with_params (p : Params) (s : NiftiMapsMasker) :=
  mk_masker p (_maps_img s) (clean_kwargs_ s) (clean_args_ s)
    (_report_content s) (maps_img_ s) (mask_img_ s) (_reporting_data s)
    (n_elements_ s) (displayed_maps s).

(** [NiftiMapsMasker.__init__]: stores its arguments, nothing else. *)
Definition __init__ (p : Params) : NiftiMapsMasker :=
  mk_masker p None None None None None None None None None.

(** [target == name], for the value of [self.resampling_target] *)
Definition target_is (target : option string) (name : string) : bool :=
  match target with
  | Some t => String.eqb t name
  | None => false
  end.

(** [target in ("mask", "maps", "data", None)] *)
Definition resampling_target_valid (target : option string) : bool :=
  match target with
  | Some t => String.eqb t "mask" || String.eqb t "maps" || String.eqb t "data"
  | None => true
  end.

(** [target is None] *)
Definition target_is_None (target : option string) : bool :=
  match target with
  | Some _ => false
  | None => true
  end.

(** ** Pure helpers *)

Definition dtype_eqb (a b : np_dtype) : bool :=
  match a, b with
  | float32, float32 | float64, float64 | int32, int32
  | int64, int64 | uint8, uint8 => true
  | _, _ => false
  end.

Fixpoint shape_eqb (a b : list nat) : bool :=
  match a, b with
  | [], [] => true
  | x :: a', y :: b' => Nat.eqb x y && shape_eqb a' b'
  | _, _ => false
  end.

(** [np.allclose(a, b)] with NumPy's default tolerances, on two affines
    of the same size: [|a - b| <= 1e-8 + 1e-5 * |b|] entry by entry. *)
Fixpoint allclose (a b : list Q) : bool :=
  match a, b with
  | [], [] => true
  | x :: a', y :: b' =>
      Qle_bool (Qabs (x - y)) ((1 # 100000000) + (1 # 100000) * Qabs y)
      && allclose a' b'
  | _, _ => false
  end.

(** Modelled from the spec: [check_same_fov] is imported from
    [nilearn._utils.niimg_conversions], which is not among the sources.
    It is the collaborator "validating that two Volumes share a grid
    ([same_shape_and_affine(a, b) -> bool])": same first three
    dimensions, same affine. *)
Definition same_fov (a b : Nifti1Image) : bool :=
  shape_eqb (take 3 (img_shape a)) (take 3 (img_shape b))
  && allclose (affine a) (affine b).

(** With several images, every pair is compared. *)
Fixpoint all_same_fov (l : list Nifti1Image) : bool :=
  match l with
  | [] => true
  | a :: rest => forallb (same_fov a) rest && all_same_fov rest
  end.

(** Modelled from the spec: what [clean_img(..., ensure_finite=True)]
    does to the data when detrending and standardisation are off:
    "Non-finite voxel values (NaN, +-Inf) ... must be replaced by 0". *)
Definition ensure_finite (a : ndarray) : ndarray :=
  mk_ndarray (arr_dtype a) (shape a)
    (map (map (fun v => if isfinite v then v else Finite 0)) (rows a)).

(** One entry of [data] after [data[data < eps] = 0.0] *)
Definition zeroed (eps : Q) (v : voxel) : voxel :=
  if voxel_lt v eps then Finite 0 else v.

(** [data[data < eps] = 0.0] *)
Definition zero_below (eps : Q) (a : ndarray) : ndarray :=
  mk_ndarray (arr_dtype a) (shape a) (map (map (zeroed eps)) (rows a)).

(** [np.sum(data > 0.0, axis=3)] at one voxel *)
Definition count_positive (row : list voxel) : nat :=
  length (List.filter voxel_pos row).

(** [np.any(np.sum(data > 0.0, axis=3) > 1)] *)
Definition overlap_detected (a : ndarray) : bool :=
  existsb (fun row => 1 <? count_positive row) (rows a).

(** A Python integer that an [int64] can hold *)
Definition fits_int64 (z : Z) : bool :=
  ((- 2 ^ 63 <=? z) && (z <? 2 ^ 63))%Z.

(** [range(k)] for a Python integer *)
Definition range (k : Z) : list Z := map Z.of_nat (seq 0 (Z.to_nat k)).

(** [max(l)] of a non-empty sequence of integers *)
Definition list_max_Z (x : Z) (l : list Z) : Z := fold_left Z.max l x.

Definition msg_invalid_target : string :=
  "invalid value for 'resampling_target' parameter: ".
Definition msg_no_mask : string :=
  "resampling_target has been set to 'mask' but no mask has been provided.".
Definition msg_fov : string :=
  "Following field of view errors were detected".
Definition msg_overlap : string :=
  "Overlap detected in the maps. The overlap may be due to the atlas itself or possibly introduced by resampling.".
Definition msg_not_fitted : string :=
  "This NiftiMapsMasker instance is not fitted yet.".
Definition msg_resampling_maps : string :=
  "Resampling maps at transform time...".
Definition msg_resampling_mask : string :=
  "Resampling mask at transform time...".
Definition msg_too_many_maps : string :=
  "`generate_report()` received more maps to be displayed than the masker has.".
Definition msg_cannot_display : string :=
  "Report cannot display the following maps because masker only has fewer maps.".
Definition msg_displayed_maps_type : string :=
  "Parameter ``displayed_maps`` of ``generate_report()`` should be either 'all' or an int, or a list/array of ints.".
Definition msg_report_not_generated : string :=
  "This report was not generated. Make sure to run `fit` before inspecting reports.".
Definition msg_no_image : string :=
  "No image provided to fit in NiftiMapsMasker. Plotting only spatial maps for reporting.".
Definition msg_first_subject : string :=
  "A list of 4D subject images were provided to fit. Only first subject is shown in the report.".

(** The region-signal matrix: one row per time point. *)
Definition signals := list (list Q).

(** The arrays a call into [nilearn.regions.signal_extraction] wrote
    into.  "Non-finite voxel values (NaN, +-Inf) in the input volume must
    be replaced by 0 before any aggregation", and the class says of
    itself that "Inf or NaN present in the given input images are
    automatically put to zero": the extraction gets the data of every
    image it is handed with [ensure_finite] set, which assigns zero over
    the values that are not finite.  The assignment lands in the array
    of the caller's image whenever that array reached the extraction as
    it is (no cast, no resampling, no smoothing in between). *)
Record in_place := mk_in_place {
  imgs_in_place : bool;
  maps_in_place : bool;
  mask_in_place : bool
}.

(** [_ExtractionFunctor]: the images the extraction will read. *)
Record _ExtractionFunctor := mk_functor {
  functor_maps_img_ : option loc;
  functor_mask_img_ : option loc;
  functor_keep_masked_maps : bool
}.

(** The [params] dictionary handed to [filter_and_extract]. *)
Record extract_params := mk_extract_params {
  init_params : Params;
  target_shape : option (list nat);
  target_affine : option (list Q);
  params_clean_kwargs : kwargs
}.

(** [get_params(NiftiMapsMasker, self, ignore=["resampling_target"])] *)
Definition get_params (s : NiftiMapsMasker) : Params :=
  let p := params s in
  mk_params (maps_img p) (mask_img p) (allow_overlap p) (smoothing_fwhm p)
    (standardize p) (standardize_confounds p) (high_variance_confounds p)
    (detrend p) (low_pass p) (high_pass p) (t_r p) (dtype p) None
    (keep_masked_maps p) (memory p) (memory_level p) (verbose p)
    (reports p) (cmap p) (clean_args p) (clean_kwargs p).

(** [__sklearn_is_fitted__] *)
Definition __sklearn_is_fitted__ (s : NiftiMapsMasker) : bool :=
  match maps_img_ s, n_elements_ s with
  | Some _, Some _ => true
  | _, _ => false
  end.

(** [sklearn]'s [check_is_fitted(self)] asks [__sklearn_is_fitted__]. *)
Definition check_is_fitted : M unit :=
  s <- get_self ;;
  if __sklearn_is_fitted__ s then ret tt
  else raise (NotFittedError msg_not_fitted).

(** ** The methods *)

(** What the class imports and only calls.  Their numerical content is
    left open; what they do to the heap (which image they read, whether
    they build a new one) is written out in the definitions below. *)
Class Collaborators := {
  (** [check_params(self.__dict__)] validates the constructor arguments:
      the message of the [TypeError], if any *)
  check_params : Params -> option string;
  (** [BaseMasker._sanitize_cleaning_parameters]: the value it leaves in
      [clean_kwargs_], or nothing when it raises *)
  sanitize_cleaning_parameters : Params -> option kwargs;
  (** [ndarray.astype] *)
  astype : np_dtype -> ndarray -> ndarray;
  (** the values [resample_img] computes on the target grid, or nothing
      when it raises [BoundingBoxError]: the target grid contains none
      of the data *)
  resample_rows :
    interpolation -> Nifti1Image -> list nat -> list Q ->
    option (list (list voxel));
  (** [load_mask_img]: the validated mask, or nothing when it raises *)
  load_mask_img : Nifti1Image -> option Nifti1Image;
  (** the middle volume of a 4D image, as [compute_middle_image] takes
      it with [index_img] *)
  middle_image : Nifti1Image -> Nifti1Image;
  (** [filter_and_extract]; it is given references, so it gets the heap.
      Its answer is what it returns or raises, and which of the images
      it was handed it has written into by then. *)
  filter_and_extract :
    list Nifti1Image -> option loc -> _ExtractionFunctor -> extract_params ->
    option signals -> option (list nat) -> option np_dtype ->
    outcome signals * in_place;
  (** [BaseMasker._check_array] *)
  _check_array : signals -> outcome signals;
  (** [signal_extraction.signals_to_img_maps]: the image it builds or
      the exception it raises, and which of the maps and mask images it
      has written into by then (there is no input image) *)
  signals_to_img_maps :
    list Nifti1Image -> signals -> option loc -> option loc ->
    outcome Nifti1Image * in_place;
  (** plotting one component over the background image, embedded *)
  plot_component : Nifti1Image -> option Nifti1Image -> string;
  is_matplotlib_installed : bool
}.

Section Masker.

Context `{Collaborators}.

(** [deepcopy(x)]: a new object when [x] is an image *)
Definition deepcopy (x : option loc) : M (option loc) :=
  emit (Touched "deepcopy" x) ;;
  match x with
  | None => ret None
  | Some l =>
      o <- peek l ;;
      match o with
      | Some i => l' <- alloc i ;; ret (Some l')
      | None => ret (Some l)
      end
  end.

(** What [check_niimg] has to build for an array, if anything: the data
    cast to the requested dtype when it has another one, and a fourth
    axis of length one added to a 3D array when [atleast_4d] is set. *)
Definition conform (dt : option np_dtype) (atleast_4d : bool) (a : ndarray)
    : option ndarray :=
  let cast :=
    match dt with
    | Some d => negb (dtype_eqb d (arr_dtype a))
    | None => false
    end in
  let a1 :=
    match dt with
    | Some d => if cast then astype d a else a
    | None => a
    end in
  let expand := atleast_4d && (length (shape a1) =? 3) in
  let a2 :=
    if expand
    then mk_ndarray (arr_dtype a1) (shape a1 ++ [1]) (rows a1)
    else a1 in
  if cast || expand then Some a2 else None.

(** [check_niimg(x, dtype=dt, atleast_4d=...)]: refuses what is not an
    image; returns the image itself, or a new image when the data had to
    be cast or given a fourth axis. *)
Definition check_niimg (x : option loc) (dt : option np_dtype)
    (atleast_4d : bool) : M loc :=
  emit (Touched "check_niimg" x) ;;
  match x with
  | None => raise (TypeError "input should be a NiftiLike object")
  | Some l =>
      o <- peek l ;;
      match o with
      | None => raise (TypeError "Data given cannot be loaded")
      | Some i =>
          match conform dt atleast_4d (dataobj i) with
          | Some a => alloc (mk_img a (affine i))
          | None => ret l
          end
      end
  end.

(** The cleaning works on floating-point signals: data of another kind
    are cast to [float32], the values being those [astype] gives. *)
Definition ensure_float (a : ndarray) : ndarray :=
  if String.eqb (kind (arr_dtype a)) "f" then a
  else mk_ndarray float32 (shape a) (rows (astype float32 a)).

(** [clean_img(img, detrend=False, standardize=False, ensure_finite=True)]
    returns a new image, of floating-point data.  The sanitised values
    are also written into the array of the image it was given: the
    cleaning works on a view of it. *)
Definition clean_img (l : loc) : M loc :=
  emit (Touched "clean_img" (Some l)) ;;
  i <- deref (Some l) ;;
  let sane := ensure_finite (dataobj i) in
  poke l (mk_img sane (affine i)) ;;
  alloc (mk_img (ensure_float sane) (affine i)).

(** [BaseMasker._load_mask]: [None] without a mask, else a new, validated
    mask image. *)
Definition _load_mask (imgs : option loc) : M (option loc) :=
  s <- get_self ;;
  match mask_img (params s) with
  | None => ret None
  | Some l =>
      emit (Touched "_load_mask" (Some l)) ;;
      o <- peek l ;;
      match o with
      | None => raise (TypeError "Data given cannot be loaded")
      | Some i =>
          match load_mask_img i with
          | Some m => l' <- alloc m ;; ret (Some l')
          | None => raise (ValueError "Given mask is not made of 2 values")
          end
      end
  end.

(** [check_same_fov(a, b)] *)
Definition check_same_fov (a b : option loc) : M bool :=
  ia <- deref a ;;
  ib <- deref b ;;
  ret (same_fov ia ib).

Fixpoint deref_all (l : list (option loc)) : M (list Nifti1Image) :=
  match l with
  | [] => ret []
  | x :: rest => i <- deref x ;; r <- deref_all rest ;; ret (i :: r)
  end.

(** [check_same_fov(raise_error=True, **images)] *)
Definition check_same_fov_raise (images : list (option loc)) : M unit :=
  l <- deref_all images ;;
  if all_same_fov l then ret tt else raise (ValueError msg_fov).

(** [resample_img(x, interpolation=..., target_shape=..., target_affine=...)]:
    a new image on the target grid; the image given is only read.  It
    raises [BoundingBoxError], a [ValueError], when the target grid
    contains none of the data. *)
Definition resample_img (what : img_role) (x : option loc)
    (interp : interpolation) (to_shape : list nat) (to_affine : list Q)
    : M loc :=
  emit (Resampled what x interp to_shape to_affine) ;;
  i <- deref x ;;
  match resample_rows interp i to_shape to_affine with
  | Some r =>
      alloc (mk_img
               (mk_ndarray (arr_dtype (dataobj i))
                  (to_shape ++ drop 3 (img_shape i)) r)
               to_affine)
  | None =>
      raise (ValueError "The field of view given by the target affine does not contain any of the data")
  end.

(** [compute_middle_image(imgs)] for one image: the image to show and
    the number of dimensions of [imgs].  Of a 4D image it is the middle
    volume, a new image; [index_img] refuses a 5D image with
    [DimensionError], a [TypeError]; any other image is returned as it
    is. *)
Definition compute_middle_image (imgs : option loc) : M (loc * nat) :=
  emit (Touched "compute_middle_image" imgs) ;;
  i <- deref imgs ;;
  let n := length (img_shape i) in
  if (n =? 4)%nat then
    l <- alloc (middle_image i) ;;
    ret (l, n)
  else if (n =? 5)%nat then
    raise (TypeError "Input data has incompatible dimensionality: Expected dimension is 4D and you provided a 5D image")
  else
    match imgs with
    | Some l => ret (l, n)
    | None => raise (AttributeError "'NoneType' object has no attribute")
    end.

(** The assignment [data[non_finite] = 0] into the array of an image. *)
Definition sanitise (x : option loc) : M unit :=
  match x with
  | None => ret tt
  | Some l =>
      o <- peek l ;;
      match o with
      | Some i => poke l (mk_img (ensure_finite (dataobj i)) (affine i))
      | None => ret tt
      end
  end.

(** What a call into the signal extraction leaves behind: the writes it
    made into the images it was handed, then what it returned or
    raised. *)
Definition in_place_then {A} (r : outcome A * in_place)
    (imgs mask_image maps_image : option loc) : M A :=
  (if maps_in_place (snd r) then sanitise maps_image else ret tt) ;;
  (if mask_in_place (snd r) then sanitise mask_image else ret tt) ;;
  (if imgs_in_place (snd r) then sanitise imgs else ret tt) ;;
  fun w => (fst r, w).

(** [get_data(img)]: the array of the image itself, not a copy; it is
    named by the image that carries it. *)
Definition get_data (x : option loc) : M loc :=
  match x with
  | None => raise (TypeError "input should be a NiftiLike object")
  | Some l =>
      o <- peek l ;;
      match o with
      | Some _ => ret l
      | None => raise (TypeError "Data given cannot be loaded")
      end
  end.

(** *** [fit] *)

(** lines 394-407 *)
Definition fit_check_config : M unit :=
  s <- get_self ;;
  match check_params (params s) with
  | Some msg => raise (TypeError msg)
  | None =>
      if negb (resampling_target_valid (resampling_target (params s)))
      then raise (ValueError
                    (msg_invalid_target ++
                     match resampling_target (params s) with
                     | Some t => t
                     | None => "None"
                     end))
      else
        match mask_img (params s) with
        | None =>
            if target_is (resampling_target (params s)) "mask" then raise (ValueError msg_no_mask)
            else ret tt
        | Some _ => ret tt
        end
  end.

(** lines 409-442; returns [imgs_] *)
Definition fit_load (imgs : option loc) : M (option loc) :=
  s <- get_self ;;
  match sanitize_cleaning_parameters (params s) with
  | None =>
      raise (ValueError "Passing arguments via 'kwargs' is mutually exclusive with using 'clean_args'")
  | Some kw => set_self (with_clean_kwargs_ kw)
  end ;;
  set_self (with_clean_args_
              match clean_args (params s) with
              | None => []
              | Some a => a
              end) ;;
  set_self (with_report_content
              (mk_report_content
                 "This reports shows the spatial maps provided to the mask."
                 None None None)) ;;
  let maps_img :=
    match _maps_img s with
    | Some m => m
    | None => maps_img (params s)
    end in
  emit (Logged "load_regions") ;;
  c <- deepcopy maps_img ;;
  set_self (with_maps_img_ c) ;;
  l <- check_niimg c (dtype (params s)) true ;;
  set_self (with_maps_img_ (Some l)) ;;
  l' <- clean_img l ;;
  set_self (with_maps_img_ (Some l')) ;;
  imgs_ <- match imgs with
           | None => ret None
           | Some _ => l <- check_niimg imgs None false ;; ret (Some l)
           end ;;
  m <- _load_mask imgs ;;
  set_self (with_mask_img_ m) ;;
  ret imgs_.

(** lines 444-495 *)
Definition fit_align (imgs imgs_ : option loc) : M unit :=
  s <- get_self ;;
  (if target_is_None (resampling_target (params s)) then
     maps <- getattr "maps_img_" maps_img_ ;;
     mask <- getattr "mask_img_" mask_img_ ;;
     check_same_fov_raise
       ([maps]
        ++ match mask with Some _ => [mask] | None => [] end
        ++ match imgs with Some _ => [imgs_] | None => [] end)
   else ret tt) ;;
  maps <- getattr "maps_img_" maps_img_ ;;
  mask <- getattr "mask_img_" mask_img_ ;;
  let ref_img :=
    if target_is (resampling_target (params s)) "data" && match imgs with Some _ => true | None => false end
    then imgs_
    else if target_is (resampling_target (params s)) "mask" then mask
    else if target_is (resampling_target (params s)) "maps" then maps
    else None in
  match ref_img with
  | None => ret tt
  | Some _ =>
      differ <- (if negb (target_is (resampling_target (params s)) "maps")
                 then same <- check_same_fov ref_img maps ;; ret (negb same)
                 else ret false) ;;
      (if differ : bool then
         emit (Logged "resample_regions") ;;
         r <- deref ref_img ;;
         l <- resample_img maps_role maps linear
                (take 3 (img_shape r)) (affine r) ;;
         set_self (with_maps_img_ (Some l))
       else ret tt) ;;
      mask <- getattr "mask_img_" mask_img_ ;;
      differ <- match mask with
                | None => ret false
                | Some _ =>
                    same <- check_same_fov ref_img mask ;; ret (negb same)
                end ;;
      if differ : bool then
        emit (Logged "resample_mask") ;;
        r <- deref ref_img ;;
        l <- resample_img mask_role mask nearest
               (take 3 (img_shape r)) (affine r) ;;
        set_self (with_mask_img_ (Some l)) ;;
        m <- deref (Some l) ;;
        match load_mask_img m with
        | Some _ => ret tt
        | None => raise (ValueError "Given mask is not made of 2 values")
        end
      else ret tt
  end.

(** lines 497-516 *)
Definition fit_finish (imgs : option loc) : M unit :=
  s <- get_self ;;
  (if reports (params s) then
     maps <- getattr "maps_img_" maps_img_ ;;
     mask <- getattr "mask_img_" mask_img_ ;;
     set_self (with_reporting_data
                 (Some (mk_reporting_data maps mask None imgs))) ;;
     match imgs with
     | None => ret tt
     | Some _ =>
         md <- compute_middle_image imgs ;;
         set_self (with_reporting_data
                     (Some (mk_reporting_data maps mask
                              (Some (snd md)) (Some (fst md)))))
     end
   else set_self (with_reporting_data None)) ;;
  maps <- getattr "maps_img_" maps_img_ ;;
  i <- deref maps ;;
  match img_shape i !! 3%nat with
  | None => raise (IndexError "tuple index out of range")
  | Some n => set_self (with_n_elements_ n)
  end ;;
  emit (Logged "fit_done").

(** [fit(imgs)]; the masker it returns is [self], the state. *)
Definition fit (imgs : option loc) : M unit :=
  fit_check_config ;;
  imgs_ <- fit_load imgs ;;
  fit_align imgs imgs_ ;;
  fit_finish imgs.

(** *** [transform_single_imgs] *)

(** lines 592-652; returns the call's own [(mask_img_, maps_img_)] *)
Definition transform_align (imgs : option loc)
    : M (option loc * option loc) :=
  mask_img_0 <- getattr "mask_img_" mask_img_ ;;
  maps_img_0 <- getattr "maps_img_" maps_img_ ;;
  imgs_ <- check_niimg imgs None true ;;
  s <- get_self ;;
  if target_is_None (resampling_target (params s)) then
    check_same_fov_raise
      ([maps_img_0; Some imgs_]
       ++ match mask_img_0 with Some _ => [mask_img_0] | None => [] end) ;;
    ret (mask_img_0, maps_img_0)
  else if target_is (resampling_target (params s)) "data" then
    let ref_img := Some imgs_ in
    same <- check_same_fov ref_img maps_img_0 ;;
    maps_img_1 <- (if negb same then
                     emit (Warned msg_resampling_maps) ;;
                     r <- deref ref_img ;;
                     from <- getattr "maps_img_" maps_img_ ;;
                     l <- resample_img maps_role from linear
                            (take 3 (img_shape r)) (affine r) ;;
                     ret (Some l)
                   else ret maps_img_0) ;;
    from <- getattr "mask_img_" mask_img_ ;;
    differ <- match from with
              | None => ret false
              | Some _ =>
                  same <- check_same_fov ref_img from ;; ret (negb same)
              end ;;
    mask_img_1 <- (if differ : bool then
                     emit (Warned msg_resampling_mask) ;;
                     r <- deref ref_img ;;
                     l <- resample_img mask_role from nearest
                            (take 3 (img_shape r)) (affine r) ;;
                     ret (Some l)
                   else ret mask_img_0) ;;
    ret (mask_img_1, maps_img_1)
  else ret (mask_img_0, maps_img_0).

(** lines 654-669 *)
Definition check_overlap (maps_img_1 : option loc) : M unit :=
  s <- get_self ;;
  if negb (allow_overlap (params s)) then
    data <- get_data maps_img_1 ;;
    i <- deref (Some data) ;;
    let dt := arr_dtype (dataobj i) in
    (if String.eqb (kind dt) "f" then
       match finfo_eps dt with
       | Some eps => poke data (mk_img (zero_below eps (dataobj i)) (affine i))
       | None => raise (ValueError "data type not inexact")
       end
     else ret tt) ;;
    i <- deref (Some data) ;;
    if overlap_detected (dataobj i)
    then raise (ValueError msg_overlap)
    else ret tt
  else ret tt.

(** lines 671-711 *)
Definition transform_extract (imgs mask_img_1 maps_img_1 : option loc)
    (confounds : option signals) (sample_mask : option (list nat))
    : M signals :=
  s <- get_self ;;
  target <- (if negb (target_is (resampling_target (params s)) "data") then
               i <- deref maps_img_1 ;;
               ret (Some (take 3 (img_shape i)), Some (affine i))
             else ret (None, None)) ;;
  kw <- getattr "clean_args_" clean_args_ ;;
  kw <- match clean_kwargs (params s) with
        | [] => ret kw
        | _ :: _ => getattr "clean_kwargs_" clean_kwargs_
        end ;;
  emit (Extracted maps_img_1 mask_img_1) ;;
  fun w =>
    in_place_then
      (filter_and_extract (heap w) imgs
         (mk_functor maps_img_1 mask_img_1 (keep_masked_maps (params s)))
         (mk_extract_params (get_params s) (fst target) (snd target) kw)
         confounds sample_mask (dtype (params s)))
      imgs mask_img_1 maps_img_1 w.

Definition transform_single_imgs (imgs : option loc)
    (confounds : option signals) (sample_mask : option (list nat))
    : M signals :=
  check_is_fitted ;;
  locals <- transform_align imgs ;;
  check_overlap (snd locals) ;;
  transform_extract imgs (fst locals) (snd locals) confounds sample_mask.

(** Modelled from the spec: [BaseMasker.transform] is not among the
    sources.  "[transform(volume, confounds=None, sample_mask=None)]:
    requires prior [fit] ... Delegates to Extractor then Cleaner in
    sequence": for one image it is [transform_single_imgs]. *)
Definition transform (imgs : option loc)
    (confounds : option signals) (sample_mask : option (list nat))
    : M signals :=
  transform_single_imgs imgs confounds sample_mask.

(** [fit_transform]: [return self.fit(imgs).transform(imgs, ...)] *)
Definition fit_transform (imgs : option loc)
    (confounds : option signals) (sample_mask : option (list nat))
    : M signals :=
  fit imgs ;;
  transform imgs confounds sample_mask.

(** [inverse_transform] *)
Definition inverse_transform (region_signals : signals) : M loc :=
  check_is_fitted ;;
  region_signals <- (fun w => (_check_array region_signals, w)) ;;
  emit (Logged "inverse_transform") ;;
  maps <- getattr "maps_img_" maps_img_ ;;
  mask <- getattr "mask_img_" mask_img_ ;;
  i <- (fun w =>
          in_place_then
            (signals_to_img_maps (heap w) region_signals maps mask)
            None mask maps w) ;;
  alloc i.

(** *** Reports *)

(** [index_img(maps_image, component)] followed by the plot: NumPy's
    rule for an integer index on the last axis. *)
Definition plot_map (maps_image : Nifti1Image) (n_maps : nat)
    (background : option Nifti1Image) (component : Z) : M string :=
  if ((- Z.of_nat n_maps <=? component) && (component <? Z.of_nat n_maps))%Z
  then ret (plot_component
              (mk_img
                 (mk_ndarray (arr_dtype (dataobj maps_image))
                    (take 3 (img_shape maps_image))
                    (map (fun row =>
                            match row !! Z.to_nat (component mod Z.of_nat n_maps) with
                            | Some v => [v]
                            | None => []
                            end) (rows (dataobj maps_image))))
                 (affine maps_image))
              background)
  else raise (IndexError "index out of bounds").

Fixpoint plot_maps (maps_image : Nifti1Image) (n_maps : nat)
    (background : option Nifti1Image) (components : list Z)
    : M (list (option string)) :=
  match components with
  | [] => ret []
  | c :: rest =>
      e <- plot_map maps_image n_maps background c ;;
      r <- plot_maps maps_image n_maps background rest ;;
      ret (Some e :: r)
  end.

(** lines 308-332 of [_reporting]: the maps the report will show *)
Definition maps_to_be_displayed (n_maps : nat) : M (list Z) :=
  dm <- getattr "displayed_maps" displayed_maps ;;
  match dm with
  | PyInt k =>
      if (Z.of_nat n_maps <? k)%Z then
        emit (Warned msg_too_many_maps) ;;
        set_self (with_displayed_maps (PyInt (Z.of_nat n_maps))) ;;
        ret (range (Z.of_nat n_maps))
      else ret (range k)
  | PyList l | PyArray l =>
      match l with
      | [] => raise (ValueError "max() arg is an empty sequence")
      | x :: l' =>
          if (Z.of_nat n_maps <? list_max_Z x l')%Z
          then raise (ValueError msg_cannot_display)
          else ret l
      end
  | PyStr _ | PyOther => ret (range (Z.of_nat n_maps))
  end.

(** lines 334-380 of [_reporting]: one display per map to show *)
Definition embedded_images (d : reporting_data) (maps_image : Nifti1Image)
    (n_maps : nat) (components : list Z) : M (list (option string)) :=
  rc <- getattr "_report_content" _report_content ;;
  set_self (with_report_content
              (mk_report_content (description rc) (warning_message rc)
                 (Some n_maps) (Some components))) ;;
  match img d with
  | None =>
      emit (Warned msg_no_image) ;;
      set_self (with_report_content
                  (mk_report_content (description rc) (Some msg_no_image)
                     (Some n_maps) (Some components))) ;;
      plot_maps maps_image n_maps None components
  | Some _ =>
      (if match dim d with Some 5%nat => true | _ => false end then
         emit (Warned msg_first_subject) ;;
         set_self (with_report_content
                     (mk_report_content (description rc)
                        (Some msg_first_subject)
                        (Some n_maps) (Some components)))
       else ret tt) ;;
      bg <- deref (img d) ;;
      plot_maps maps_image n_maps (Some bg) components
  end.

(** [_reporting]: the list of displays to be rendered *)
Definition _reporting : M (list (option string)) :=
  rd <- getattr "_reporting_data" _reporting_data ;;
  match rd with
  | None => ret [None]
  | Some d =>
      match maps_image d with
      | None => ret [None]
      | Some _ =>
          mi <- deref (maps_image d) ;;
          n_maps <- match last (img_shape mi) with
                    | Some n => ret n
                    | None => raise (IndexError "tuple index out of range")
                    end ;;
          components <- maps_to_be_displayed n_maps ;;
          embedded_images d mi n_maps components
      end
  end.

(** The rendering of the displays into the report takes the first of
    them for the page: on an empty list it raises [IndexError]. *)
Definition render (displays : list (option string)) : M HTMLReport :=
  match displays with
  | [] => raise (IndexError "list index out of range")
  | _ :: _ => ret (Report displays)
  end.

(** [nilearn.reporting.html_report.generate_report] is not among the
    sources.  What is kept of it: without Matplotlib, or on a masker
    without report data, it warns and returns an empty report; otherwise
    it asks the masker for its displays, with [self._reporting()], and
    renders them. *)
Definition html_generate_report : M HTMLReport :=
  s <- get_self ;;
  match is_matplotlib_installed, _reporting_data s with
  | true, Some (Some _) =>
      displays <- _reporting ;;
      render displays
  | _, _ =>
      emit (Warned msg_report_not_generated) ;;
      ret EmptyReport
  end.

(** [np.array(displayed_maps).dtype != int] for what is not a string.
    [int] is NumPy's default integer, [int64]: a Python integer, or a
    list of them, gives that dtype exactly when every value fits in 64
    signed bits (a larger one gives [uint64] or [object]), and an empty
    list gives [float64].  An array of dtype [int] holds such values
    only. *)
Definition not_integer (displayed : pyvalue) : bool :=
  match displayed with
  | PyStr _ => false
  | PyInt k => negb (fits_int64 k)
  | PyList [] => true
  | PyList l | PyArray l => negb (forallb fits_int64 l)
  | PyOther => true
  end.

(** [generate_report(displayed_maps)] *)
Definition generate_report (displayed : pyvalue) : M HTMLReport :=
  if negb is_matplotlib_installed then html_generate_report
  else
    let incorrect_type :=
      match displayed with PyOther => true | _ => false end in
    let incorrect_string :=
      match displayed with
      | PyStr s => negb (String.eqb s "all")
      | _ => false
      end in
    if incorrect_type || incorrect_string || not_integer displayed
    then raise (TypeError msg_displayed_maps_type)
    else
      set_self (with_displayed_maps displayed) ;;
      html_generate_report.

End Masker.

(** ** A caller: the region signals of a cohort

    [examples/03_connectivity/plot_group_level_connectivity.py], lines
    60 to 72: one masker, and [fit_transform] on each subject in turn. *)

(** The three lists the loop fills. *)
Record cohort := mk_cohort {
  children : list signals;
  pooled_subjects : list signals;
  groups : list string
}.

(** [zip(a, b, c)] *)
Fixpoint zip3 {A B C} (a : list A) (b : list B) (c : list C)
    : list (A * B * C) :=
  match a, b, c with
  | x :: a', y :: b', z :: c' => (x, y, z) :: zip3 a' b' c'
  | _, _, _ => []
  end.

Section Example.

Context `{Collaborators}.

(** The loop, from the subjects that are left and the lists so far. *)
Fixpoint extract_region_signals (subjects : list (loc * signals * string))
    (so_far : cohort) : M cohort :=
  match subjects with
  | [] => ret so_far
  | (func_file, confound_file, phenotype) :: rest =>
      time_series <- fit_transform (Some func_file) (Some confound_file)
                       None ;;
      let pooled_subjects' := pooled_subjects so_far ++ [time_series] in
      let children' :=
        if String.eqb phenotype "child"
        then children so_far ++ [time_series]
        else children so_far in
      let groups' := groups so_far ++ [phenotype] in
      extract_region_signals rest
        (mk_cohort children' pooled_subjects' groups')
  end.

(** Lines 60 to 72. *)
Definition region_signals_extraction (func : list loc)
    (confounds : list signals) (phenotypic : list string) : M cohort :=
  extract_region_signals (zip3 func confounds phenotypic)
    (mk_cohort [] [] []).

End Example.

(** Of the time series, those of the subjects whose phenotype is
    "child", in order. *)
Fixpoint child_series (series : list signals) (phenotypes : list string)
    : list signals :=
  match series, phenotypes with
  | s :: series', p :: phenotypes' =>
      if String.eqb p "child"
      then s :: child_series series' phenotypes'
      else child_series series' phenotypes'
  | _, _ => []
  end.

(** ** Vocabulary of the properties *)

(** [wp m Q w]: running [m] in [w] ends, with a value or an exception,
    in a world for which [Q] holds. *)
Definition wp {A} (m : M A) (Q : outcome A -> world -> Prop) (w : world)
    : Prop :=
  Q (fst (m w)) (snd (m w)).

(** The heap [h] comes from [h0] by creating objects and by assigning
    into objects that [h0] did not have. *)
Inductive grown (h0 : list Nifti1Image) : list Nifti1Image -> Prop :=
| grown_refl : grown h0 h0
| grown_alloc h i : grown h0 h -> grown h0 (h ++ [i])
| grown_poke h l i :
    grown h0 h -> length h0 <= l -> grown h0 (<[l := i]> h).

(** The log [l] is [l0] with more recent events, all of them in [P]. *)
Inductive extends (P : event -> Prop) (l0 : list event) : list event -> Prop :=
| extends_refl : extends P l0 l0
| extends_cons e l : P e -> extends P l0 l -> extends P l0 (e :: l).

(** The interpolation that goes with each image of the masker [s]: a
    resampling is of the maps image that [s] holds, with [linear], or
    of the mask image that [s] holds, with [nearest]. *)
Definition resampled_by_image (s : NiftiMapsMasker) (e : event) : Prop :=
  match e with
  | Resampled what x i _ _ =>
      (maps_img_ s = Some x /\ what = maps_role /\ i = linear)
      \/ (mask_img_ s = Some x /\ what = mask_role /\ i = nearest)
  | _ => True
  end.

(** The interpolation that goes with each role recorded in the log. *)
Definition resample_rule (e : event) : Prop :=
  match e with
  | Resampled maps_role _ i _ _ => i = linear
  | Resampled mask_role _ i _ _ => i = nearest
  | _ => True
  end.

(** No signal was extracted. *)
Definition not_extraction (e : event) : Prop :=
  match e with
  | Extracted _ _ => False
  | _ => True
  end.

(** A value that is there and is not zero; NaN is missing data, not a
    value. *)
Definition nonzero_value (v : voxel) : bool :=
  match v with
  | Finite q => negb (Qeq_bool q 0)
  | NaN => false
  | PInf | NInf => true
  end.

(** Voxel [v] is kept by the mask; without a mask every voxel is. *)
Definition in_mask (mask_image : option Nifti1Image) (v : nat) : Prop :=
  match mask_image with
  | None => True
  | Some m =>
      exists x rest,
        rows (dataobj m) !! v = Some (x :: rest) /\ nonzero_value x = true
  end.

(** Some voxel kept by the mask has, once the values below [eps] are
    zeroed, a non-zero value in two different maps. *)
Definition shares_voxel (eps : Q) (maps : Nifti1Image)
    (mask_image : option Nifti1Image) : Prop :=
  exists (v : nat) (row : list voxel) (j k : nat) (x y : voxel),
    rows (dataobj maps) !! v = Some row /\ in_mask mask_image v /\
    j <> k /\ row !! j = Some x /\ row !! k = Some y /\
    nonzero_value (zeroed eps x) = true /\
    nonzero_value (zeroed eps y) = true.

(** The image a local variable of [transform_single_imgs] holds. *)
Definition image_at (w : world) (x : option loc) : option Nifti1Image :=
  match x with
  | Some l => heap w !! l
  | None => None
  end.

(** The masker with what an earlier [fit] left in it taken away: the
    constructor arguments stay, and so do the two attributes [fit] never
    assigns. *)
Definition forget (w : world) : world :=
  mk_world (heap w)
    (mk_masker (params (self w)) (_maps_img (self w)) None None None None
       None None None (displayed_maps (self w)))
    (log w).

(** Two worlds with the same images and log, and maskers that agree on
    the constructor arguments and on what [fit] never assigns. *)
Definition same_inputs (w1 w2 : world) : Prop :=
  heap w1 = heap w2 /\ log w1 = log w2 /\
  params (self w1) = params (self w2) /\
  _maps_img (self w1) = _maps_img (self w2) /\
  displayed_maps (self w1) = displayed_maps (self w2).

(** The two worlds differ at most in what [fit] assigns last,
    [_reporting_data] and [n_elements_]. *)
Definition late_only (w1 w2 : world) : Prop :=
  heap w1 = heap w2 /\ log w1 = log w2 /\
  params (self w1) = params (self w2) /\
  _maps_img (self w1) = _maps_img (self w2) /\
  clean_kwargs_ (self w1) = clean_kwargs_ (self w2) /\
  clean_args_ (self w1) = clean_args_ (self w2) /\
  _report_content (self w1) = _report_content (self w2) /\
  maps_img_ (self w1) = maps_img_ (self w2) /\
  mask_img_ (self w1) = mask_img_ (self w2) /\
  displayed_maps (self w1) = displayed_maps (self w2).

(** The maps attribute holds an object that the heap [h0] did not have. *)
Definition own_maps (h0 : list Nifti1Image) (w : world) : Prop :=
  exists l, maps_img_ (self w) = Some (Some l) /\ length h0 <= l.

(** The mask attribute holds no object that the heap [h0] had. *)
Definition own_mask (h0 : list Nifti1Image) (w : world) : Prop :=
  forall l, mask_img_ (self w) = Some (Some l) -> length h0 <= l.

(** The masker holds a maps image, and its mask image, if it has one,
    is another object. *)
Definition two_objects (w : world) : Prop :=
  exists lm,
    maps_img_ (self w) = Some (Some lm) /\ lm < length (heap w) /\
    forall lk, mask_img_ (self w) = Some (Some lk) ->
      lk < length (heap w) /\ lk <> lm.

(** What a phase of [fit], started in [w], may have done when it ends in
    [w'] with outcome [o]: images created, or assigned into if [h0] did
    not have them; resampling by the rule; the constructor arguments
    kept; and if it raised, not the overlap error, and [n_elements_]
    kept. *)
Definition frame (h0 : list Nifti1Image) (l0 : list event) {A}
    (w : world) (o : outcome A) (w' : world) : Prop :=
  grown h0 (heap w') /\ extends resample_rule l0 (log w') /\
  params (self w') = params (self w) /\
  (forall e, o = Raised e ->
     e <> ValueError msg_overlap /\
     n_elements_ (self w') = n_elements_ (self w)).

(** The world in which [generate_report] hands over to the report
    generator: the request is stored in [displayed_maps]. *)
Definition requested (v : pyvalue) (w : world) : world :=
  mk_world (heap w) (with_displayed_maps v (self w)) (log w).

(** A request that [generate_report] accepts: "all", an integer that an
    [int64] holds, or a list or an array of such integers, the list not
    empty. *)
Definition accepted (v : pyvalue) : Prop :=
  match v with
  | PyInt k => fits_int64 k = true
  | PyList [] => False
  | PyList l | PyArray l => forallb fits_int64 l = true
  | PyStr s => s = "all"%string
  | PyOther => False
  end.

(** Assignment to the constructor arguments between two calls. *)
Definition set_params (p : Params) (w : world) : world :=
  mk_world (heap w) (with_params p (self w)) (log w).

Section Vocabulary.

Context `{Collaborators}.

(** No call of [fit] on the masker has completed: it is as [__init__]
    left it, up to assignments to its constructor arguments and calls of
    [fit] that raised. *)
Inductive never_fitted : world -> Prop :=
| never_fitted_new h p lg : never_fitted (mk_world h (__init__ p) lg)
| never_fitted_set_params w p :
    never_fitted w -> never_fitted (set_params p w)
| never_fitted_fit_raised w imgs e w' :
    never_fitted w -> fit imgs w = (Raised e, w') -> never_fitted w'.

(** The masker as the loading part of [fit], lines 394 to 442, leaves
    it: [maps_img_] and [mask_img_] hold the maps and the mask as they
    were loaded, before any resampling. *)
Definition loaded (imgs : option loc) (w : world) : NiftiMapsMasker :=
  self (snd ((fit_check_config ;; fit_load imgs) w)).

(** The composition the specification gives for [fit_transform]: call
    [fit]; if it raised, that is the result; otherwise call [transform]
    on the masker as [fit] left it. *)
Definition fit_then_transform (imgs : option loc)
    (confounds : option signals) (sample_mask : option (list nat))
    (w : world) : outcome signals * world :=
  match fit imgs w with
  | (Raised e, w1) => (Raised e, w1)
  | (Ok _, w1) => transform imgs confounds sample_mask w1
  end.

End Vocabulary.

(** *** Vocabulary of the further properties *)

(** Index [c] names one of [n] maps, counted from the start or, when
    negative, from the end. *)
Definition map_index (n : nat) (c : Z) : Prop :=
  (- Z.of_nat n <= c < Z.of_nat n)%Z.

(** The masker holds what a report of [n] maps needs: report data with a
    maps image whose last axis has length [n], the report content, and
    the background image when the data name one. *)
Definition report_ready (w : world) (n : nat) : Prop :=
  exists d l mi rc,
    _reporting_data (self w) = Some (Some d) /\ maps_image d = Some l /\
    heap w !! l = Some mi /\ last (img_shape mi) = Some n /\
    _report_content (self w) = Some rc /\
    match img d with
    | Some lb => exists bg, heap w !! lb = Some bg
    | None => True
    end.

(** What the report content says was displayed. *)
Definition reported_maps (w : world) : option (list Z) :=
  match _report_content (self w) with
  | Some rc => content_displayed_maps rc
  | None => None
  end.

(** The event is neither a resampling nor a warning. *)
Definition no_resampling (e : event) : Prop :=
  match e with
  | Resampled _ _ _ _ _ | Warned _ => False
  | _ => True
  end.


(** The event is not a resampling of the maps image. *)
Definition maps_not_resampled (e : event) : Prop :=
  match e with
  | Resampled maps_role _ _ _ _ => False
  | _ => True
  end.

(** The event is not a warning. *)
Definition no_warning (e : event) : Prop :=
  match e with
  | Warned _ => False
  | _ => True
  end.

(** Every deep copy is a copy of [src]. *)
Definition copies_only (src : option loc) (e : event) : Prop :=
  match e with
  | Touched fn x => fn = "deepcopy"%string -> x = src
  | _ => True
  end.

(** The warning the report content carries. *)
Definition reported_warning (w : world) : option string :=
  match _report_content (self w) with
  | Some rc => warning_message rc
  | None => None
  end.

(** The image with its values that are not finite set to zero. *)
Definition sanitised (i : Nifti1Image) : Nifti1Image :=
  mk_img (ensure_finite (dataobj i)) (affine i).

(** The image with its values below the machine epsilon of its data
    type set to zero; an image of integers is not changed. *)
Definition zeroed_image (i : Nifti1Image) : Nifti1Image :=
  match finfo_eps (arr_dtype (dataobj i)) with
  | Some eps => mk_img (zero_below eps (dataobj i)) (affine i)
  | None => i
  end.

Definition sanitised_if (b : bool) (i : Nifti1Image) : Nifti1Image :=
  if b then sanitised i else i.

Definition zeroed_if (b : bool) (i : Nifti1Image) : Nifti1Image :=
  if b then zeroed_image i else i.

(** Every value of the image is finite. *)
Definition finite_valued (i : Nifti1Image) : Prop :=
  Forall (Forall (fun v => isfinite v = true)) (rows (dataobj i)).

(** Image [l] is one a call of [transform] on [imgs] works on: the
    image given, or the fitted maps or mask image of the masker [s]. *)
Definition worked_on (s : NiftiMapsMasker) (imgs : option loc) (l : loc)
    : Prop :=
  imgs = Some l \/ maps_img_ s = Some (Some l)
  \/ mask_img_ s = Some (Some l).

(** A value that the overlap check of [transform] counts: positive, and
    on floating-point maps not below the machine epsilon. *)
Definition counted (dt : np_dtype) (v : voxel) : Prop :=
  match v with
  | Finite q =>
      match finfo_eps dt with
      | Some eps => (eps <= q)%Q
      | None => (0 < q)%Q
      end
  | PInf => True
  | NaN | NInf => False
  end.

(** Some voxel has a counted value in two different maps. *)
Definition two_counted (a : ndarray) : Prop :=
  exists (row : list voxel) (j k : nat) (x y : voxel),
    In row (rows a) /\ j <> k /\ row !! j = Some x /\ row !! k = Some y /\
    counted (arr_dtype a) x /\ counted (arr_dtype a) y.

(** ** A concrete setting

    Collaborators simple enough to run, and a few images. *)

Definition identity_affine : list Q :=
  [1; 0; 0; 0;  0; 1; 0; 0;  0; 0; 1; 0;  0; 0; 0; 1]%Q.

Definition shifted_affine : list Q :=
  [1; 0; 0; 0;  0; 1; 0; 0;  0; 0; 1; 1;  0; 0; 0; 1]%Q.

Definition voxel_value (v : voxel) : Q :=
  match v with Finite q => q | _ => 0%Q end.

#[export] Instance demo : Collaborators := {|
  check_params := fun _ => None;
  sanitize_cleaning_parameters := fun p => Some (clean_kwargs p);
  astype := fun d a => mk_ndarray d (shape a) (rows a);
  resample_rows := fun _ i to_shape _ =>
    Some (repeat (match rows (dataobj i) with r :: _ => r | [] => [] end)
            (fold_right Nat.mul 1%nat to_shape));
  load_mask_img := fun i => Some i;
  middle_image := fun i => i;
  filter_and_extract := fun h _ f _ _ _ _ =>
    (match functor_maps_img_ f with
     | Some l =>
         match h !! l with
         | Some i => Ok (map (map voxel_value) (rows (dataobj i)))
         | None => Raised (TypeError "Data given cannot be loaded")
         end
     | None => Raised (TypeError "input should be a NiftiLike object")
     end,
     mk_in_place true true true);
  _check_array := fun s => Ok s;
  signals_to_img_maps := fun h _ maps _ =>
    (match maps with
     | Some l =>
         match h !! l with
         | Some i => Ok i
         | None => Raised (TypeError "Data given cannot be loaded")
         end
     | None => Raised (TypeError "input should be a NiftiLike object")
     end,
     mk_in_place false true true);
  plot_component := fun _ _ => "display"%string;
  is_matplotlib_installed := true
|}.

(** Two maps on two voxels, each voxel in one map only. *)
Definition disjoint_maps : Nifti1Image :=
  mk_img (mk_ndarray float64 [1; 1; 2; 2]%nat
            [[Finite (1 # 2); Finite 0]; [Finite 0; Finite (1 # 3)]])
    identity_affine.

(** Two maps that share the first voxel. *)
Definition overlapping_maps : Nifti1Image :=
  mk_img (mk_ndarray float64 [1; 1; 2; 2]%nat
            [[Finite (1 # 2); Finite (1 # 4)]; [Finite 0; Finite (1 # 3)]])
    identity_affine.

(** Two maps with a negative weight, as a component analysis gives. *)
Definition signed_maps : Nifti1Image :=
  mk_img (mk_ndarray float64 [1; 1; 2; 2]%nat
            [[Finite (1 # 2); Finite 0]; [Finite (- 1 # 4); Finite (1 # 3)]])
    identity_affine.

(** Three maps on the same grid. *)
Definition three_maps : Nifti1Image :=
  mk_img (mk_ndarray float64 [1; 1; 2; 3]%nat
            [[Finite 1; Finite 0; Finite 0]; [Finite 0; Finite 1; Finite 0]])
    identity_affine.

(** A maps image with values that are not finite. *)
Definition unclean_maps : Nifti1Image :=
  mk_img (mk_ndarray float64 [1; 1; 2; 2]%nat
            [[NaN; Finite 0]; [PInf; Finite (1 # 3)]])
    identity_affine.

(** Five volumes on the grid of the maps, and on another grid. *)
Definition data_same_grid : Nifti1Image :=
  mk_img (mk_ndarray float64 [1; 1; 2; 5]%nat
            [[Finite 1; Finite 2; Finite 3; Finite 4; Finite 5];
             [Finite 5; Finite 4; Finite 3; Finite 2; Finite 1]])
    identity_affine.

Definition data_other_grid : Nifti1Image :=
  mk_img (mk_ndarray float64 [1; 1; 3; 5]%nat
            [[Finite 1; Finite 2; Finite 3; Finite 4; Finite 5];
             [Finite 5; Finite 4; Finite 3; Finite 2; Finite 1];
             [Finite 0; Finite 0; Finite 0; Finite 0; Finite 0]])
    shifted_affine.

(** The maps on the data grid, as the concrete resampling gives them. *)
Definition three_maps_on_data_grid : Nifti1Image :=
  mk_img (mk_ndarray float64 [1; 1; 3; 3]%nat
            [[Finite 1; Finite 0; Finite 0];
             [Finite 1; Finite 0; Finite 0];
             [Finite 1; Finite 0; Finite 0]])
    shifted_affine.

(** A mask that keeps the second voxel only. *)
Definition second_voxel_mask : Nifti1Image :=
  mk_img (mk_ndarray uint8 [1; 1; 2]%nat [[Finite 0]; [Finite 1]])
    identity_affine.

(** The constructor's defaults, around the given maps. *)
Definition default_params (maps : option loc) : Params :=
  mk_params maps None true None false true false false None None None None
    (Some "data"%string) true None 0 0 true "CMRmap_r" None [].

Definition set_allow_overlap (b : bool) (p : Params) : Params :=
  mk_params (maps_img p) (mask_img p) b (smoothing_fwhm p)
    (standardize p) (standardize_confounds p) (high_variance_confounds p)
    (detrend p) (low_pass p) (high_pass p) (t_r p) (dtype p)
    (resampling_target p)
    (keep_masked_maps p) (memory p) (memory_level p) (verbose p)
    (reports p) (cmap p) (clean_args p) (clean_kwargs p).

Definition set_resampling_target (t : option string) (p : Params) : Params :=
  mk_params (maps_img p) (mask_img p) (allow_overlap p) (smoothing_fwhm p)
    (standardize p) (standardize_confounds p) (high_variance_confounds p)
    (detrend p) (low_pass p) (high_pass p) (t_r p) (dtype p) t
    (keep_masked_maps p) (memory p) (memory_level p) (verbose p)
    (reports p) (cmap p) (clean_args p) (clean_kwargs p).

Definition set_maps_img (m : option loc) (p : Params) : Params :=
  mk_params m (mask_img p) (allow_overlap p) (smoothing_fwhm p)
    (standardize p) (standardize_confounds p) (high_variance_confounds p)
    (detrend p) (low_pass p) (high_pass p) (t_r p) (dtype p)
    (resampling_target p)
    (keep_masked_maps p) (memory p) (memory_level p) (verbose p)
    (reports p) (cmap p) (clean_args p) (clean_kwargs p).

Definition set_mask_img (m : option loc) (p : Params) : Params :=
  mk_params (maps_img p) m (allow_overlap p) (smoothing_fwhm p)
    (standardize p) (standardize_confounds p) (high_variance_confounds p)
    (detrend p) (low_pass p) (high_pass p) (t_r p) (dtype p)
    (resampling_target p)
    (keep_masked_maps p) (memory p) (memory_level p) (verbose p)
    (reports p) (cmap p) (clean_args p) (clean_kwargs p).

(** The world after a call, and its outcome. *)
Definition after {A} (m : M A) (w : world) : world := snd (m w).
Definition outcome_of {A} (m : M A) (w : world) : outcome A := fst (m w).

(** The objects the examples start from. *)
Definition demo_heap : list Nifti1Image :=
  [disjoint_maps; overlapping_maps; signed_maps; three_maps; unclean_maps;
   data_same_grid; data_other_grid; second_voxel_mask].

(** A new masker among them. *)
Definition new_masker (p : Params) : world :=
  mk_world demo_heap (__init__ p) [].

(** The masker after [fit(None)]. *)
Definition fitted (p : Params) : world := after (fit None) (new_masker p).

(** Fitted on the two disjoint maps, without resampling. *)
Definition fitted_two_maps : world :=
  fitted (set_resampling_target None (default_params (Some 0%nat))).

(** Fitted, overlap forbidden, on the maps that share a voxel. *)
Definition strict_overlapping : world :=
  fitted (set_allow_overlap false (default_params (Some 1%nat))).

(** Fitted, overlap forbidden, on the maps with a negative weight. *)
Definition strict_signed : world :=
  fitted (set_allow_overlap false (default_params (Some 2%nat))).

Definition set_reports (b : bool) (p : Params) : Params :=
  mk_params (maps_img p) (mask_img p) (allow_overlap p) (smoothing_fwhm p)
    (standardize p) (standardize_confounds p) (high_variance_confounds p)
    (detrend p) (low_pass p) (high_pass p) (t_r p) (dtype p)
    (resampling_target p)
    (keep_masked_maps p) (memory p) (memory_level p) (verbose p)
    b (cmap p) (clean_args p) (clean_kwargs p).

(** A new masker on the two disjoint maps, with the defaults. *)
Definition new_default : world := new_masker (default_params (Some 0%nat)).

(** The same after [fit()]. *)
Definition fitted_default : world := after (fit None) new_default.

(** The signals the concrete extraction gives on the two disjoint maps. *)
Definition disjoint_signals : signals := [[1 # 2; 0]; [0; 1 # 3]]%Q.

(** The world after a series of calls of [transform], whatever each of
    them returned or raised. *)
Definition after_transforms `{Collaborators}
    (calls : list (option loc * option signals * option (list nat)))
    (w : world) : world :=
  fold_left
    (fun w c => after (transform (fst (fst c)) (snd (fst c)) (snd c)) w)
    calls w.

(** * Properties *)

(** ** Running a method symbolically *)

Lemma wp_ret {A} (a : A) Q w : Q (Ok a) w -> wp (ret a) Q w.
Proof. exact id. Qed.

Lemma wp_raise {A} e (Q : outcome A -> world -> Prop) w :
  Q (Raised e) w -> wp (raise e) Q w.
Proof. exact id. Qed.

Lemma wp_bind {A B} (m : M A) (k : A -> M B) Q w :
  wp m (fun o w' =>
          match o with
          | Ok a => wp (k a) Q w'
          | Raised e => Q (Raised e) w'
          end) w ->
  wp (bind m k) Q w.
Proof. unfold wp, bind. destruct (m w) as [[a|e] w']; exact id. Qed.

Lemma bind_ok {A B} (m : M A) (k : A -> M B) w a w' :
  m w = (Ok a, w') -> bind m k w = k a w'.
Proof. intros E. unfold bind. rewrite E. reflexivity. Qed.

Lemma bind_raised {A B} (m : M A) (k : A -> M B) w e w' :
  m w = (Raised e, w') -> bind m k w = (Raised e, w').
Proof. intros E. unfold bind. rewrite E. reflexivity. Qed.

Lemma wp_get_self Q w : Q (Ok (self w)) w -> wp get_self Q w.
Proof. exact id. Qed.

Lemma wp_set_self f Q w :
  Q (Ok tt) (mk_world (heap w) (f (self w)) (log w)) -> wp (set_self f) Q w.
Proof. exact id. Qed.

Lemma wp_emit e Q w :
  Q (Ok tt) (mk_world (heap w) (self w) (e :: log w)) -> wp (emit e) Q w.
Proof. exact id. Qed.

Lemma wp_alloc i Q w :
  Q (Ok (length (heap w))) (mk_world (heap w ++ [i]) (self w) (log w)) ->
  wp (alloc i) Q w.
Proof. exact id. Qed.

Lemma wp_peek l Q w : Q (Ok (heap w !! l)) w -> wp (peek l) Q w.
Proof. exact id. Qed.

Lemma wp_poke l i Q w :
  Q (Ok tt) (mk_world (<[l := i]> (heap w)) (self w) (log w)) ->
  wp (poke l i) Q w.
Proof. exact id. Qed.

Lemma wp_pure {A} (f : world -> outcome A) Q w :
  Q (f w) w -> wp (fun w => (f w, w)) Q w.
Proof. exact id. Qed.

Lemma wp_mono {A} (m : M A) (Q Q' : outcome A -> world -> Prop) w :
  wp m Q w -> (forall o w', Q o w' -> Q' o w') -> wp m Q' w.
Proof. unfold wp. auto. Qed.

Lemma wp_conj {A} (m : M A) (Q1 Q2 : outcome A -> world -> Prop) w :
  wp m Q1 w -> wp m Q2 w -> wp m (fun o w' => Q1 o w' /\ Q2 o w') w.
Proof. unfold wp. auto. Qed.

Lemma wp_run {A} (m : M A) Q w o w' : wp m Q w -> m w = (o, w') -> Q o w'.
Proof. unfold wp. intros HQ E. rewrite E in HQ. exact HQ. Qed.

Lemma wp_intro {A} (m : M A) (Q : outcome A -> world -> Prop) w :
  (forall o w', m w = (o, w') -> Q o w') -> wp m Q w.
Proof. unfold wp. intros HQ. apply HQ. destruct (m w); reflexivity. Qed.

Lemma wp_deref_all l (Q : outcome (list Nifti1Image) -> world -> Prop) w :
  (forall a, Q (Ok a) w) -> (forall m, Q (Raised (AttributeError m)) w) ->
  wp (deref_all l) Q w.
Proof.
  intros HOk HErr. revert Q HOk HErr.
  induction l as [|x l IH]; intros Q HOk HErr; [apply HOk|].
  cbn [deref_all]. apply wp_bind.
  destruct x as [lx|]; [|apply HErr].
  unfold deref. apply wp_bind. apply wp_peek.
  destruct (heap w !! lx); [|apply HErr].
  apply wp_ret. apply wp_bind. apply IH; [|apply HErr].
  intros a. apply wp_ret, HOk.
Qed.

Ltac wp_simpl :=
  cbn beta iota zeta delta
    [heap self log fst snd
     params _maps_img clean_kwargs_ clean_args_ _report_content maps_img_
     mask_img_ _reporting_data n_elements_ displayed_maps
     with_clean_kwargs_ with_clean_args_ with_report_content with_maps_img_
     with_mask_img_ with_reporting_data with_n_elements_ with_displayed_maps].

(** Case analysis on what the code branches on; a test already decided
    on this path is not decided again. *)
Ltac wp_case c :=
  match goal with
  | E : c = _ |- _ => rewrite E
  | _ => let E := fresh "E" in destruct c eqn:E
  end.

Ltac wp_step :=
  lazymatch goal with
  | |- wp (bind _ _) _ _ => apply wp_bind
  | |- wp (ret _) _ _ => apply wp_ret
  | |- wp (raise _) _ _ => apply wp_raise
  | |- wp get_self _ _ => apply wp_get_self
  | |- wp (set_self _) _ _ => apply wp_set_self
  | |- wp (emit _) _ _ => apply wp_emit
  | |- wp (alloc _) _ _ => apply wp_alloc
  | |- wp (peek _) _ _ => apply wp_peek
  | |- wp (poke _ _) _ _ => apply wp_poke
  | |- wp (fun w => (_, w)) _ _ => apply wp_pure
  | |- wp (match ?c with _ => _ end) _ _ => wp_case c
  | |- wp (let x := _ in _) _ _ => cbv zeta
  | |- wp (deref_all _) _ _ => apply wp_deref_all; intros ?
  | |- wp (deref _) _ _ => unfold deref
  | |- wp (getattr _ _) _ _ => unfold getattr
  | |- wp (get_data _) _ _ => unfold get_data
  | |- wp check_is_fitted _ _ => unfold check_is_fitted
  end.

Ltac wp_go := repeat (wp_step; wp_simpl).

(** The same on a path that the hypotheses single out: a test is decided
    by a hypothesis when one speaks of it. *)
Ltac wp_case_known c :=
  first
    [ match goal with E : c = _ |- _ => rewrite E end
    | match goal with
      | E : ?x = _ |- _ =>
          match c with context [x] => rewrite E; cbn [negb andb orb] end
      end
    | let E := fresh "E" in destruct c eqn:E ].

Ltac wp_step_known :=
  lazymatch goal with
  | |- wp (deref_all ?l) _ _ =>
      first
        [ match l with
          | context [match ?c with _ => _ end] =>
              let E := fresh "E" in destruct c eqn:E
          end
        | cbn [deref_all app] ]
  | |- wp (match ?c with _ => _ end) _ _ => wp_case_known c
  | _ => wp_step
  end.

Ltac wp_go_known :=
  repeat (wp_step_known; wp_simpl; cbn [app all_same_fov forallb andb]).

(** ** Heaps and logs *)

Lemma grown_length h0 h : grown h0 h -> length h0 <= length h.
Proof.
  induction 1 as [|h i _ IH|h l i _ IH _]; [lia | |].
  - rewrite length_app. simpl. lia.
  - rewrite length_insert. exact IH.
Qed.

Lemma grown_lookup h0 h l :
  grown h0 h -> l < length h0 -> h !! l = h0 !! l.
Proof.
  induction 1 as [|h i G IH|h l' i G IH Hl]; intros Hlt; [reflexivity | |].
  - rewrite lookup_app_l; [auto|]. apply grown_length in G. lia.
  - rewrite list_lookup_insert_ne; [auto|lia].
Qed.

Lemma grown_trans h0 h1 h2 : grown h0 h1 -> grown h1 h2 -> grown h0 h2.
Proof.
  intros G1 G2. induction G2 as [|h i _ IH|h l i _ IH Hl]; [assumption | |].
  - apply grown_alloc, IH.
  - apply grown_poke; [exact IH|]. apply grown_length in G1. lia.
Qed.

Lemma extends_app P l0 l :
  extends P l0 l -> exists new, l = new ++ l0 /\ Forall P new.
Proof.
  induction 1 as [|e l He _ [new [-> Hnew]]].
  - exists []. split; [reflexivity|constructor].
  - exists (e :: new). split; [reflexivity|constructor; assumption].
Qed.

Lemma extends_trans P l0 l1 l2 :
  extends P l0 l1 -> extends P l1 l2 -> extends P l0 l2.
Proof.
  intros E1 E2. induction E2; [assumption|constructor; assumption].
Qed.

Lemma lookup_new (h : list Nifti1Image) i : (h ++ [i]) !! length h = Some i.
Proof. apply list_lookup_middle. reflexivity. Qed.

(** What is left to show at the end of a path. *)
Ltac grown_tac :=
  repeat first
    [ assumption | apply grown_refl | apply grown_alloc | apply grown_poke ];
  try (repeat (rewrite length_app || rewrite length_insert); simpl;
       repeat match goal with
              | G : grown _ _ |- _ => apply grown_length in G
              end;
       lia).

Ltac extends_tac :=
  repeat first
    [ assumption
    | apply extends_refl
    | apply extends_cons;
      [first [ exact I | reflexivity
             | split; [first [exact I | reflexivity] | exact I] ]|] ].

Ltac leaf :=
  repeat match goal with |- _ /\ _ => split end;
  first
    [ reflexivity
    | assumption
    | solve [grown_tac]
    | solve [extends_tac]
    | solve [intros; discriminate]
    | solve [intros ? [= <-]; unfold msg_overlap, msg_invalid_target, msg_no_mask, msg_fov; discriminate]
    | solve [intros ? [= <-]; eexists; split; [reflexivity|grown_tac]]
    | idtac ].

Section FitFrame.

Context `{Collaborators}.

Lemma fit_check_config_frame w :
  wp fit_check_config (fun o w' => w' = w /\
     forall e, o = Raised e -> e <> ValueError msg_overlap) w.
Proof.
  unfold fit_check_config. wp_go; leaf.
Qed.

Lemma fit_load_frame imgs h0 l0 w :
  grown h0 (heap w) -> extends resample_rule l0 (log w) ->
  wp (fit_load imgs) (fun o w' =>
     frame h0 l0 w o w' /\
     n_elements_ (self w') = n_elements_ (self w) /\
     forall a, o = Ok a -> own_maps h0 w') w.
Proof.
  intros G E. unfold frame, own_maps.
  unfold fit_load, deepcopy, check_niimg, clean_img, _load_mask.
  wp_go; leaf.
  all: try (intros ? [= <-]; split; [discriminate|reflexivity]).
Qed.

Lemma fit_align_frame imgs imgs_ h0 l0 w :
  grown h0 (heap w) -> extends resample_rule l0 (log w) -> own_maps h0 w ->
  wp (fit_align imgs imgs_) (fun o w' =>
     frame h0 l0 w o w' /\
     n_elements_ (self w') = n_elements_ (self w) /\
     forall a, o = Ok a -> own_maps h0 w') w.
Proof.
  intros G E [lm [Em Hm]]. unfold frame, own_maps.
  unfold fit_align, check_same_fov_raise, check_same_fov, resample_img.
  wp_go; leaf.
  all: try (intros ? [= <-]; split; [discriminate|reflexivity]).
  all: try (intros ? [= <-]; eexists; split; [eassumption|assumption]).
Qed.

Lemma fit_finish_frame imgs h0 l0 w :
  grown h0 (heap w) -> extends resample_rule l0 (log w) -> own_maps h0 w ->
  wp (fit_finish imgs) (fun o w' =>
     frame h0 l0 w o w' /\
     forall a, o = Ok a -> own_maps h0 w') w.
Proof.
  intros G E [lm [Em Hm]]. unfold frame, own_maps.
  unfold fit_finish, compute_middle_image.
  wp_go; leaf.
  all: try (intros ? [= <-]; split; [discriminate|reflexivity]).
  all: try (intros ? [= <-]; eexists; split; [eassumption|assumption]).
Qed.

(** What [fit] does to the world, whatever its outcome. *)
Lemma fit_frame imgs w :
  wp (fit imgs) (fun o w' =>
     frame (heap w) (log w) w o w' /\
     forall a, o = Ok a -> own_maps (heap w) w') w.
Proof.
  unfold fit. apply wp_bind.
  eapply wp_mono; [apply fit_check_config_frame|].
  intros o w1 [-> Hcfg]. destruct o as [[]|e].
  2:{ split; [|intros ? [=]].
      split; [constructor|]. split; [constructor|]. split; [reflexivity|].
      intros e' [= <-]. split; [apply Hcfg|]; reflexivity. }
  apply wp_bind.
  eapply wp_mono; [apply fit_load_frame; constructor|].
  intros o w1 [[G1 [E1 [P1 R1]]] [N1 O1]]. destruct o as [imgs_|e].
  2:{ split; [|intros ? [=]].
      split; [assumption|]. split; [exact E1|]. split; [assumption|].
      intros e' [= <-]. apply (R1 e eq_refl). }
  specialize (O1 _ eq_refl).
  apply wp_bind.
  eapply wp_mono; [apply fit_align_frame; [eassumption..]|].
  intros o w2 [[G2 [E2 [P2 R2]]] [N2 O2]]. destruct o as [[]|e].
  2:{ split; [|intros ? [=]].
      split; [assumption|]. split; [assumption|]. split; [congruence|].
      intros e' [= <-]. destruct (R2 e eq_refl). split; congruence. }
  specialize (O2 _ eq_refl).
  eapply wp_mono; [apply fit_finish_frame; [eassumption..]|].
  intros o w3 [[G3 [E3 [P3 R3]]] O3].
  split; [|assumption].
  split; [assumption|]. split; [assumption|]. split; [congruence|].
  intros e ->. destruct (R3 e eq_refl). split; congruence.
Qed.

End FitFrame.

Section TransformFrame.

Context `{Collaborators}.

Lemma transform_align_frame imgs w :
  wp (transform_align imgs) (fun o w' =>
     self w' = self w /\ grown (heap w) (heap w') /\
     extends (fun e => resample_rule e /\ not_extraction e) (log w) (log w')) w.
Proof.
  unfold transform_align, check_niimg, check_same_fov_raise, check_same_fov,
    resample_img.
  wp_go; leaf.
Qed.

Lemma check_overlap_frame x w :
  wp (check_overlap x) (fun o w' =>
     self w' = self w /\ log w' = log w /\
     (allow_overlap (params (self w)) = true -> o = Ok tt /\ w' = w)) w.
Proof.
  unfold check_overlap.
  wp_go; leaf.
  all: intros Ha; try (rewrite Ha in E; discriminate).
  split; reflexivity.
Qed.

(** Sanitising an image writes into that image only. *)
Lemma sanitise_frame x w :
  wp (sanitise x) (fun o w' =>
     o = Ok tt /\ self w' = self w /\ log w' = log w /\
     length (heap w') = length (heap w) /\
     forall l, Some l <> x -> heap w' !! l = heap w !! l) w.
Proof.
  unfold sanitise. wp_go; leaf.
  all: first
    [ apply length_insert
    | intros l Hl;
      first [apply list_lookup_insert_ne; congruence | reflexivity] ].
Qed.

Lemma wp_sanitise_if (b : bool) x w :
  wp (if b then sanitise x else ret tt) (fun o w' =>
     o = Ok tt /\ self w' = self w /\ log w' = log w /\
     length (heap w') = length (heap w) /\
     forall l, Some l <> x -> heap w' !! l = heap w !! l) w.
Proof.
  destruct b; [apply sanitise_frame|]. apply wp_ret. leaf; auto.
Qed.

(** What a call into the extraction leaves: its own outcome, the masker
    and the log as they were, and writes into the three images at most. *)
Lemma in_place_then_frame {A} (r : outcome A * in_place) imgs x y w :
  wp (in_place_then r imgs x y) (fun o w' =>
     o = fst r /\ self w' = self w /\ log w' = log w /\
     length (heap w') = length (heap w) /\
     forall l, Some l <> imgs -> Some l <> x -> Some l <> y ->
       heap w' !! l = heap w !! l) w.
Proof.
  unfold in_place_then. apply wp_bind.
  eapply wp_mono; [apply wp_sanitise_if|].
  intros o w1 (-> & S1 & L1 & N1 & H1). apply wp_bind.
  eapply wp_mono; [apply wp_sanitise_if|].
  intros o w2 (-> & S2 & L2 & N2 & H2). apply wp_bind.
  eapply wp_mono; [apply wp_sanitise_if|].
  intros o w3 (-> & S3 & L3 & N3 & H3). apply wp_pure.
  repeat split; try congruence.
  intros l Hi Hx Hy. rewrite H3, H2, H1 by assumption. reflexivity.
Qed.

Lemma wp_in_place_then {A} (f : world -> outcome A * in_place) imgs x y
    (Q : outcome A -> world -> Prop) w :
  wp (in_place_then (f w) imgs x y) Q w ->
  wp (fun w0 => in_place_then (f w0) imgs x y w0) Q w.
Proof. exact id. Qed.

(** The extraction keeps the masker and writes at most into the three
    images it is handed. *)
Lemma transform_extract_frame imgs x y c sm w :
  wp (transform_extract imgs x y c sm) (fun o w' =>
     self w' = self w /\ length (heap w') = length (heap w) /\
     (forall l, Some l <> imgs -> Some l <> x -> Some l <> y ->
        heap w' !! l = heap w !! l) /\
     extends resample_rule (log w) (log w')) w.
Proof.
  unfold transform_extract.
  wp_go.
  all: try (leaf; try (intros; reflexivity); fail).
  all: apply wp_in_place_then with
         (f := fun w0 => filter_and_extract (heap w0) _ _ _ _ _ _);
    eapply wp_mono; [apply in_place_then_frame|];
    cbn beta; intros o w' (_ & S' & L' & N' & H');
    cbn [heap self log] in *; rewrite L'; leaf; assumption.
Qed.

Lemma extends_weaken (P P' : event -> Prop) l0 l :
  (forall e, P e -> P' e) -> extends P l0 l -> extends P' l0 l.
Proof. intros HP. induction 1; constructor; auto. Qed.

Lemma check_overlap_length x w :
  wp (check_overlap x) (fun o w' => length (heap w') = length (heap w)) w.
Proof.
  unfold check_overlap.
  wp_go; try reflexivity; apply length_insert.
Qed.

(** What [transform_single_imgs] does to the world, whatever its
    outcome: the masker keeps every attribute, every resampling follows
    the rule, and no image object goes away. *)
Lemma transform_frame imgs c sm w :
  wp (transform_single_imgs imgs c sm) (fun o w' =>
     self w' = self w /\ extends resample_rule (log w) (log w') /\
     length (heap w) <= length (heap w')) w.
Proof.
  unfold transform_single_imgs. apply wp_bind.
  unfold check_is_fitted. wp_go.
  2:{ split; [reflexivity|]. split; constructor. }
  eapply wp_mono; [apply transform_align_frame|].
  intros o w1 [S1 [G1 E1]].
  apply (extends_weaken _ resample_rule) in E1; [|intros e He; apply He].
  destruct o as [[mask1 maps1]|e];
    [|apply grown_length in G1; auto].
  wp_simpl. apply wp_bind.
  eapply wp_mono;
    [apply wp_conj; [apply check_overlap_frame|apply check_overlap_length]|].
  intros o w2 [[S2 [L2 A2]] N2].
  apply grown_length in G1.
  destruct o as [[]|e].
  2:{ split; [congruence|]. split; [rewrite L2; exact E1|lia]. }
  eapply wp_mono; [apply transform_extract_frame|].
  intros o w3 (S3 & N3 & H3 & E3).
  split; [congruence|]. split.
  - eapply extends_trans; [exact E1|]. rewrite <- L2. exact E3.
  - lia.
Qed.

End TransformFrame.

(** ** The claims *)

Section Claims.

Context `{Collaborators}.

(** C4.  A masker whose [resampling_target] is ["mask"] while no mask was
    given, or whose [resampling_target] is none of ["data"], ["mask"],
    ["maps"], [None], makes [fit] raise at once: the world is exactly as
    it was, so no image was loaded, copied or read.  The exception is the
    [ValueError] of the configuration check, unless [check_params] had
    already refused the arguments with its [TypeError]. *)
Theorem fit_rejects_bad_configuration_eagerly (imgs : option loc) (w : world) :
  (target_is (resampling_target (params (self w))) "mask" = true /\ mask_img (params (self w)) = None)
  \/ resampling_target_valid (resampling_target (params (self w))) = false ->
  exists e,
    fit imgs w = (Raised e, w) /\
    match check_params (params (self w)) with
    | Some msg => e = TypeError msg
    | None => exists msg, e = ValueError msg
    end.
Proof.
  intros Hbad.
  assert (Hc : exists e,
             fit_check_config w = (Raised e, w) /\
             match check_params (params (self w)) with
             | Some msg => e = TypeError msg
             | None => exists msg, e = ValueError msg
             end).
  { unfold fit_check_config, bind, get_self, raise, ret. cbv beta iota.
    destruct (check_params (params (self w))) as [msg|].
    { exists (TypeError msg). split; reflexivity. }
    destruct (resampling_target_valid (resampling_target (params (self w)))) eqn:Hv; cbn [negb].
    - destruct Hbad as [[Hm Hn]|]; [|discriminate].
      rewrite Hn, Hm. eexists. split; [reflexivity|]. eexists. reflexivity.
    - eexists. split; [reflexivity|]. eexists. reflexivity. }
  destruct Hc as [e [Hc He]]. exists e. split; [|exact He].
  unfold fit, bind. rewrite Hc. reflexivity.
Qed.

Lemma never_fitted_n_elements w : never_fitted w -> n_elements_ (self w) = None.
Proof.
  induction 1 as [h p lg|w p _ IH|w imgs e w' _ IH Hfit]; [reflexivity|exact IH|].
  pose proof (wp_run _ _ _ _ _ (fit_frame imgs w) Hfit) as [[_ [_ [_ Hr]]] _].
  destruct (Hr e eq_refl) as [_ ->]. exact IH.
Qed.

(** C6.  On a masker on which no [fit] has completed, [transform] and
    [inverse_transform] raise [NotFittedError] and leave the world as it
    was: nothing was computed on the input. *)
Theorem unfitted_masker_raises_not_fitted (w : world) (imgs : option loc)
    (confounds : option signals) (sample_mask : option (list nat))
    (region_signals : signals) :
  never_fitted w ->
  transform imgs confounds sample_mask w
    = (Raised (NotFittedError msg_not_fitted), w)
  /\ inverse_transform region_signals w
    = (Raised (NotFittedError msg_not_fitted), w).
Proof.
  intros Hn. apply never_fitted_n_elements in Hn.
  assert (Hc : check_is_fitted w = (Raised (NotFittedError msg_not_fitted), w)).
  { unfold check_is_fitted, bind, get_self, __sklearn_is_fitted__.
    cbv beta iota. rewrite Hn. destruct (maps_img_ (self w)); reflexivity. }
  unfold transform, transform_single_imgs, inverse_transform, bind.
  rewrite Hc. split; reflexivity.
Qed.

(** The events a path has added all follow [resampled_by_image]. *)
Ltac by_image_tac :=
  repeat first
    [ apply extends_refl
    | apply extends_cons;
      [first [ exact I
             | left; split; [eassumption|split; reflexivity]
             | right; split; [eassumption|split; reflexivity] ]|] ].

Lemma fit_load_by_image s imgs w :
  wp (fit_load imgs) (fun _ w' =>
     extends (resampled_by_image s) (log w) (log w')) w.
Proof.
  unfold fit_load, deepcopy, check_niimg, clean_img, _load_mask.
  wp_go; by_image_tac.
Qed.

(** The alignment of [fit] resamples the maps image the masker holds
    with [linear] and the mask image it holds with [nearest]. *)
Lemma fit_align_by_image imgs imgs_ w :
  wp (fit_align imgs imgs_) (fun _ w' =>
     extends (resampled_by_image (self w)) (log w) (log w')) w.
Proof.
  unfold fit_align, check_same_fov_raise, check_same_fov, resample_img.
  wp_go; by_image_tac.
Qed.

Lemma fit_finish_by_image s imgs w :
  wp (fit_finish imgs) (fun _ w' =>
     extends (resampled_by_image s) (log w) (log w')) w.
Proof.
  unfold fit_finish, compute_middle_image.
  wp_go; by_image_tac.
Qed.

Lemma fit_by_image imgs w :
  wp (fit imgs) (fun _ w' =>
     extends (resampled_by_image (loaded imgs w)) (log w) (log w')) w.
Proof.
  unfold wp, loaded, fit.
  pose proof (fit_check_config_frame w) as Hc. unfold wp in Hc.
  destruct (fit_check_config w) as [[[]|e] w0] eqn:Ec; cbn [fst snd] in Hc;
    destruct Hc as [-> _].
  2:{ rewrite !(bind_raised _ _ _ _ _ Ec). constructor. }
  rewrite !(bind_ok _ _ _ _ _ Ec).
  pose proof (fit_load_by_image (self (snd (fit_load imgs w))) imgs w) as Hl.
  unfold wp in Hl.
  destruct (fit_load imgs w) as [[imgs_|e] w1] eqn:El; cbn [fst snd] in *.
  2:{ rewrite (bind_raised _ _ _ _ _ El). exact Hl. }
  rewrite (bind_ok _ _ _ _ _ El).
  pose proof (fit_align_by_image imgs imgs_ w1) as Ha. unfold wp in Ha.
  destruct (fit_align imgs imgs_ w1) as [[[]|e] w2] eqn:Ea;
    cbn [fst snd] in *.
  2:{ rewrite (bind_raised _ _ _ _ _ Ea).
      exact (extends_trans _ _ _ _ Hl Ha). }
  rewrite (bind_ok _ _ _ _ _ Ea).
  pose proof (fit_finish_by_image (self w1) imgs w2) as Hf. unfold wp in Hf.
  exact (extends_trans _ _ _ _ (extends_trans _ _ _ _ Hl Ha) Hf).
Qed.

(** The alignment of [transform] resamples the fitted maps image with
    [linear] and the fitted mask image with [nearest]. *)
Lemma transform_align_by_image imgs w :
  wp (transform_align imgs) (fun _ w' =>
     self w' = self w
     /\ extends (resampled_by_image (self w)) (log w) (log w')) w.
Proof.
  unfold transform_align, check_niimg, check_same_fov_raise, check_same_fov,
    resample_img.
  wp_go; (split; [reflexivity|]); by_image_tac.
Qed.

Lemma transform_extract_by_image s imgs x y c sm w :
  wp (transform_extract imgs x y c sm) (fun _ w' =>
     extends (resampled_by_image s) (log w) (log w')) w.
Proof.
  unfold transform_extract.
  wp_go.
  all: try (by_image_tac; fail).
  all: apply wp_in_place_then with
         (f := fun w0 => filter_and_extract (heap w0) _ _ _ _ _ _);
    eapply wp_mono; [apply in_place_then_frame|];
    cbn beta; intros o w' (_ & _ & L' & _);
    cbn [heap self log] in *; rewrite L'; by_image_tac.
Qed.

Lemma transform_by_image imgs c sm w :
  wp (transform_single_imgs imgs c sm) (fun _ w' =>
     extends (resampled_by_image (self w)) (log w) (log w')) w.
Proof.
  unfold transform_single_imgs. apply wp_bind.
  unfold check_is_fitted. wp_go; [|constructor].
  eapply wp_mono; [apply transform_align_by_image|].
  intros o w1 [S1 E1]. destruct o as [[mask1 maps1]|e]; [|exact E1].
  wp_simpl. apply wp_bind.
  eapply wp_mono; [apply check_overlap_frame|].
  intros o w2 [S2 [L2 _]]. rewrite <- L2 in E1.
  destruct o as [[]|e]; [|exact E1].
  eapply wp_mono; [apply transform_extract_by_image|].
  intros o w3 E3. exact (extends_trans _ _ _ _ E1 E3).
Qed.

Ltac lengths :=
  repeat (rewrite length_app || rewrite length_insert); simpl.

(** The maps and the mask that [fit] loads are two objects. *)
Lemma fit_load_two_objects imgs w :
  wp (fit_load imgs) (fun o w' => forall a, o = Ok a -> two_objects w') w.
Proof.
  unfold two_objects.
  unfold fit_load, deepcopy, check_niimg, clean_img, _load_mask.
  wp_go; try (intros; discriminate).
  all: intros ? _; eexists; split; [reflexivity|].
  all: split; [lengths; lia|].
  all: let Hk := fresh "Hk" in
       intros ? Hk; cbn in Hk;
       first [discriminate Hk | injection Hk as <-; lengths; lia].
Qed.

Lemma fit_align_two_objects imgs imgs_ w :
  two_objects w ->
  wp (fit_align imgs imgs_) (fun o w' =>
     forall a, o = Ok a -> two_objects w') w.
Proof.
  intros (lm & Hm & Hlt & Hk). unfold two_objects.
  unfold fit_align, check_same_fov_raise, check_same_fov, resample_img.
  wp_go; try (intros; discriminate).
  all: intros ? _; eexists; split; [first [reflexivity|eassumption]|].
  all: split; [lengths; lia|].
  all: let Hk' := fresh "Hk" in
       intros ? Hk'; cbn in Hk';
       first
         [ discriminate Hk'
         | injection Hk' as <-; lengths; lia
         | match goal with
           | |- ?lk < _ /\ _ =>
               destruct (Hk lk) as [? ?]; [congruence|]; lengths; lia
           end ].
Qed.

Lemma fit_finish_two_objects imgs w :
  two_objects w ->
  wp (fit_finish imgs) (fun o w' => two_objects w') w.
Proof.
  intros (lm & Hm & Hlt & Hk). unfold two_objects.
  unfold fit_finish, compute_middle_image.
  wp_go.
  all: exists lm; split; [assumption|]; split; [lengths; lia|].
  all: intros lk Hlk; destruct (Hk lk) as [? ?]; [congruence|];
    split; [lengths; lia|assumption].
Qed.

(** The fitted maps image and the fitted mask image are two objects. *)
Lemma fit_two_objects imgs w w' :
  fit imgs w = (Ok tt, w') -> two_objects w'.
Proof.
  unfold fit. intros Hfit.
  destruct (fit_check_config w) as [[[]|e] w0] eqn:Ec;
    [rewrite (bind_ok _ _ _ _ _ Ec) in Hfit
    |rewrite (bind_raised _ _ _ _ _ Ec) in Hfit; discriminate].
  destruct (fit_load imgs w0) as [[imgs_|e] w1] eqn:El;
    [rewrite (bind_ok _ _ _ _ _ El) in Hfit
    |rewrite (bind_raised _ _ _ _ _ El) in Hfit; discriminate].
  destruct (fit_align imgs imgs_ w1) as [[[]|e] w2] eqn:Ea;
    [rewrite (bind_ok _ _ _ _ _ Ea) in Hfit
    |rewrite (bind_raised _ _ _ _ _ Ea) in Hfit; discriminate].
  pose proof (wp_run _ _ _ _ _ (fit_load_two_objects imgs w0) El _ eq_refl)
    as T1.
  pose proof (wp_run _ _ _ _ _ (fit_align_two_objects imgs imgs_ w1 T1) Ea
                _ eq_refl) as T2.
  exact (wp_run _ _ _ _ _ (fit_finish_two_objects imgs w2 T2) Hfit).
Qed.

Lemma two_objects_differ w :
  two_objects w -> maps_img_ (self w) <> mask_img_ (self w).
Proof.
  intros (lm & Hm & _ & Hk) E. rewrite Hm in E. symmetry in E.
  destruct (Hk lm E) as [_ Hne]. exact (Hne eq_refl).
Qed.

(** C5.  Every call of [resample_img] that [fit] or [transform] makes
    is on the maps image, with [linear], or on the mask image, with
    [nearest], whatever the resampling target and the grids.  For
    [fit], the maps and the mask image are the ones the masker holds
    once they are loaded, [loaded imgs w]; for [transform], the ones the
    fitted masker holds.  Each event is told by the image that was
    passed to [resample_img], and by the role recorded with it.  The
    two cases exclude each other: the maps and the mask that [fit]
    loads, and those a [fit] that returned leaves in the masker, are
    different objects. *)
Theorem resampling_interpolation_by_image (imgs : option loc)
    (confounds : option signals) (sample_mask : option (list nat))
    (w : world) :
  (exists new,
     log (after (fit imgs) w) = new ++ log w
     /\ Forall (resampled_by_image (loaded imgs w)) new)
  /\ (exists new,
        log (after (transform imgs confounds sample_mask) w) = new ++ log w
        /\ Forall (resampled_by_image (self w)) new)
  /\ (forall imgs_ w1,
        (fit_check_config ;; fit_load imgs) w = (Ok imgs_, w1) ->
        maps_img_ (loaded imgs w) <> mask_img_ (loaded imgs w))
  /\ (forall imgs0 w0,
        fit imgs0 w0 = (Ok tt, w) ->
        maps_img_ (self w) <> mask_img_ (self w)).
Proof.
  split; [|split; [|split]].
  - apply extends_app. exact (fit_by_image imgs w).
  - apply extends_app.
    exact (transform_by_image imgs confounds sample_mask w).
  - intros imgs_ w1 Hload. unfold loaded. rewrite Hload. cbn [snd].
    apply two_objects_differ.
    destruct (fit_check_config w) as [[[]|e] w0] eqn:Ec;
      [rewrite (bind_ok _ _ _ _ _ Ec) in Hload
      |rewrite (bind_raised _ _ _ _ _ Ec) in Hload; discriminate].
    exact (wp_run _ _ _ _ _ (fit_load_two_objects imgs w0) Hload _ eq_refl).
  - intros imgs0 w0 Hfit. apply two_objects_differ.
    exact (fit_two_objects imgs0 w0 w Hfit).
Qed.

(** C7.  [fit_transform] is the sequential composition: its outcome, and
    the world it leaves, are those of [fit] followed, when [fit]
    returned, by [transform] on the masker [fit] left. *)
Theorem fit_transform_is_fit_then_transform (imgs : option loc)
    (confounds : option signals) (sample_mask : option (list nat))
    (w : world) :
  fit_transform imgs confounds sample_mask w
  = fit_then_transform imgs confounds sample_mask w.
Proof.
  unfold fit_transform, fit_then_transform, bind.
  destruct (fit imgs w) as [[[]|e] w1]; reflexivity.
Qed.

(** C9.  [fit] leaves the image object the caller gave as [maps_img]
    exactly as it was, whatever [fit]'s outcome; when [fit] returns, the
    fitted [maps_img_] is another object, created during the call. *)
Theorem fit_keeps_caller_maps (imgs : option loc) (w : world) (l : loc)
    (i : Nifti1Image) :
  maps_img (params (self w)) = Some l ->
  heap w !! l = Some i ->
  heap (after (fit imgs) w) !! l = Some i
  /\ (outcome_of (fit imgs) w = Ok tt ->
      exists l', maps_img_ (self (after (fit imgs) w)) = Some (Some l')
                 /\ l' <> l).
Proof.
  intros _ Hl.
  pose proof (fit_frame imgs w) as [[G _] Hown].
  assert (Hlt : l < length (heap w)) by (eapply lookup_lt_Some; exact Hl).
  split.
  - unfold after. etrans; [apply (grown_lookup _ _ _ G Hlt)|exact Hl].
  - unfold outcome_of, after. intros Hok.
    destruct (Hown _ Hok) as [l' [Hm Hge]].
    exists l'. split; [exact Hm|lia].
Qed.

End Claims.

Section Completes.

Context `{Collaborators}.

Lemma ensure_float_shape (a : ndarray) : shape (ensure_float a) = shape a.
Proof.
  unfold ensure_float. destruct (String.eqb (kind (arr_dtype a)) "f");
    reflexivity.
Qed.

Lemma conform_4d (a : ndarray) :
  length (shape a) = 4 -> conform None true a = None.
Proof. intros Hs. unfold conform. rewrite Hs. reflexivity. Qed.

(** With a configuration that passes the checks, no mask and no image
    given to [fit], a 4D maps image is all [fit] needs to return. *)
Lemma fit_completes w l i kw :
  check_params (params (self w)) = None ->
  sanitize_cleaning_parameters (params (self w)) = Some kw ->
  resampling_target_valid (resampling_target (params (self w))) = true ->
  mask_img (params (self w)) = None ->
  target_is (resampling_target (params (self w))) "mask" = false ->
  dtype (params (self w)) = None ->
  _maps_img (self w) = None ->
  maps_img (params (self w)) = Some l ->
  heap w !! l = Some i ->
  length (img_shape i) = 4 ->
  wp (fit None)
    (fun o w' => o = Ok tt /\ __sklearn_is_fitted__ (self w') = true) w.
Proof.
  intros Hcp Hs Hv Hmask Hm Hdt Hm' Hmaps Hl H4.
  pose proof (lookup_new (heap w) i) as L1.
  pose proof (conform_4d (dataobj i) H4) as C1.
  set (cl := mk_img (ensure_finite (dataobj i)) (affine i)).
  set (cf := mk_img (ensure_float (ensure_finite (dataobj i))) (affine i)).
  pose proof (lookup_new (<[length (heap w) := cl]> (heap w ++ [i])) cf) as L2.
  assert (S3 : exists n, img_shape cf !! 3%nat = Some n).
  { unfold img_shape in *. subst cf. cbn [dataobj].
    rewrite ensure_float_shape. cbn.
    destruct (shape (dataobj i)) as [|a [|b [|c [|d [|]]]]];
      try discriminate. exists d. reflexivity. }
  destruct S3 as [n3 S3]. subst cl cf.
  destruct (target_is_None (resampling_target (params (self w)))) eqn:Tn;
  destruct (target_is (resampling_target (params (self w))) "data") eqn:Td;
  destruct (target_is (resampling_target (params (self w))) "maps") eqn:Tm.
  all: unfold fit, fit_check_config, fit_load, fit_align, fit_finish,
    deepcopy, check_niimg, clean_img, _load_mask, check_same_fov_raise,
    check_same_fov, compute_middle_image.
  all: wp_go_known.
  all: split; reflexivity.
Qed.

(** C10.  [fit] has no overlap check.  It never raises the overlap
    error, whatever the images and the configuration; and a masker with
    [allow_overlap=False], a configuration the checks accept, no mask
    and a 4D maps image -- whatever its values, overlapping or not --
    completes [fit(None)] and is fitted. *)
Theorem fit_never_checks_overlap (w : world) (l : loc) (i : Nifti1Image)
    (kw : kwargs) :
  allow_overlap (params (self w)) = false ->
  check_params (params (self w)) = None ->
  sanitize_cleaning_parameters (params (self w)) = Some kw ->
  resampling_target_valid (resampling_target (params (self w))) = true ->
  mask_img (params (self w)) = None ->
  target_is (resampling_target (params (self w))) "mask" = false ->
  dtype (params (self w)) = None ->
  _maps_img (self w) = None ->
  maps_img (params (self w)) = Some l ->
  heap w !! l = Some i ->
  length (img_shape i) = 4 ->
  (forall imgs e w', fit imgs w = (Raised e, w') -> e <> ValueError msg_overlap)
  /\ exists w',
       fit None w = (Ok tt, w') /\ __sklearn_is_fitted__ (self w') = true.
Proof.
  intros _ Hcp Hs Hv Hmask Hm Hdt Hm' Hmaps Hl H4. split.
  - intros imgs e w' Hfit.
    pose proof (wp_run _ _ _ _ _ (fit_frame imgs w) Hfit) as [[_ [_ [_ Hr]]] _].
    apply (Hr e eq_refl).
  - pose proof (fit_completes w l i kw Hcp Hs Hv Hmask Hm Hdt Hm' Hmaps Hl H4)
      as [Hok Hfitted].
    exists (snd (fit None w)). split; [|exact Hfitted].
    rewrite <- Hok. destruct (fit None w); reflexivity.
Qed.

End Completes.

(** ** The overlap check *)

Lemma finfo_eps_pos d eps : finfo_eps d = Some eps -> (0 < eps)%Q.
Proof. destruct d; intros [= <-]; reflexivity. Qed.

Lemma finfo_eps_kind d eps :
  finfo_eps d = Some eps -> String.eqb (kind d) "f" = true.
Proof. destruct d; intros [= <-]; reflexivity. Qed.

Lemma nonzero_zeroed_pos eps x :
  (0 < eps)%Q -> nonzero_value (zeroed eps x) = true ->
  voxel_pos (zeroed eps x) = true.
Proof.
  intros Heps. unfold zeroed.
  destruct x as [q| | |]; cbn [voxel_lt]; try discriminate; try reflexivity.
  destruct (Qltb q eps) eqn:Hlt; [discriminate|].
  intros _. cbn [voxel_pos]. unfold Qltb in *.
  apply negb_false_iff, Qle_bool_iff in Hlt.
  apply negb_true_iff. destruct (Qle_bool q 0) eqn:Hq; [|reflexivity].
  apply Qle_bool_iff in Hq. lra.
Qed.

Lemma lookup_map {A B} (f : A -> B) (l : list A) (j : nat) (x : A) :
  l !! j = Some x -> map f l !! j = Some (f x).
Proof.
  revert j. induction l as [|a l IH]; intros [|j]; cbn; try discriminate.
  - intros [= ->]. reflexivity.
  - apply IH.
Qed.

Lemma filter_nonempty {A} (P : A -> bool) (l : list A) (j : nat) (x : A) :
  l !! j = Some x -> P x = true -> 0 < length (List.filter P l).
Proof.
  revert j. induction l as [|a l IH]; intros [|j]; cbn; try discriminate.
  - intros [= ->] ->. cbn. lia.
  - intros Hj Hx. destruct (P a); cbn; [lia|]. eapply IH; eassumption.
Qed.

Lemma filter_two {A} (P : A -> bool) (l : list A) (j k : nat) (x y : A) :
  j <> k -> l !! j = Some x -> l !! k = Some y ->
  P x = true -> P y = true -> 1 < length (List.filter P l).
Proof.
  revert j k. induction l as [|a l IH]; intros [|j] [|k] Hjk; cbn;
    try discriminate; try congruence.
  - intros [= ->] Hk -> Hy. cbn.
    pose proof (filter_nonempty P l k y Hk Hy). lia.
  - intros Hj [= ->] Hx ->. cbn.
    pose proof (filter_nonempty P l j x Hj Hx). lia.
  - intros Hj Hk Hx Hy.
    assert (1 < length (List.filter P l)) by (eapply (IH j k); eauto).
    destruct (P a); cbn; lia.
Qed.

(** Two maps sharing a voxel make the test of [transform] fire; the
    mask plays no part in it. *)
Lemma shares_voxel_detected eps maps mask_image :
  (0 < eps)%Q -> shares_voxel eps maps mask_image ->
  overlap_detected (zero_below eps (dataobj maps)) = true.
Proof.
  intros Heps (v & row & j & k & x & y & Hrow & _ & Hjk & Hx & Hy & Nx & Ny).
  unfold overlap_detected, zero_below. cbn [rows].
  apply existsb_exists. exists (map (zeroed eps) row). split.
  - apply list_elem_of_In. eapply list_elem_of_lookup_2.
    apply lookup_map. exact Hrow.
  - apply Nat.ltb_lt. unfold count_positive.
    apply (filter_two _ _ j k (zeroed eps x) (zeroed eps y) Hjk).
    + apply lookup_map, Hx.
    + apply lookup_map, Hy.
    + apply nonzero_zeroed_pos; assumption.
    + apply nonzero_zeroed_pos; assumption.
Qed.

Section Overlap.

Context `{Collaborators}.

Lemma check_is_fitted_ok w :
  __sklearn_is_fitted__ (self w) = true -> check_is_fitted w = (Ok tt, w).
Proof.
  intros Hf. unfold check_is_fitted, bind, get_self. cbv beta iota.
  rewrite Hf. reflexivity.
Qed.

(** The check on maps that share a voxel: the values below [eps] are
    zeroed in the image itself, then the exception is raised. *)
Lemma check_overlap_raises w lm i eps mask_image :
  allow_overlap (params (self w)) = false ->
  heap w !! lm = Some i ->
  finfo_eps (arr_dtype (dataobj i)) = Some eps ->
  shares_voxel eps i mask_image ->
  check_overlap (Some lm) w
  = (Raised (ValueError msg_overlap),
     mk_world (<[lm := mk_img (zero_below eps (dataobj i)) (affine i)]> (heap w))
       (self w) (log w)).
Proof.
  intros Ha Hl He Hs.
  pose proof (finfo_eps_kind _ _ He) as Hk.
  pose proof (shares_voxel_detected _ _ _ (finfo_eps_pos _ _ He) Hs) as Hd.
  assert (Hpoked : <[lm := mk_img (zero_below eps (dataobj i)) (affine i)]>
                     (heap w) !! lm
                   = Some (mk_img (zero_below eps (dataobj i)) (affine i))).
  { apply list_lookup_insert_eq. eapply lookup_lt_Some. exact Hl. }
  assert (Hwp : wp (check_overlap (Some lm))
                  (fun o w' =>
                     o = Raised (ValueError msg_overlap) /\
                     w' = mk_world
                            (<[lm := mk_img (zero_below eps (dataobj i))
                                       (affine i)]> (heap w))
                            (self w) (log w)) w).
  { unfold check_overlap. wp_go_known; cbn [dataobj] in *;
      [split; reflexivity|congruence]. }
  unfold wp in Hwp. destruct (check_overlap (Some lm) w) as [o w'].
  cbn [fst snd] in Hwp. destruct Hwp as [-> ->]. reflexivity.
Qed.

(** C1.  On a fitted masker, once [transform] has checked its input and
    aligned the images: with [allow_overlap=False] and floating-point
    maps of machine epsilon [eps], a voxel kept by the mask that has,
    after zeroing the values below [eps], a non-zero value in two maps
    makes [transform] raise the overlap [ValueError], and nothing the
    call logged up to there is a signal extraction; with
    [allow_overlap=True] the check is skipped and [transform] is the
    extraction on the aligned images. *)
Theorem overlap_check_precedes_extraction (w w1 : world) (imgs : option loc)
    (confounds : option signals) (sample_mask : option (list nat))
    (mask1 maps1 : option loc) :
  __sklearn_is_fitted__ (self w) = true ->
  transform_align imgs w = (Ok (mask1, maps1), w1) ->
  (allow_overlap (params (self w)) = false ->
   forall lm i eps,
     maps1 = Some lm -> heap w1 !! lm = Some i ->
     finfo_eps (arr_dtype (dataobj i)) = Some eps ->
     shares_voxel eps i (image_at w1 mask1) ->
     exists w2,
       transform imgs confounds sample_mask w
       = (Raised (ValueError msg_overlap), w2)
       /\ exists new, log w2 = new ++ log w /\ Forall not_extraction new)
  /\ (allow_overlap (params (self w)) = true ->
      transform imgs confounds sample_mask w
      = transform_extract imgs mask1 maps1 confounds sample_mask w1).
Proof.
  intros Hf Halign.
  pose proof (wp_run _ _ _ _ _ (transform_align_frame imgs w) Halign)
    as [Hself [_ Hlog]].
  split.
  - intros Ha lm i eps -> Hl He Hs.
    rewrite <- Hself in Ha.
    eexists. split.
    + unfold transform, transform_single_imgs, bind.
      rewrite (check_is_fitted_ok w Hf), Halign. cbn [fst snd].
      rewrite (check_overlap_raises w1 lm i eps _ Ha Hl He Hs). reflexivity.
    + cbn [log]. apply extends_app.
      eapply extends_weaken; [|exact Hlog]. intros e He'. apply He'.
  - intros Ha. rewrite <- Hself in Ha.
    unfold transform, transform_single_imgs, bind.
    rewrite (check_is_fitted_ok w Hf), Halign. cbn [fst snd].
    pose proof (check_overlap_frame maps1 w1) as [_ [_ Hskip]].
    destruct (Hskip Ha) as [Hok Hw].
    destruct (check_overlap maps1 w1) as [o w2]. cbn [fst snd] in *.
    subst. reflexivity.
Qed.

End Overlap.

(** ** A second [fit] *)

Section Refit.

Context `{Collaborators}.

Ltac same_worlds w1 w2 :=
  destruct w1 as [h1 [p1 m1 ck1 ca1 rc1 mi1 mk1 rd1 ne1 dm1] lg1];
  destruct w2 as [h2 [p2 m2 ck2 ca2 rc2 mi2 mk2 rd2 ne2 dm2] lg2];
  cbn in *; subst.

Lemma wp2_run {A} (m : M A) (Q : outcome A -> world -> outcome A -> world -> Prop)
    w1 w2 o1 w1' o2 w2' :
  wp m (fun o1 w1' => wp m (Q o1 w1') w2) w1 ->
  m w1 = (o1, w1') -> m w2 = (o2, w2') -> Q o1 w1' o2 w2'.
Proof.
  unfold wp. intros HQ E1 E2. rewrite E1, E2 in HQ. exact HQ.
Qed.

Lemma fit_check_config_sim w1 w2 :
  same_inputs w1 w2 ->
  wp fit_check_config (fun o1 w1' =>
    wp fit_check_config (fun o2 w2' =>
      o2 = o1 /\ w1' = w1 /\ w2' = w2) w2) w1.
Proof.
  intros (Hh & Hl & Hp & Hm & Hd). same_worlds w1 w2.
  unfold fit_check_config. wp_go_known.
  all: repeat split; reflexivity.
Qed.

Lemma fit_load_sim imgs w1 w2 :
  same_inputs w1 w2 ->
  wp (fit_load imgs) (fun o1 w1' =>
    wp (fit_load imgs) (fun o2 w2' =>
      match o1 with
      | Ok a => o2 = Ok a /\ late_only w1' w2'
      | Raised _ => True
      end) w2) w1.
Proof.
  intros (Hh & Hl & Hp & Hm & Hd). same_worlds w1 w2.
  unfold fit_load, deepcopy, check_niimg, clean_img, _load_mask, late_only.
  wp_go_known.
  all: try exact I.
  all: repeat split; reflexivity.
Qed.

Lemma fit_align_sim imgs imgs_ w1 w2 :
  late_only w1 w2 ->
  wp (fit_align imgs imgs_) (fun o1 w1' =>
    wp (fit_align imgs imgs_) (fun o2 w2' =>
      match o1 with
      | Ok a => o2 = Ok a /\ late_only w1' w2'
      | Raised _ => True
      end) w2) w1.
Proof.
  intros (Hh & Hl & Hp & Hm & Hck & Hca & Hrc & Hmi & Hmk & Hd).
  same_worlds w1 w2.
  unfold fit_align, check_same_fov_raise, check_same_fov, resample_img,
    late_only.
  wp_go_known.
  all: try exact I.
  all: repeat split; reflexivity.
Qed.

Lemma fit_finish_sim imgs w1 w2 :
  late_only w1 w2 ->
  wp (fit_finish imgs) (fun o1 w1' =>
    wp (fit_finish imgs) (fun o2 w2' =>
      match o1 with
      | Ok a => o2 = Ok a /\ w2' = w1'
      | Raised _ => True
      end) w2) w1.
Proof.
  intros (Hh & Hl & Hp & Hm & Hck & Hca & Hrc & Hmi & Hmk & Hd).
  same_worlds w1 w2.
  unfold fit_finish, compute_middle_image.
  wp_go_known.
  all: try exact I.
  all: repeat split; reflexivity.
Qed.

(** A [fit] that returns leaves a world that depends on the images, the
    log, the constructor arguments and the attributes [fit] never
    assigns -- not on what an earlier [fit] had left in the masker. *)
Lemma fit_sim imgs w1 w2 w1' :
  same_inputs w1 w2 -> fit imgs w1 = (Ok tt, w1') -> fit imgs w2 = (Ok tt, w1').
Proof.
  intros Hs. unfold fit, bind.
  destruct (fit_check_config w1) as [o1 v1] eqn:C1.
  destruct (fit_check_config w2) as [o2 v2] eqn:C2.
  destruct (wp2_run _ _ _ _ _ _ _ _ (fit_check_config_sim w1 w2 Hs) C1 C2)
    as (-> & -> & ->).
  destruct o1 as [[]|e]; [|discriminate].
  destruct (fit_load imgs w1) as [o1 v1] eqn:L1.
  destruct (fit_load imgs w2) as [o2 v2] eqn:L2.
  pose proof (wp2_run _ _ _ _ _ _ _ _ (fit_load_sim imgs w1 w2 Hs) L1 L2)
    as Hload.
  destruct o1 as [imgs_|e]; [|discriminate].
  destruct Hload as [-> Hlate].
  destruct (fit_align imgs imgs_ v1) as [o1 u1] eqn:A1.
  destruct (fit_align imgs imgs_ v2) as [o2 u2] eqn:A2.
  pose proof (wp2_run _ _ _ _ _ _ _ _
                (fit_align_sim imgs imgs_ v1 v2 Hlate) A1 A2) as Halign.
  destruct o1 as [[]|e]; [|discriminate].
  destruct Halign as [-> Hlate'].
  destruct (fit_finish imgs u1) as [o1 x1] eqn:F1.
  destruct (fit_finish imgs u2) as [o2 x2] eqn:F2.
  pose proof (wp2_run _ _ _ _ _ _ _ _
                (fit_finish_sim imgs u1 u2 Hlate') F1 F2) as Hfin.
  intros [= -> ->]. destruct Hfin as [-> ->]. reflexivity.
Qed.

(** C3, as the code has it.  On an already fitted masker: a second [fit]
    that returns leaves exactly the world that the same call leaves on
    the masker stripped of everything the earlier [fit] had assigned, so
    the fitted state is replaced wholesale; a second [fit] that raises in
    the configuration checks leaves the world as it was; a second [fit]
    that raises later keeps the old [n_elements_]. *)
Theorem refit_replaces_fitted_state (w : world) (imgs : option loc) :
  __sklearn_is_fitted__ (self w) = true ->
  (forall w', fit imgs w = (Ok tt, w') -> fit imgs (forget w) = (Ok tt, w'))
  /\ (forall e w0,
        fit_check_config w = (Raised e, w0) -> fit imgs w = (Raised e, w))
  /\ (forall e w',
        fit imgs w = (Raised e, w') ->
        n_elements_ (self w') = n_elements_ (self w)).
Proof.
  intros _. split; [|split].
  - intros w' Hfit. apply (fit_sim imgs w); [|exact Hfit].
    repeat split; reflexivity.
  - intros e w0 Hc.
    pose proof (wp_run _ _ _ _ _ (fit_check_config_frame w) Hc) as [-> _].
    unfold fit, bind. rewrite Hc. reflexivity.
  - intros e w' Hfit.
    pose proof (wp_run _ _ _ _ _ (fit_frame imgs w) Hfit) as [[_ [_ [_ Hr]]] _].
    apply (Hr e eq_refl).
Qed.

End Refit.

(** ** Reports *)

Section Reports.

Context `{Collaborators}.

Lemma getattr_ok {A} name (f : NiftiMapsMasker -> option A) w a :
  f (self w) = Some a -> getattr name f w = (Ok a, w).
Proof.
  intros E. unfold getattr, bind, get_self. rewrite E. reflexivity.
Qed.

Lemma deref_ok w l i : heap w !! l = Some i -> deref (Some l) w = (Ok i, w).
Proof. intros E. unfold deref, bind, peek. rewrite E. reflexivity. Qed.

Lemma reporting_selects w d l mi n :
  _reporting_data (self w) = Some (Some d) ->
  maps_image d = Some l ->
  heap w !! l = Some mi ->
  last (img_shape mi) = Some n ->
  _reporting w = bind (maps_to_be_displayed n) (embedded_images d mi n) w.
Proof.
  intros Hd Hm Hl Hn. unfold _reporting.
  rewrite (bind_ok _ _ _ _ _ (getattr_ok _ _ _ _ Hd)). rewrite Hm.
  rewrite (bind_ok _ _ _ _ _ (deref_ok _ _ _ Hl)). rewrite Hn.
  rewrite (bind_ok (ret n) _ w n w eq_refl). reflexivity.
Qed.





(** With Matplotlib installed and report data on the masker, an
    accepted request is stored, and the report generator asks the masker
    for its displays and renders them. *)
Lemma generate_report_accepted v w d :
  is_matplotlib_installed = true ->
  _reporting_data (self w) = Some (Some d) ->
  accepted v ->
  generate_report v w = bind _reporting render (requested v w).
Proof.
  intros Hmat Hd Hv. unfold generate_report, html_generate_report.
  rewrite Hmat. cbn [negb].
  assert (Hok : (match v with PyOther => true | _ => false end
                 || match v with
                    | PyStr s => negb (String.eqb s "all")
                    | _ => false
                    end
                 || not_integer v) = false).
  { destruct v as [k|[|x xs]|a|s|]; cbn in Hv |- *; try contradiction.
    - rewrite Hv. reflexivity.
    - rewrite Hv. reflexivity.
    - rewrite Hv. reflexivity.
    - subst s. reflexivity. }
  rewrite Hok.
  unfold bind at 1, set_self. unfold bind at 1, get_self.
  cbn [self with_displayed_maps _reporting_data]. rewrite Hd. reflexivity.
Qed.




End Reports.

(** ** The claims on the concrete setting *)

(** [fit] does resample, and by the rule: with the five volumes on the
    other grid, the maps are resampled linearly. *)
Example fit_resamples_maps_linearly :
  log (after (fit (Some 6%nat)) (new_masker (default_params (Some 0%nat))))
  = [Logged "fit_done"; Touched "compute_middle_image" (Some 6%nat);
     Resampled maps_role (Some 9%nat) linear [1; 1; 3]%nat shifted_affine;
     Logged "resample_regions"; Touched "check_niimg" (Some 6%nat);
     Touched "clean_img" (Some 8%nat); Touched "check_niimg" (Some 8%nat);
     Touched "deepcopy" (Some 0%nat); Logged "load_regions"].
Proof. vm_compute. reflexivity. Qed.

(** Maps that share a voxel are accepted by [fit] and refused by the
    first [transform]. *)
Example overlap_is_found_by_transform :
  outcome_of (fit None)
    (new_masker (set_allow_overlap false (default_params (Some 1%nat))))
  = Ok tt
  /\ outcome_of (transform (Some 5%nat) None None) strict_overlapping
     = Raised (ValueError msg_overlap).
Proof. split; vm_compute; reflexivity. Qed.

(** The check does not look at the mask: an overlap in a voxel that the
    mask leaves out is refused as well. *)
Example overlap_outside_the_mask_is_refused :
  let w := fitted (set_mask_img (Some 7%nat)
                     (set_allow_overlap false (default_params (Some 1%nat)))) in
  mask_img_ (self w) = Some (Some 10%nat)
  /\ option_map (fun i => rows (dataobj i)) (heap w !! 10%nat)
     = Some [[Finite 0]; [Finite 1]]
  /\ outcome_of (transform (Some 5%nat) None None) w
     = Raised (ValueError msg_overlap).
Proof. repeat split; vm_compute; reflexivity. Qed.

Lemma overlap_check_witness :
  let w := strict_overlapping in
  let w1 := after (transform_align (Some 5%nat)) w in
  __sklearn_is_fitted__ (self w) = true
  /\ transform_align (Some 5%nat) w = (Ok (None, Some 9%nat), w1)
  /\ (exists w2,
        transform (Some 5%nat) None None w
        = (Raised (ValueError msg_overlap), w2)
        /\ exists new, log w2 = new ++ log w /\ Forall not_extraction new).
Proof.
  intros w w1.
  assert (Hf : __sklearn_is_fitted__ (self w) = true)
    by (vm_compute; reflexivity).
  assert (Ha : transform_align (Some 5%nat) w = (Ok (None, Some 9%nat), w1))
    by (vm_compute; reflexivity).
  split; [exact Hf|]. split; [exact Ha|].
  destruct (overlap_check_precedes_extraction w w1 (Some 5%nat) None None
              None (Some 9%nat) Hf Ha) as [Hstrict _].
  apply (Hstrict eq_refl 9%nat overlapping_maps (1 # 4503599627370496)%Q
           eq_refl).
  - vm_compute. reflexivity.
  - reflexivity.
  - exists 0%nat, [Finite (1 # 2); Finite (1 # 4)], 0%nat, 1%nat,
      (Finite (1 # 2)), (Finite (1 # 4)).
    repeat split; try reflexivity. discriminate.
Defined.

(** C2: [transform] writes into the fitted maps.  With overlap
    forbidden, the values below the machine epsilon -- here the negative
    weight -1/4 -- are set to zero in the array of the fitted image
    itself, and stay so after the call. *)
Theorem transform_zeroes_fitted_maps :
  let w := strict_signed in
  let w' := after (transform (Some 5%nat) None None) w in
  maps_img_ (self w) = Some (Some 9%nat)
  /\ outcome_of (transform (Some 5%nat) None None) w
     = Ok [[1 # 2; 0]; [0; 1 # 3]]%Q
  /\ option_map (fun i => rows (dataobj i)) (heap w !! 9%nat)
     = Some [[Finite (1 # 2); Finite 0]; [Finite (- 1 # 4); Finite (1 # 3)]]
  /\ option_map (fun i => rows (dataobj i)) (heap w' !! 9%nat)
     = Some [[Finite (1 # 2); Finite 0]; [Finite 0; Finite (1 # 3)]]
  /\ heap w' !! 9%nat <> heap w !! 9%nat.
Proof.
  repeat split; try (vm_compute; reflexivity).
  vm_compute. intros [=].
Qed.

(** A second [fit] that raises after the images were loaded: the maps
    attribute already holds the new image, of three maps, while
    [n_elements_] and the report data are still those of the first
    [fit], of two maps. *)
Lemma refit_is_not_atomic :
  let w := set_params (set_maps_img (Some 3%nat) (params (self fitted_two_maps)))
             fitted_two_maps in
  let w' := after (fit (Some 6%nat)) w in
  __sklearn_is_fitted__ (self w) = true
  /\ maps_img_ (self w) = Some (Some 9%nat)
  /\ n_elements_ (self w) = Some 2%nat
  /\ outcome_of (fit (Some 6%nat)) w = Raised (ValueError msg_fov)
  /\ maps_img_ (self w') = Some (Some 11%nat)
  /\ option_map img_shape (heap w' !! 11%nat) = Some [1; 1; 2; 3]%nat
  /\ n_elements_ (self w') = Some 2%nat
  /\ self w' <> self w
  /\ forall w'', fit (Some 6%nat) (forget w) <> (Ok tt, w'').
Proof.
  repeat split; try (vm_compute; reflexivity).
  - vm_compute. intros [=].
  - intros w''. vm_compute. intros [=].
Qed.

Lemma refit_witness :
  let w := fitted_two_maps in
  __sklearn_is_fitted__ (self w) = true
  /\ (forall w', fit (Some 5%nat) w = (Ok tt, w') ->
                 fit (Some 5%nat) (forget w) = (Ok tt, w'))
  /\ (forall e w0,
        fit_check_config w = (Raised e, w0) ->
        fit (Some 5%nat) w = (Raised e, w))
  /\ (forall e w',
        fit (Some 5%nat) w = (Raised e, w') ->
        n_elements_ (self w') = n_elements_ (self w)).
Proof.
  intros w.
  assert (Hf : __sklearn_is_fitted__ (self w) = true)
    by (vm_compute; reflexivity).
  split; [exact Hf|].
  exact (refit_replaces_fitted_state w (Some 5%nat) Hf).
Defined.

Lemma fit_rejects_witness :
  let w := new_masker (set_resampling_target (Some "mask"%string)
                         (default_params (Some 0%nat))) in
  ((target_is (resampling_target (params (self w))) "mask" = true
    /\ mask_img (params (self w)) = None)
   \/ resampling_target_valid (resampling_target (params (self w))) = false)
  /\ exists e,
       fit (Some 5%nat) w = (Raised e, w)
       /\ match check_params (params (self w)) with
          | Some msg => e = TypeError msg
          | None => exists msg, e = ValueError msg
          end.
Proof.
  intros w.
  assert (Hbad : (target_is (resampling_target (params (self w))) "mask" = true
                  /\ mask_img (params (self w)) = None)
                 \/ resampling_target_valid
                      (resampling_target (params (self w))) = false)
    by (left; split; reflexivity).
  split; [exact Hbad|].
  exact (fit_rejects_bad_configuration_eagerly (Some 5%nat) w Hbad).
Defined.

Lemma unfitted_witness :
  let w := after (fit (Some 6%nat))
             (new_masker (set_resampling_target None
                            (default_params (Some 0%nat)))) in
  never_fitted w
  /\ transform (Some 5%nat) None None w
     = (Raised (NotFittedError msg_not_fitted), w)
  /\ inverse_transform [[1; 2]]%Q w
     = (Raised (NotFittedError msg_not_fitted), w).
Proof.
  intros w.
  assert (Hn : never_fitted w).
  { apply (never_fitted_fit_raised
             (new_masker (set_resampling_target None
                            (default_params (Some 0%nat))))
             (Some 6%nat) (ValueError msg_fov)).
    - apply never_fitted_new.
    - vm_compute. reflexivity. }
  split; [exact Hn|].
  exact (unfitted_masker_raises_not_fitted w (Some 5%nat) None None
           [[1; 2]]%Q Hn).
Defined.

Lemma fit_keeps_caller_maps_witness :
  let w := new_masker (default_params (Some 4%nat)) in
  maps_img (params (self w)) = Some 4%nat
  /\ heap w !! 4%nat = Some unclean_maps
  /\ heap (after (fit None) w) !! 4%nat = Some unclean_maps
  /\ (outcome_of (fit None) w = Ok tt ->
      exists l', maps_img_ (self (after (fit None) w)) = Some (Some l')
                 /\ l' <> 4%nat).
Proof.
  intros w. split; [reflexivity|]. split; [reflexivity|].
  exact (fit_keeps_caller_maps None w 4%nat unclean_maps eq_refl eq_refl).
Defined.

(** The fitted copy of that image was cleaned; the caller's was not. *)
Example fit_cleans_its_own_copy :
  let w := fitted (default_params (Some 4%nat)) in
  option_map (fun i => rows (dataobj i)) (heap w !! 4%nat)
  = Some [[NaN; Finite 0]; [PInf; Finite (1 # 3)]]
  /\ maps_img_ (self w) = Some (Some 9%nat)
  /\ option_map (fun i => rows (dataobj i)) (heap w !! 9%nat)
     = Some [[Finite 0; Finite 0]; [Finite 0; Finite (1 # 3)]].
Proof. repeat split; vm_compute; reflexivity. Qed.

Lemma fit_never_checks_overlap_witness :
  let w := new_masker (set_allow_overlap false (default_params (Some 1%nat))) in
  allow_overlap (params (self w)) = false
  /\ check_params (params (self w)) = None
  /\ sanitize_cleaning_parameters (params (self w)) = Some []
  /\ resampling_target_valid (resampling_target (params (self w))) = true
  /\ mask_img (params (self w)) = None
  /\ target_is (resampling_target (params (self w))) "mask" = false
  /\ dtype (params (self w)) = None
  /\ _maps_img (self w) = None
  /\ maps_img (params (self w)) = Some 1%nat
  /\ heap w !! 1%nat = Some overlapping_maps
  /\ length (img_shape overlapping_maps) = 4%nat
  /\ (forall imgs e w',
        fit imgs w = (Raised e, w') -> e <> ValueError msg_overlap)
  /\ exists w',
       fit None w = (Ok tt, w') /\ __sklearn_is_fitted__ (self w') = true.
Proof.
  intros w. do 11 (split; [reflexivity|]).
  exact (fit_never_checks_overlap w 1%nat overlapping_maps []
           eq_refl eq_refl eq_refl eq_refl eq_refl eq_refl eq_refl eq_refl
           eq_refl eq_refl eq_refl).
Defined.


(** An integer that no [int64] holds is refused, whatever the number
    of maps. *)
Example report_count_beyond_int64_is_refused :
  outcome_of (generate_report (PyInt (2 ^ 63))) fitted_two_maps
  = Raised (TypeError msg_displayed_maps_type)
  /\ after (generate_report (PyInt (2 ^ 63))) fitted_two_maps
     = fitted_two_maps.
Proof. split; vm_compute; reflexivity. Qed.

(** An integer beyond the number of maps: a warning, then the report. *)
Example report_count_beyond_maps_warns :
  outcome_of (generate_report (PyInt 7)) fitted_two_maps
  = Ok (Report [Some "display"%string; Some "display"%string])
  /\ log (after (generate_report (PyInt 7)) fitted_two_maps)
     = Warned msg_no_image :: Warned msg_too_many_maps :: log fitted_two_maps.
Proof. split; vm_compute; reflexivity. Qed.


(** * Further properties of the masker and of its caller *)

Section FitResult.

Context `{Collaborators}.

Lemma bind_ok_inv {A B} (m : M A) (k : A -> M B) w b w' :
  bind m k w = (Ok b, w') ->
  exists a w1, m w = (Ok a, w1) /\ k a w1 = (Ok b, w').
Proof.
  unfold bind. destruct (m w) as [[a|e] w1]; [|discriminate].
  intros Hk. exists a, w1. split; [reflexivity|exact Hk].
Qed.

Lemma fit_finish_result imgs w :
  wp (fit_finish imgs) (fun o w' =>
     o = Ok tt ->
     exists l i n,
       maps_img_ (self w') = Some (Some l) /\ heap w' !! l = Some i /\
       img_shape i !! 3%nat = Some n /\ n_elements_ (self w') = Some n) w.
Proof.
  unfold fit_finish, compute_middle_image.
  wp_go; try (intros; discriminate).
  all: intros _; do 3 eexists; repeat split; try eassumption; try reflexivity.
Qed.

End FitResult.

Section FitPhases.

Context `{Collaborators}.

(** A [fit] that returns went through its four phases; up to the last
    one the constructor arguments are kept, the images that existed are
    kept, and the maps attribute holds an object of the call's own. *)
Lemma fit_ok_inv imgs w w' :
  fit imgs w = (Ok tt, w') ->
  exists imgs_ w1 w2,
    fit_check_config w = (Ok tt, w) /\
    fit_load imgs w = (Ok imgs_, w1) /\
    fit_align imgs imgs_ w1 = (Ok tt, w2) /\
    fit_finish imgs w2 = (Ok tt, w') /\
    params (self w1) = params (self w) /\
    params (self w2) = params (self w) /\
    grown (heap w) (heap w1) /\ grown (heap w) (heap w2) /\
    own_maps (heap w) w1 /\ own_maps (heap w) w2.
Proof.
  unfold fit. intros Hfit.
  apply bind_ok_inv in Hfit as ([] & w0 & Hc & Hfit).
  pose proof (wp_run _ _ _ _ _ (fit_check_config_frame w) Hc) as [-> _].
  apply bind_ok_inv in Hfit as (imgs_ & w1 & Hl & Hfit).
  apply bind_ok_inv in Hfit as ([] & w2 & Ha & Hf).
  pose proof (wp_run _ _ _ _ _
                (fit_load_frame imgs (heap w) (log w) w
                   (grown_refl _) (extends_refl _ _)) Hl)
    as [[G1 [E1 [P1 _]]] [_ O1]].
  specialize (O1 _ eq_refl).
  pose proof (wp_run _ _ _ _ _
                (fit_align_frame imgs imgs_ (heap w) (log w) w1 G1 E1 O1) Ha)
    as [[G2 [E2 [P2 _]]] [_ O2]].
  specialize (O2 _ eq_refl).
  exists imgs_, w1, w2. repeat split; try assumption. congruence.
Qed.

End FitPhases.

Section FitCounts.

Context `{Collaborators}.

(** X1.  A [fit] that returns leaves the masker fitted --
    [check_is_fitted] passes on it -- with a maps image that exists, and
    [n_elements_] is the length of the fourth axis of that image: the
    number of maps after copying, casting, cleaning and resampling. *)
Theorem fit_counts_the_maps (imgs : option loc) (w w' : world) :
  fit imgs w = (Ok tt, w') ->
  check_is_fitted w' = (Ok tt, w')
  /\ exists l i n,
       maps_img_ (self w') = Some (Some l) /\ heap w' !! l = Some i /\
       img_shape i !! 3%nat = Some n /\ n_elements_ (self w') = Some n.
Proof.
  intros Hfit.
  destruct (fit_ok_inv _ _ _ Hfit) as (imgs_ & w1 & w2 & _ & _ & _ & Hf & _).
  pose proof (wp_run _ _ _ _ _ (fit_finish_result imgs w2) Hf eq_refl)
    as (l & i & n & Hm & Hl & Hs & Hn).
  split.
  - apply check_is_fitted_ok. unfold __sklearn_is_fitted__.
    rewrite Hm, Hn. reflexivity.
  - exists l, i, n. repeat split; assumption.
Qed.

Lemma fit_finish_no_reports imgs w :
  reports (params (self w)) = false ->
  wp (fit_finish imgs) (fun o w' =>
     o = Ok tt -> _reporting_data (self w') = Some None) w.
Proof.
  intros Hr. unfold fit_finish, compute_middle_image.
  wp_go_known; try (intros; discriminate).
  all: intros _; reflexivity.
Qed.

(** X2.  With [reports=False], a [fit] that returns stores [None] as
    report data, and [_reporting] on the fitted masker then returns the
    list [[None]] and changes nothing: no map is plotted, no warning is
    emitted, whatever was asked to be displayed. *)
Theorem fit_without_reports_gives_empty_report (imgs : option loc)
    (w w' : world) :
  reports (params (self w)) = false ->
  fit imgs w = (Ok tt, w') ->
  _reporting_data (self w') = Some None
  /\ _reporting w' = (Ok [None], w').
Proof.
  intros Hr Hfit.
  destruct (fit_ok_inv _ _ _ Hfit)
    as (imgs_ & w1 & w2 & _ & _ & _ & Hf & _ & P2 & _).
  rewrite <- P2 in Hr.
  pose proof (wp_run _ _ _ _ _ (fit_finish_no_reports imgs w2 Hr) Hf eq_refl)
    as Hd.
  split; [exact Hd|].
  unfold _reporting.
  rewrite (bind_ok _ _ _ _ _ (getattr_ok _ _ _ _ Hd)). reflexivity.
Qed.

End FitCounts.

Section TransformHeap.

Context `{Collaborators}.

(** The images a call of [transform] works on are the fitted ones or
    images the call created. *)
Lemma transform_align_locals imgs w :
  wp (transform_align imgs) (fun o w' =>
     forall mask1 maps1, o = Ok (mask1, maps1) ->
       (maps_img_ (self w) = Some maps1
        \/ exists l, maps1 = Some l /\ length (heap w) <= l)
       /\ (mask_img_ (self w) = Some mask1
           \/ exists l, mask1 = Some l /\ length (heap w) <= l)) w.
Proof.
  unfold transform_align, check_niimg, check_same_fov_raise, check_same_fov,
    resample_img.
  wp_go; try (intros; discriminate).
  all: intros ? ? [= <- <-].
  all: split.
  all: first [ left; reflexivity
             | right; eexists; split; [reflexivity|];
               repeat rewrite length_app; simpl; lia ].
Qed.

(** The overlap check writes, if at all, the zeroed values into the
    image it was given. *)
Lemma check_overlap_heap x w :
  wp (check_overlap x) (fun o w' =>
     self w' = self w /\ log w' = log w /\
     (heap w' = heap w
      \/ exists l i eps,
           x = Some l /\ heap w !! l = Some i /\
           allow_overlap (params (self w)) = false /\
           finfo_eps (arr_dtype (dataobj i)) = Some eps /\
           heap w'
           = <[l := mk_img (zero_below eps (dataobj i)) (affine i)]>
               (heap w))) w.
Proof.
  unfold check_overlap.
  wp_go; repeat split; try (left; reflexivity).
  all: right; do 3 eexists; repeat split; try eassumption; try reflexivity.
  all: apply negb_true_iff; assumption.
Qed.

Lemma ensure_finite_idempotent a :
  ensure_finite (ensure_finite a) = ensure_finite a.
Proof.
  unfold ensure_finite. cbn [arr_dtype shape rows]. f_equal.
  rewrite map_map. apply map_ext. intros row.
  rewrite map_map. apply map_ext. intros v.
  destruct (isfinite v) eqn:E; [rewrite E|]; reflexivity.
Qed.

Lemma sanitised_idempotent i : sanitised (sanitised i) = sanitised i.
Proof.
  unfold sanitised. cbn [dataobj affine].
  rewrite ensure_finite_idempotent. reflexivity.
Qed.

Lemma sanitised_if_twice s1 s2 i :
  sanitised_if s2 (sanitised_if s1 i) = sanitised_if (s1 || s2) i.
Proof.
  destruct s1, s2; cbn [sanitised_if orb]; try reflexivity.
  apply sanitised_idempotent.
Qed.

(** An image of finite values is its own sanitised image. *)
Lemma sanitised_finite i : finite_valued i -> sanitised i = i.
Proof.
  unfold finite_valued, sanitised, ensure_finite. intros Hf.
  destruct i as [[dt sh rs] af]. cbn [dataobj affine rows arr_dtype shape] in *.
  do 2 f_equal.
  induction Hf as [|row rs Hrow _ IH]; [reflexivity|].
  cbn [map]. f_equal; [|exact IH].
  induction Hrow as [|v row Hv _ IHrow]; [reflexivity|].
  cbn [map]. rewrite Hv. f_equal. exact IHrow.
Qed.

(** What sanitising does to the images that exist. *)
Lemma sanitise_heap (b : bool) x w :
  wp (if b then sanitise x else ret tt) (fun o w' =>
     forall l i, heap w !! l = Some i ->
       exists s, heap w' !! l = Some (sanitised_if s i)
                 /\ (s = true -> x = Some l)) w.
Proof.
  destruct b.
  2:{ apply wp_ret. intros l i Hl. exists false. split; [exact Hl|].
      discriminate. }
  unfold sanitise. wp_go.
  all: intros l i Hl.
  2,3: exists false; split; [exact Hl|discriminate].
  match goal with
  | E : heap w !! ?n = Some ?i0 |- _ =>
      destruct (decide (n = l)) as [->|Hne];
        [ exists true; split; [|reflexivity];
          assert (i0 = i) as -> by congruence;
          apply list_lookup_insert_eq; eapply lookup_lt_Some; exact Hl
        | exists false; split; [|discriminate];
          rewrite list_lookup_insert_ne by exact Hne; exact Hl ]
  end.
Qed.

(** What a call into the extraction does to the images that exist: each
    is kept, or sanitised if it is one of the three handed over. *)
Lemma in_place_then_heap {A} (r : outcome A * in_place) imgs x y w :
  wp (in_place_then r imgs x y) (fun o w' =>
     forall l i, heap w !! l = Some i ->
       exists s, heap w' !! l = Some (sanitised_if s i)
                 /\ (s = true ->
                     imgs = Some l \/ x = Some l \/ y = Some l)) w.
Proof.
  unfold in_place_then. apply wp_bind.
  eapply wp_mono; [apply wp_conj; [apply wp_sanitise_if|apply sanitise_heap]|].
  intros o w1 [(-> & _) H1]. apply wp_bind.
  eapply wp_mono; [apply wp_conj; [apply wp_sanitise_if|apply sanitise_heap]|].
  intros o w2 [(-> & _) H2]. apply wp_bind.
  eapply wp_mono; [apply wp_conj; [apply wp_sanitise_if|apply sanitise_heap]|].
  intros o w3 [(-> & _) H3]. apply wp_pure.
  intros l i Hl.
  destruct (H1 l i Hl) as (s1 & E1 & P1).
  destruct (H2 l _ E1) as (s2 & E2 & P2).
  destruct (H3 l _ E2) as (s3 & E3 & P3).
  exists (s1 || s2 || s3). split.
  - rewrite E3, !sanitised_if_twice, orb_assoc. reflexivity.
  - intros Hs. destruct s1; [auto|]. destruct s2; [auto|].
    destruct s3; [auto|discriminate].
Qed.

Lemma transform_extract_heap imgs x y c sm w :
  wp (transform_extract imgs x y c sm) (fun o w' =>
     forall l i, heap w !! l = Some i ->
       exists s, heap w' !! l = Some (sanitised_if s i)
                 /\ (s = true ->
                     imgs = Some l \/ x = Some l \/ y = Some l)) w.
Proof.
  unfold transform_extract.
  wp_go.
  all: try (intros l i Hl; exists false; split; [exact Hl|discriminate]).
  all: apply wp_in_place_then with
         (f := fun w0 => filter_and_extract (heap w0) _ _ _ _ _ _);
    eapply wp_mono; [apply in_place_then_heap|];
    cbn beta; intros o w' Hh; exact Hh.
Qed.

(** What [transform_single_imgs] does to the images that existed: each
    is kept, up to the zeroing of the overlap check in the fitted maps,
    and up to the sanitising of the images the call works on. *)
Lemma transform_heap_frame imgs c sm w :
  wp (transform_single_imgs imgs c sm) (fun o w' =>
     self w' = self w /\ length (heap w) <= length (heap w') /\
     forall l i, heap w !! l = Some i ->
       exists z s,
         heap w' !! l = Some (sanitised_if s (zeroed_if z i))
         /\ (z = true ->
             maps_img_ (self w) = Some (Some l)
             /\ allow_overlap (params (self w)) = false)
         /\ (s = true -> worked_on (self w) imgs l)) w.
Proof.
  pose proof (transform_frame imgs c sm w) as Hf. unfold wp in Hf |- *.
  destruct Hf as (Hs & _ & Hn). split; [exact Hs|]. split; [exact Hn|].
  clear Hs Hn.
  change (wp (transform_single_imgs imgs c sm) (fun o w' =>
     forall l i, heap w !! l = Some i ->
       exists z s,
         heap w' !! l = Some (sanitised_if s (zeroed_if z i))
         /\ (z = true ->
             maps_img_ (self w) = Some (Some l)
             /\ allow_overlap (params (self w)) = false)
         /\ (s = true -> worked_on (self w) imgs l)) w).
  assert (Hkeep : forall w0, (forall l i, heap w !! l = Some i ->
                                heap w0 !! l = Some i) ->
            forall l i, heap w !! l = Some i ->
              exists z s,
                heap w0 !! l = Some (sanitised_if s (zeroed_if z i))
                /\ (z = true ->
                    maps_img_ (self w) = Some (Some l)
                    /\ allow_overlap (params (self w)) = false)
                /\ (s = true -> worked_on (self w) imgs l)).
  { intros w0 H0 l i Hl. exists false, false.
    split; [apply H0, Hl|]. split; discriminate. }
  unfold transform_single_imgs. apply wp_bind.
  unfold check_is_fitted. wp_go.
  2:{ apply Hkeep. auto. }
  eapply wp_mono;
    [apply wp_conj;
       [apply transform_align_frame|apply transform_align_locals]|].
  intros o w1 [[S1 [G1 _]] Hloc].
  assert (H1 : forall l i, heap w !! l = Some i -> heap w1 !! l = Some i).
  { intros l i Hl. rewrite (grown_lookup _ _ _ G1); [exact Hl|].
    eapply lookup_lt_Some; exact Hl. }
  destruct o as [[mask1 maps1]|e]; [|apply Hkeep, H1].
  destruct (Hloc _ _ eq_refl) as [Hmaps Hmask].
  wp_simpl. apply wp_bind.
  eapply wp_mono; [apply check_overlap_heap|].
  intros o w2 [S2 [_ H2]].
  assert (Hz : forall l i, heap w !! l = Some i ->
            exists z,
              heap w2 !! l = Some (zeroed_if z i)
              /\ (z = true ->
                  maps_img_ (self w) = Some (Some l)
                  /\ allow_overlap (params (self w)) = false)).
  { intros l i Hl. pose proof (H1 l i Hl) as Hl1.
    destruct H2 as [->|(lx & ix & eps & -> & Hi & Ha & He & ->)].
    - exists false. split; [exact Hl1|discriminate].
    - destruct (decide (lx = l)) as [->|Hne].
      + exists true. assert (ix = i) as -> by congruence. split.
        * rewrite list_lookup_insert_eq
            by (eapply lookup_lt_Some; exact Hl1).
          unfold zeroed_if, zeroed_image. rewrite He. reflexivity.
        * intros _. split; [|rewrite <- S1; exact Ha].
          destruct Hmaps as [Hm|(l' & [= ->] & Hge)]; [exact Hm|].
          apply lookup_lt_Some in Hl. lia.
      + exists false. split; [|discriminate].
        rewrite list_lookup_insert_ne by exact Hne. exact Hl1. }
  destruct o as [[]|e].
  2:{ intros l i Hl. destruct (Hz l i Hl) as (z & Ez & Pz).
      exists z, false. split; [exact Ez|]. split; [exact Pz|discriminate]. }
  eapply wp_mono; [apply transform_extract_heap|].
  intros o w3 H3 l i Hl.
  destruct (Hz l i Hl) as (z & Ez & Pz).
  destruct (H3 l _ Ez) as (s & Es & Ps).
  exists z, s. split; [exact Es|]. split; [exact Pz|].
  intros Hs. unfold worked_on.
  destruct (Ps Hs) as [Hi|[Hk|Hm]]; [left; exact Hi| |].
  - right; right. subst mask1.
    destruct Hmask as [Hm|(l' & [= ->] & Hge)]; [exact Hm|].
    apply lookup_lt_Some in Hl. lia.
  - right; left. subst maps1.
    destruct Hmaps as [Hm|(l' & [= ->] & Hge)]; [exact Hm|].
    apply lookup_lt_Some in Hl. lia.
Qed.

End TransformHeap.

Section TransformEffects.

Context `{Collaborators}.

(** X6.  What one call of [transform] can change, whatever its
    arguments and its outcome.  The masker keeps every attribute.  An
    image that existed and that the call does not work on -- it is
    neither the image given, nor the fitted maps image, nor the fitted
    mask image -- keeps its data.  An image the call works on may come
    out with its values that are not finite set to zero ("Inf or NaN
    present in the given input images are automatically put to zero");
    and the fitted maps image, when [allow_overlap] is false, may come
    out with its values below the machine epsilon set to zero as well.
    Nothing else is written. *)
Theorem transform_writes_only_into_the_images_it_works_on
    (imgs : option loc) (confounds : option signals)
    (sample_mask : option (list nat)) (w : world) :
  let w' := after (transform imgs confounds sample_mask) w in
  self w' = self w
  /\ forall l i,
       heap w !! l = Some i ->
       (~ worked_on (self w) imgs l -> heap w' !! l = Some i)
       /\ (maps_img_ (self w) <> Some (Some l)
           \/ allow_overlap (params (self w)) = true ->
           heap w' !! l = Some i \/ heap w' !! l = Some (sanitised i))
       /\ (heap w' !! l = Some i
           \/ heap w' !! l = Some (sanitised i)
           \/ heap w' !! l = Some (zeroed_image i)
           \/ heap w' !! l = Some (sanitised (zeroed_image i))).
Proof.
  intros w'. subst w'. unfold after, transform.
  pose proof (transform_heap_frame imgs confounds sample_mask w)
    as [Hs [_ Hh]].
  split; [exact Hs|].
  intros l i Hl.
  destruct (Hh l i Hl) as (z & s & E & Pz & Ps).
  split; [|split].
  - intros Hn. destruct s; [destruct Hn; auto|].
    destruct z; [|exact E].
    destruct Hn. right; left. apply Pz. reflexivity.
  - intros Hn. destruct z.
    + destruct (Pz eq_refl) as [Hm Ha].
      destruct Hn as [Hn|Hn]; [contradiction|congruence].
    + destruct s; [right|left]; exact E.
  - destruct z, s; cbn [sanitised_if zeroed_if] in E; auto.
Qed.

End TransformEffects.

Section ReportContents.

Context `{Collaborators}.


Lemma plot_maps_out_of_range mi n bg comps w :
  Exists (fun c => ~ map_index n c) comps ->
  plot_maps mi n bg comps w = (Raised (IndexError "index out of bounds"), w).
Proof.
  induction 1 as [c comps Hc|c comps _ IH].
  - cbn [plot_maps]. unfold plot_map.
    destruct ((- Z.of_nat n <=? c)%Z && (c <? Z.of_nat n)%Z) eqn:E.
    + exfalso. apply Hc. apply andb_true_iff in E as [Hlo Hhi].
      apply Z.leb_le in Hlo. apply Z.ltb_lt in Hhi. split; assumption.
    + reflexivity.
  - cbn [plot_maps]. unfold plot_map.
    destruct ((- Z.of_nat n <=? c)%Z && (c <? Z.of_nat n)%Z) eqn:E.
    + unfold bind, ret. rewrite IH. reflexivity.
    + reflexivity.
Qed.

End ReportContents.

Section ReportRuns.

Context `{Collaborators}.






Lemma list_max_Z_in l x : list_max_Z x l = x \/ In (list_max_Z x l) l.
Proof.
  unfold list_max_Z. revert x.
  induction l as [|a l IH]; intros x; [left; reflexivity|].
  cbn [fold_left]. destruct (IH (Z.max x a)) as [E|E].
  - rewrite E. destruct (Z.max_spec x a) as [[_ ->]|[_ ->]].
    + right. left. reflexivity.
    + left. reflexivity.
  - right. right. exact E.
Qed.

Lemma report_ready_data w n :
  report_ready w n -> exists d, _reporting_data (self w) = Some (Some d).
Proof. intros (d & l & mi & rc & Hd & _). exists d. exact Hd. Qed.



Lemma generate_report_raised v w n e w' :
  is_matplotlib_installed = true ->
  report_ready w n ->
  accepted v ->
  _reporting (requested v w) = (Raised e, w') ->
  generate_report v w = (Raised e, w').
Proof.
  intros Hmat Hready Hv Hrun.
  destruct (report_ready_data w n Hready) as [d Hd].
  rewrite (generate_report_accepted v w d Hmat Hd Hv).
  apply bind_raised, Hrun.
Qed.




(** [_reporting] on a masker that is ready for a report. *)
Lemma reporting_ready w n :
  report_ready w n ->
  exists d mi,
    _reporting w = bind (maps_to_be_displayed n) (embedded_images d mi n) w
    /\ is_Some (_report_content (self w))
    /\ match img d with
       | Some lb => exists bg, heap w !! lb = Some bg
       | None => True
       end.
Proof.
  intros (d & l & mi & rc & Hd & Hm & Hl & Hn & Hrc & Hbg).
  exists d, mi. split; [|split; [eexists; exact Hrc|exact Hbg]].
  apply (reporting_selects w d l mi n); assumption.
Qed.


Lemma select_listed w n x xs :
  displayed_maps (self w) = Some (PyList (x :: xs))
  \/ displayed_maps (self w) = Some (PyArray (x :: xs)) ->
  (list_max_Z x xs <= Z.of_nat n)%Z ->
  maps_to_be_displayed n w = (Ok (x :: xs), w).
Proof.
  intros Hd Hk. apply Z.ltb_ge in Hk.
  unfold maps_to_be_displayed.
  destruct Hd as [Hd|Hd];
    rewrite (bind_ok _ _ _ _ _ (getattr_ok _ _ _ _ Hd)); rewrite Hk;
    reflexivity.
Qed.

End ReportRuns.

Section FitReports.

Context `{Collaborators}.

Lemma fit_load_report_content imgs w :
  wp (fit_load imgs) (fun o w' =>
     forall a, o = Ok a ->
       _report_content (self w')
       = Some (mk_report_content
                 "This reports shows the spatial maps provided to the mask."
                 None None None)) w.
Proof.
  unfold fit_load, deepcopy, check_niimg, clean_img, _load_mask.
  wp_go; try (intros; discriminate).
  all: intros; reflexivity.
Qed.

Lemma fit_align_keeps_report_content imgs imgs_ w :
  wp (fit_align imgs imgs_) (fun o w' =>
     _report_content (self w') = _report_content (self w)) w.
Proof.
  unfold fit_align, check_same_fov_raise, check_same_fov, resample_img.
  wp_go; reflexivity.
Qed.

Lemma lookup_last_is_Some {A} (l : list A) j x :
  l !! j = Some x -> exists y, last l = Some y.
Proof.
  intros Hl. destruct (last l) as [y|] eqn:E; [exists y; reflexivity|].
  apply last_None in E. subst l. discriminate.
Qed.

(** With [reports] on, the report data name the fitted maps image
    itself, and the background image exists when one is named. *)
Lemma fit_finish_reports imgs w :
  reports (params (self w)) = true ->
  wp (fit_finish imgs) (fun o w' =>
     o = Ok tt ->
     _report_content (self w') = _report_content (self w) /\
     exists d l mi,
       _reporting_data (self w') = Some (Some d) /\
       maps_image d = Some l /\ maps_img_ (self w') = Some (Some l) /\
       mask_img_ (self w') = Some (mask d) /\
       heap w' !! l = Some mi /\
       match img d with
       | Some lb => exists bg, heap w' !! lb = Some bg
       | None => imgs = None
       end) w.
Proof.
  intros Hr. unfold fit_finish, compute_middle_image.
  wp_go_known; try (intros; discriminate).
  all: intros _; split; [reflexivity|].
  all: do 3 eexists; repeat split; try eassumption; try reflexivity.
  all: cbn [img]; eexists; first [apply lookup_new | eassumption].
Qed.

(** A [fit] that returns with [reports] on leaves a masker that is ready
    for a report on the fitted maps image. *)
Lemma fit_report_ready imgs w w' :
  reports (params (self w)) = true ->
  fit imgs w = (Ok tt, w') ->
  exists l mi n,
    maps_img_ (self w') = Some (Some l) /\ heap w' !! l = Some mi /\
    last (img_shape mi) = Some n /\ report_ready w' n.
Proof.
  intros Hr Hfit.
  destruct (fit_ok_inv _ _ _ Hfit)
    as (imgs_ & w1 & w2 & _ & Hl & Ha & Hf & _ & P2 & _).
  rewrite <- P2 in Hr.
  pose proof (wp_run _ _ _ _ _ (fit_load_report_content imgs w) Hl _ eq_refl)
    as Hrc.
  pose proof (wp_run _ _ _ _ _ (fit_align_keeps_report_content imgs imgs_ w1)
                Ha) as Hrc2.
  pose proof (wp_run _ _ _ _ _ (fit_finish_reports imgs w2 Hr) Hf eq_refl)
    as (Hrc3 & d & l & mi & Hd & Hm & Hmi & _ & Hh & Hbg).
  pose proof (wp_run _ _ _ _ _ (fit_finish_result imgs w2) Hf eq_refl)
    as (l' & i' & n3 & Hm' & Hl' & Hs & _).
  assert (l' = l) as -> by congruence.
  assert (i' = mi) as -> by congruence.
  destruct (lookup_last_is_Some _ _ _ Hs) as [n Hn].
  exists l, mi, n. repeat split; try assumption.
  exists d, l, mi. eexists. repeat split; try eassumption.
  - rewrite Hrc3, Hrc2. exact Hrc.
  - destruct (img d); [exact Hbg|exact I].
Qed.

End FitReports.

Section ReportRequests.

Context `{Collaborators}.

Lemma select_everything w n s :
  displayed_maps (self w) = Some (PyStr s) ->
  maps_to_be_displayed n w = (Ok (range (Z.of_nat n)), w).
Proof.
  intros Hd. unfold maps_to_be_displayed.
  rewrite (bind_ok _ _ _ _ _ (getattr_ok _ _ _ _ Hd)). reflexivity.
Qed.


Lemma embedded_images_out_of_range d mi n comps w :
  is_Some (_report_content (self w)) ->
  match img d with
  | Some lb => exists bg, heap w !! lb = Some bg
  | None => True
  end ->
  Exists (fun c => ~ map_index n c) comps ->
  wp (embedded_images d mi n comps) (fun o w' =>
     o = Raised (IndexError "index out of bounds") /\
     reported_maps w' = Some comps) w.
Proof.
  intros [rc Hrc] Hbg Hout. unfold embedded_images, reported_maps.
  wp_step. unfold getattr. wp_go_known.
  all: try (destruct Hbg; congruence).
  all: unfold wp; rewrite (plot_maps_out_of_range _ _ _ _ _ Hout).
  all: split; reflexivity.
Qed.





Lemma report_index_past_the_end w n v x xs :
  report_ready w n ->
  v = PyList (x :: xs) \/ v = PyArray (x :: xs) ->
  list_max_Z x xs = Z.of_nat n ->
  exists w',
    _reporting (requested v w)
    = (Raised (IndexError "index out of bounds"), w')
    /\ reported_maps w' = Some (x :: xs).
Proof.
  intros Hready Hv Hmax.
  assert (Hsel : maps_to_be_displayed n (requested v w)
                 = (Ok (x :: xs), requested v w)).
  { apply select_listed; [|lia].
    destruct Hv as [->| ->]; [left|right]; reflexivity. }
  assert (Hout : Exists (fun c => ~ map_index n c) (x :: xs)).
  { apply Exists_exists. exists (Z.of_nat n). split.
    - rewrite <- Hmax. apply list_elem_of_In.
      destruct (list_max_Z_in xs x) as [->|Hin]; [left; reflexivity|].
      right. exact Hin.
    - unfold map_index. lia. }
  destruct (reporting_ready (requested v w) n Hready)
    as (d & mi & -> & Hc & Hbg).
  rewrite (bind_ok _ _ _ _ _ Hsel).
  destruct (embedded_images d mi n (x :: xs) (requested v w))
    as [o2 w2] eqn:E2.
  pose proof (wp_run _ _ _ _ _
                (embedded_images_out_of_range d mi n (x :: xs) _ Hc Hbg Hout)
                E2) as [-> Hrep].
  exists w2. split; [reflexivity|exact Hrep].
Qed.

End ReportRequests.

Section ReportsAfterFit.

Context `{Collaborators}.

Lemma fit_ready_for imgs w0 w l mi n :
  reports (params (self w0)) = true ->
  fit imgs w0 = (Ok tt, w) ->
  maps_img_ (self w) = Some (Some l) ->
  heap w !! l = Some mi ->
  last (img_shape mi) = Some n ->
  report_ready w n.
Proof.
  intros Hr Hfit Hm Hl Hn.
  destruct (fit_report_ready imgs w0 w Hr Hfit)
    as (l' & mi' & n' & Hm' & Hl' & Hn' & Hready).
  assert (l' = l) as -> by congruence.
  assert (mi' = mi) as -> by congruence.
  assert (n' = n) as -> by congruence.
  exact Hready.
Qed.



(** X16.  The guard of [_reporting] on a list or array refuses a largest
    index above the number of maps [n], not [n] itself.  A request of
    [int64] indices whose largest is exactly [n] is accepted by
    [generate_report], passes the guard, is written into the report
    content, and then fails in [index_img] with [IndexError]: the maps
    are numbered from 0 to [n - 1]. *)
Theorem report_index_equal_to_number_of_maps (w0 w : world)
    (imgs : option loc) (l : loc) (mi : Nifti1Image) (n : nat)
    (x : Z) (xs : list Z) :
  is_matplotlib_installed = true ->
  reports (params (self w0)) = true ->
  fit imgs w0 = (Ok tt, w) ->
  maps_img_ (self w) = Some (Some l) ->
  heap w !! l = Some mi ->
  last (img_shape mi) = Some n ->
  forallb fits_int64 (x :: xs) = true ->
  list_max_Z x xs = Z.of_nat n ->
  (exists w',
     generate_report (PyList (x :: xs)) w
     = (Raised (IndexError "index out of bounds"), w')
     /\ reported_maps w' = Some (x :: xs))
  /\ (exists w',
        generate_report (PyArray (x :: xs)) w
        = (Raised (IndexError "index out of bounds"), w')
        /\ reported_maps w' = Some (x :: xs)).
Proof.
  intros Hmat Hr Hfit Hm Hl Hn Hfits Hmax.
  pose proof (fit_ready_for imgs w0 w l mi n Hr Hfit Hm Hl Hn) as Hready.
  split.
  - destruct (report_index_past_the_end w n _ x xs Hready
                (or_introl eq_refl) Hmax) as (w' & Hrun & Hrep).
    exists w'. split; [|exact Hrep].
    exact (generate_report_raised (PyList (x :: xs)) w n _ _ Hmat Hready
             Hfits Hrun).
  - destruct (report_index_past_the_end w n _ x xs Hready
                (or_intror eq_refl) Hmax) as (w' & Hrun & Hrep).
    exists w'. split; [|exact Hrep].
    exact (generate_report_raised (PyArray (x :: xs)) w n _ _ Hmat Hready
             Hfits Hrun).
Qed.

End ReportsAfterFit.

Section TransformTargets.

Context `{Collaborators}.


Lemma transform_extract_log imgs x y c sm w :
  wp (transform_extract imgs x y c sm) (fun o w' =>
     log w' = log w \/ log w' = Extracted y x :: log w) w.
Proof.
  unfold transform_extract.
  wp_go.
  all: try (left; reflexivity).
  all: apply wp_in_place_then with
         (f := fun w0 => filter_and_extract (heap w0) _ _ _ _ _ _);
    eapply wp_mono; [apply in_place_then_frame|];
    cbn beta; intros o w' (_ & _ & L' & _); right; exact L'.
Qed.


End TransformTargets.

Section FitTargets.

Context `{Collaborators}.

(** Loading never resamples and never warns. *)
Lemma fit_load_log imgs w :
  wp (fit_load imgs) (fun o w' => extends no_resampling (log w) (log w')) w.
Proof.
  unfold fit_load, deepcopy, check_niimg, clean_img, _load_mask.
  wp_go.
  all: repeat first [apply extends_refl | apply extends_cons; [exact I|]].
Qed.

Lemma fit_finish_log imgs w :
  wp (fit_finish imgs) (fun o w' => extends no_resampling (log w) (log w')) w.
Proof.
  unfold fit_finish, compute_middle_image.
  wp_go.
  all: repeat first [apply extends_refl | apply extends_cons; [exact I|]].
Qed.

Lemma target_is_maps t :
  target_is t "maps" = true ->
  target_is t "data" = false /\ target_is t "mask" = false
  /\ target_is_None t = false.
Proof.
  destruct t as [s|]; [|discriminate]. cbn [target_is target_is_None].
  intros E. apply String.eqb_eq in E. subst s. repeat split.
Qed.

Lemma target_is_data t :
  target_is t "data" = true ->
  target_is t "maps" = false /\ target_is t "mask" = false
  /\ target_is_None t = false.
Proof.
  destruct t as [s|]; [|discriminate]. cbn [target_is target_is_None].
  intros E. apply String.eqb_eq in E. subst s. repeat split.
Qed.

Lemma target_is_None_others t name :
  target_is_None t = true -> target_is t name = false.
Proof. destruct t; [discriminate|reflexivity]. Qed.

(** With the maps as the target, only the mask can be resampled. *)
Lemma fit_align_log_maps imgs imgs_ w :
  target_is (resampling_target (params (self w))) "maps" = true ->
  wp (fit_align imgs imgs_) (fun o w' =>
     extends maps_not_resampled (log w) (log w')) w.
Proof.
  intros Hm. destruct (target_is_maps _ Hm) as (Hd & Hk & Hn).
  unfold fit_align, check_same_fov_raise, check_same_fov, resample_img.
  wp_go_known.
  all: repeat first [apply extends_refl | apply extends_cons; [exact I|]].
Qed.

(** Without a reference image nothing is resampled. *)
Lemma fit_align_log_no_reference imgs imgs_ w :
  target_is_None (resampling_target (params (self w))) = true
  \/ (target_is (resampling_target (params (self w))) "data" = true
      /\ imgs = None) ->
  wp (fit_align imgs imgs_) (fun o w' =>
     extends no_resampling (log w) (log w')) w.
Proof.
  intros [Hn|[Hd ->]].
  - pose proof (target_is_None_others _ "data" Hn) as Hd.
    pose proof (target_is_None_others _ "mask" Hn) as Hk.
    pose proof (target_is_None_others _ "maps" Hn) as Hm.
    unfold fit_align, check_same_fov_raise, check_same_fov, resample_img.
    wp_go_known.
    all: repeat first [apply extends_refl | apply extends_cons; [exact I|]].
  - destruct (target_is_data _ Hd) as (Hm & Hk & Hn).
    unfold fit_align, check_same_fov_raise, check_same_fov, resample_img.
    wp_go_known.
    all: repeat first [apply extends_refl | apply extends_cons; [exact I|]].
Qed.

(** The log of a [fit], phase by phase. *)
Lemma fit_log (P : event -> Prop) imgs w :
  (forall e, no_resampling e -> P e) ->
  (forall imgs_ w1,
     params (self w1) = params (self w) ->
     wp (fit_align imgs imgs_) (fun o w' => extends P (log w1) (log w')) w1) ->
  wp (fit imgs) (fun o w' => extends P (log w) (log w')) w.
Proof.
  intros HP Halign. unfold fit. apply wp_bind.
  eapply wp_mono; [apply fit_check_config_frame|].
  intros o w0 [-> _]. destruct o as [[]|e]; [|constructor].
  apply wp_bind.
  eapply wp_mono;
    [apply wp_conj;
       [apply fit_load_log
       |apply (fit_load_frame imgs (heap w) (log w) w
                 (grown_refl _) (extends_refl _ _))]|].
  intros o w1 [E1 [[_ [_ [P1 _]]] _]].
  apply (extends_weaken _ P) in E1; [|exact HP].
  destruct o as [imgs_|e]; [|exact E1].
  apply wp_bind.
  eapply wp_mono; [apply (Halign imgs_ w1 P1)|].
  intros o w2 E2. pose proof (extends_trans _ _ _ _ E1 E2) as E12.
  destruct o as [[]|e]; [|exact E12].
  eapply wp_mono; [apply fit_finish_log|].
  intros o w3 E3. apply (extends_weaken _ P) in E3; [|exact HP].
  exact (extends_trans _ _ _ _ E12 E3).
Qed.

(** X4.  Which images [fit] resamples follows from the target.  With the
    target "maps" the maps image is never resampled (only the mask can
    be).  With the target [None], or with the target "data" when no image
    is given to [fit], nothing is resampled at all, and no warning is
    emitted. *)
Theorem fit_resamples_toward_the_target (imgs : option loc) (w : world) :
  exists new,
    log (after (fit imgs) w) = new ++ log w
    /\ (target_is (resampling_target (params (self w))) "maps" = true ->
        Forall maps_not_resampled new)
    /\ (target_is_None (resampling_target (params (self w))) = true
        \/ (target_is (resampling_target (params (self w))) "data" = true
            /\ imgs = None) ->
        Forall no_resampling new).
Proof.
  pose proof (fit_frame imgs w) as [[_ [E _]] _].
  apply extends_app in E as [new [Hlog _]].
  exists new. split; [exact Hlog|]. split.
  - intros Hm.
    assert (Hwp : wp (fit imgs) (fun _ w' =>
                    extends maps_not_resampled (log w) (log w')) w).
    { apply fit_log.
      - intros [] He; try exact I; contradiction.
      - intros imgs_ w1 P1. apply fit_align_log_maps. rewrite P1. exact Hm. }
    apply extends_app in Hwp as [new' [Hlog' Hall]].
    unfold after in Hlog. rewrite Hlog in Hlog'.
    apply app_inv_tail in Hlog'. subst new'. exact Hall.
  - intros Hno.
    assert (Hwp : wp (fit imgs) (fun _ w' =>
                    extends no_resampling (log w) (log w')) w).
    { apply fit_log; [auto|].
      intros imgs_ w1 P1. apply fit_align_log_no_reference.
      rewrite P1. exact Hno. }
    apply extends_app in Hwp as [new' [Hlog' Hall]].
    unfold after in Hlog. rewrite Hlog in Hlog'.
    apply app_inv_tail in Hlog'. subst new'. exact Hall.
Qed.

End FitTargets.

Section FitGrids.

Context `{Collaborators}.

Lemma conform_plain a : conform None false a = None.
Proof. reflexivity. Qed.

(** The image given to [fit] is used as it is. *)
Lemma fit_load_same_image imgs w :
  wp (fit_load imgs) (fun o w' => forall a, o = Ok a -> a = imgs) w.
Proof.
  unfold fit_load, deepcopy, check_niimg, clean_img, _load_mask.
  wp_go; try (intros; discriminate).
  all: try match goal with
           | E : conform None false _ = Some _ |- _ =>
               rewrite conform_plain in E; discriminate
           end.
  all: intros ? [= <-]; reflexivity.
Qed.

Lemma fit_finish_keeps imgs w :
  wp (fit_finish imgs) (fun o w' =>
     maps_img_ (self w') = maps_img_ (self w) /\
     mask_img_ (self w') = mask_img_ (self w) /\
     exists extra, heap w' = heap w ++ extra) w.
Proof.
  unfold fit_finish, compute_middle_image.
  wp_go; (split; [congruence|split; [congruence|]]).
  all: first [exists []; rewrite app_nil_r; reflexivity
             | eexists; reflexivity].
Qed.

End FitGrids.

Section FitOneGrid.

Context `{Collaborators}.

(** With no resampling target, [fit] goes on only when the maps, the
    mask and the image given all have the same field of view; it then
    changes nothing. *)
Lemma fit_align_one_grid imgs imgs_ w :
  target_is_None (resampling_target (params (self w))) = true ->
  wp (fit_align imgs imgs_) (fun o w' =>
     o = Ok tt ->
     w' = w /\
     exists lm im,
       maps_img_ (self w) = Some (Some lm) /\ heap w !! lm = Some im /\
       (forall lk,
          mask_img_ (self w) = Some (Some lk) ->
          exists ik, heap w !! lk = Some ik /\ same_fov im ik = true) /\
       (forall li,
          imgs <> None -> imgs_ = Some li ->
          exists ii, heap w !! li = Some ii /\ same_fov im ii = true)) w.
Proof.
  intros Hn.
  pose proof (target_is_None_others _ "data" Hn) as Hd.
  pose proof (target_is_None_others _ "mask" Hn) as Hk.
  pose proof (target_is_None_others _ "maps" Hn) as Hm.
  unfold fit_align, check_same_fov_raise, check_same_fov, resample_img.
  wp_go_known; try (intros; discriminate).
  all: intros _; split; [reflexivity|].
  all: do 2 eexists; split; [reflexivity|]; split; [eassumption|].
  all: repeat match goal with
              | E : _ && _ = true |- _ => apply andb_true_iff in E as [? ?]
              end.
  all: split; intros; simplify_eq; try contradiction.
  all: eexists; split; [eassumption|assumption].
Qed.

(** X5.  With [resampling_target=None], a [fit] that returns has found
    the maps, the mask (if there is one) and the image given to [fit]
    (if there is one) on the same grid -- same first three dimensions
    and same affine: the fitted maps and mask, and that image, have the
    same field of view.  Otherwise [fit] raises. *)
Theorem fit_without_target_requires_one_grid (imgs : option loc)
    (w w' : world) :
  target_is_None (resampling_target (params (self w))) = true ->
  fit imgs w = (Ok tt, w') ->
  exists lm im,
    maps_img_ (self w') = Some (Some lm) /\ heap w' !! lm = Some im
    /\ (forall lk,
          mask_img_ (self w') = Some (Some lk) ->
          exists ik, heap w' !! lk = Some ik /\ same_fov im ik = true)
    /\ (forall li,
          imgs = Some li ->
          exists ii, heap w' !! li = Some ii /\ same_fov im ii = true).
Proof.
  intros Hn Hfit.
  destruct (fit_ok_inv _ _ _ Hfit)
    as (imgs_ & w1 & w2 & _ & Hl & Ha & Hf & P1 & _).
  rewrite <- P1 in Hn.
  pose proof (wp_run _ _ _ _ _ (fit_load_same_image imgs w) Hl _ eq_refl)
    as ->.
  pose proof (wp_run _ _ _ _ _ (fit_align_one_grid imgs imgs w1 Hn) Ha
                eq_refl) as (-> & lm & im & Hm & Him & Hmask & Himgs).
  pose proof (wp_run _ _ _ _ _ (fit_finish_keeps imgs w1) Hf)
    as (Hm' & Hk' & extra & Hh).
  assert (Hkeep : forall l i, heap w1 !! l = Some i -> heap w' !! l = Some i).
  { intros l i Hi. rewrite Hh. rewrite lookup_app_l; [exact Hi|].
    eapply lookup_lt_Some; exact Hi. }
  exists lm, im. split; [congruence|]. split; [auto|]. split.
  - intros lk Hk. rewrite Hk' in Hk.
    destruct (Hmask lk Hk) as (ik & Hik & Hs). exists ik. auto.
  - intros li ->.
    destruct (Himgs li) as (ii & Hii & Hs); [discriminate|reflexivity|].
    exists ii. auto.
Qed.

End FitOneGrid.

Lemma allclose_refl a : allclose a a = true.
Proof.
  induction a as [|x a IH]; [reflexivity|].
  cbn [allclose]. rewrite IH, andb_true_r. apply Qle_bool_iff.
  assert (Hx : (x - x == 0)%Q) by ring.
  rewrite Hx. change (Qabs 0) with 0%Q.
  pose proof (Qabs_nonneg x). lra.
Qed.

Lemma shape_eqb_refl s : shape_eqb s s = true.
Proof.
  induction s as [|x s IH]; [reflexivity|].
  cbn [shape_eqb]. rewrite Nat.eqb_refl, IH. reflexivity.
Qed.

(** An image resampled to the grid of [r] has the field of view of [r],
    provided [r] has its three spatial axes. *)
Lemma same_fov_resampled r dt rest data :
  3 <= length (img_shape r) ->
  same_fov r
    (mk_img (mk_ndarray dt (take 3 (img_shape r) ++ rest) data) (affine r))
  = true.
Proof.
  intros H3. unfold same_fov, img_shape at 2. cbn [dataobj shape affine].
  rewrite take_app_le by (rewrite length_take; lia).
  rewrite take_take, Nat.min_id.
  rewrite shape_eqb_refl, allclose_refl. reflexivity.
Qed.

(** The fourth axis that [check_niimg] adds does not change the field of
    view. *)
Lemma same_fov_conform i a x :
  conform None true (dataobj i) = Some a ->
  same_fov (mk_img a (affine i)) x = same_fov i x.
Proof.
  unfold conform. cbn [orb andb].
  destruct (length (shape (dataobj i)) =? 3) eqn:E; [|discriminate].
  apply Nat.eqb_eq in E. intros [= <-].
  unfold same_fov, img_shape. cbn [dataobj shape affine].
  rewrite take_app_le by lia. reflexivity.
Qed.

Ltac learn_bounds :=
  repeat match goal with
         | E : ?h !! ?l = Some _ |- _ =>
             lazymatch goal with
             | _ : l < length h |- _ => fail
             | _ => pose proof (lookup_lt_Some _ _ _ E)
             end
         end.

(** A lookup in a heap that grew is a lookup in the heap before. *)
Ltac heap_norm :=
  learn_bounds;
  repeat match goal with
         | E : (?h ++ [?x]) !! length ?h = Some _ |- _ =>
             rewrite lookup_new in E; simplify_eq
         | E : (?h ++ [?x]) !! ?l = _, B : ?l < length ?h |- _ =>
             rewrite (lookup_app_l h [x] l B) in E; simplify_eq
         end;
  learn_bounds.

Ltac solve_lookup :=
  repeat first
    [ eassumption
    | apply lookup_new
    | rewrite lookup_app_l
        by first [assumption | (repeat rewrite length_app; simpl; lia)] ].

Section FitToData.

Context `{Collaborators}.

Lemma fit_align_to_data li ii w :
  target_is (resampling_target (params (self w))) "data" = true ->
  heap w !! li = Some ii ->
  3 <= length (img_shape ii) ->
  wp (fit_align (Some li) (Some li)) (fun o w' =>
     o = Ok tt ->
     heap w' !! li = Some ii /\
     exists lm im,
       maps_img_ (self w') = Some (Some lm) /\ heap w' !! lm = Some im /\
       same_fov ii im = true /\
       forall lk,
         mask_img_ (self w') = Some (Some lk) ->
         exists ik, heap w' !! lk = Some ik /\ same_fov ii ik = true) w.
Proof.
  intros Hd Hli H3. destruct (target_is_data _ Hd) as (Hm & Hk & Hn).
  unfold fit_align, check_same_fov_raise, check_same_fov, resample_img.
  wp_go_known; try (intros; discriminate).
  all: intros _; heap_norm.
  all: repeat match goal with
              | E : negb _ = false |- _ => apply negb_false_iff in E
              end.
  all: split; [solve [solve_lookup]|].
  all: do 2 eexists; split; [first [reflexivity|eassumption]|];
    split; [solve [solve_lookup]|].
  all: split; [first [assumption | apply same_fov_resampled; assumption]|].
  all: intros lk Hlk; simplify_eq.
  all: eexists; split; [solve [solve_lookup]|].
  all: first [assumption | apply same_fov_resampled; assumption].
Qed.

End FitToData.

Section NoSecondResampling.

Context `{Collaborators}.

Lemma fit_align_no_warning imgs imgs_ w :
  wp (fit_align imgs imgs_) (fun o w' =>
     extends no_warning (log w) (log w')) w.
Proof.
  unfold fit_align, check_same_fov_raise, check_same_fov, resample_img.
  wp_go.
  all: repeat first [apply extends_refl | apply extends_cons; [exact I|]].
Qed.

(** On a masker whose maps and mask have the field of view of the image,
    [transform] of that image has nothing to resample. *)
Lemma transform_align_aligned li ii lm im w :
  target_is (resampling_target (params (self w))) "data" = true ->
  heap w !! li = Some ii ->
  maps_img_ (self w) = Some (Some lm) ->
  heap w !! lm = Some im ->
  same_fov ii im = true ->
  (forall lk,
     mask_img_ (self w) = Some (Some lk) ->
     exists ik, heap w !! lk = Some ik /\ same_fov ii ik = true) ->
  wp (transform_align (Some li)) (fun o w' =>
     extends no_resampling (log w) (log w')) w.
Proof.
  intros Hd Hli Hmaps Him Hsame Hmask.
  destruct (target_is_data _ Hd) as (Hm & Hk & Hn).
  unfold transform_align, check_niimg, check_same_fov_raise, check_same_fov,
    resample_img.
  wp_go_known.
  all: try (destruct (Hmask _ eq_refl) as (ik & Hik & Hs)).
  all: heap_norm.
  all: repeat match goal with
              | C : conform None true (dataobj ?i) = Some ?a,
                E : context [same_fov (mk_img ?a (affine ?i)) _] |- _ =>
                  rewrite (same_fov_conform i a _ C) in E
              end.
  all: try congruence.
  all: try match goal with
           | E : negb (same_fov _ _) = true |- _ =>
               apply negb_true_iff in E; congruence
           end.
  all: repeat first [apply extends_refl | apply extends_cons; [exact I|]].
Qed.

End NoSecondResampling.

Section FitTransformLog.

Context `{Collaborators}.

(** The log of a [transform], from the log of its alignment phase. *)
Lemma transform_log (P : event -> Prop) imgs c sm w :
  (forall a b, P (Extracted a b)) ->
  wp (transform_align imgs) (fun _ w' => extends P (log w) (log w')) w ->
  wp (transform_single_imgs imgs c sm)
    (fun _ w' => extends P (log w) (log w')) w.
Proof.
  intros HP Halign.
  unfold transform_single_imgs. apply wp_bind.
  unfold check_is_fitted. wp_go; [|constructor].
  eapply wp_mono; [exact Halign|].
  intros o w1 E1. destruct o as [[mask1 maps1]|e]; [|exact E1].
  wp_simpl. apply wp_bind.
  eapply wp_mono; [apply check_overlap_frame|].
  intros o w2 [_ [L2 _]]. destruct o as [[]|e]; [|rewrite L2; exact E1].
  eapply wp_mono; [apply transform_extract_log|].
  intros o w3 [L3|L3]; rewrite L3, L2; [exact E1|].
  constructor; [apply HP|exact E1].
Qed.

(** [fit_transform] of an image with its three spatial axes, for the
    target "data": the masker keeps its constructor arguments and no
    warning is emitted. *)
Lemma fit_transform_no_warning li ii c sm w :
  target_is (resampling_target (params (self w))) "data" = true ->
  heap w !! li = Some ii ->
  3 <= length (img_shape ii) ->
  wp (fit_transform (Some li) c sm) (fun _ w' =>
     extends no_warning (log w) (log w')) w.
Proof.
  intros Hd Hli H3.
  assert (Hfitlog : wp (fit (Some li)) (fun _ w' =>
                      extends no_warning (log w) (log w')) w).
  { apply fit_log.
    - intros [] He; try exact I; contradiction.
    - intros imgs_ w1 _. apply fit_align_no_warning. }
  unfold wp, fit_transform, transform, bind.
  destruct (fit (Some li) w) as [[[]|e] w'] eqn:Hfit;
    pose proof (wp_run _ _ _ _ _ Hfitlog Hfit) as E1; [|exact E1].
  eapply extends_trans; [exact E1|].
  destruct (fit_ok_inv _ _ _ Hfit)
    as (imgs_ & w1 & w2 & _ & Hl & Ha & Hf & P1 & P2 & G1 & _).
  pose proof (wp_run _ _ _ _ _ (fit_load_same_image (Some li) w) Hl
                _ eq_refl) as ->.
  assert (Hli1 : heap w1 !! li = Some ii).
  { etrans; [apply (grown_lookup _ _ _ G1)|exact Hli].
    eapply lookup_lt_Some; exact Hli. }
  assert (Hd1 : target_is (resampling_target (params (self w1))) "data"
                = true) by (rewrite P1; exact Hd).
  pose proof (wp_run _ _ _ _ _ (fit_align_to_data li ii w1 Hd1 Hli1 H3) Ha
                eq_refl) as (Hli2 & lm & im & Hm & Him & Hs & Hmask).
  pose proof (wp_run _ _ _ _ _ (fit_finish_keeps (Some li) w2) Hf)
    as (Hm' & Hk' & extra & Hh).
  pose proof (wp_run _ _ _ _ _ (fit_frame (Some li) w) Hfit)
    as [[_ [_ [P' _]]] _].
  assert (Hkeep : forall l i, heap w2 !! l = Some i -> heap w' !! l = Some i).
  { intros l i Hi. rewrite Hh. rewrite lookup_app_l; [exact Hi|].
    eapply lookup_lt_Some; exact Hi. }
  assert (Hwp : wp (transform_single_imgs (Some li) c sm)
                  (fun _ w'' => extends no_warning (log w') (log w'')) w').
  { apply transform_log; [intros; exact I|].
    eapply wp_mono.
    - apply (transform_align_aligned li ii lm im w').
      + rewrite P'. exact Hd.
      + auto.
      + congruence.
      + auto.
      + exact Hs.
      + intros lk Hk. rewrite Hk' in Hk.
        destruct (Hmask lk Hk) as (ik & Hik & Hsk). exists ik. auto.
    - intros o w'' E. eapply extends_weaken; [|exact E].
      intros [] He; try exact I; contradiction. }
  exact Hwp.
Qed.

(** The mask a [fit] leaves in the masker is an object of its own. *)
Ltac own_mask_tac G :=
  try (intros; discriminate);
  try (let Hm := fresh "Hm" in
       intros ? _ ? Hm; cbn in Hm;
       first
         [ discriminate Hm
         | injection Hm as <-;
           repeat (rewrite length_app || rewrite length_insert); simpl;
           pose proof (grown_length _ _ G); lia
         | eauto ]).

Lemma fit_load_own_mask imgs h0 w :
  grown h0 (heap w) ->
  wp (fit_load imgs) (fun o w' => forall a, o = Ok a -> own_mask h0 w') w.
Proof.
  intros G. unfold own_mask.
  unfold fit_load, deepcopy, check_niimg, clean_img, _load_mask.
  wp_go; own_mask_tac G.
Qed.

Lemma fit_align_own_mask imgs imgs_ h0 w :
  grown h0 (heap w) -> own_mask h0 w ->
  wp (fit_align imgs imgs_) (fun o w' =>
     forall a, o = Ok a -> own_mask h0 w') w.
Proof.
  intros G Hown. unfold own_mask in *.
  unfold fit_align, check_same_fov_raise, check_same_fov, resample_img.
  wp_go; own_mask_tac G.
  all: eapply Hown; congruence.
Qed.

Lemma fit_own_mask imgs w w' :
  fit imgs w = (Ok tt, w') -> own_mask (heap w) w'.
Proof.
  intros Hfit.
  destruct (fit_ok_inv _ _ _ Hfit)
    as (imgs_ & w1 & w2 & _ & Hl & Ha & Hf & _ & _ & G1 & _).
  pose proof (wp_run _ _ _ _ _
                (fit_load_own_mask imgs (heap w) w (grown_refl _)) Hl
                _ eq_refl) as O1.
  pose proof (wp_run _ _ _ _ _
                (fit_align_own_mask imgs imgs_ (heap w) w1 G1 O1) Ha
                _ eq_refl) as O2.
  pose proof (wp_run _ _ _ _ _ (fit_finish_keeps imgs w2) Hf)
    as (_ & Hk & _).
  intros l Hm. apply O2. rewrite <- Hk. exact Hm.
Qed.

(** What [fit_transform] does to the images that existed, and to the
    constructor arguments: [fit] works on objects of its own, so of the
    images that existed the [transform] that follows works on the one
    it is given only. *)
Lemma fit_transform_heap_frame imgs c sm w :
  wp (fit_transform imgs c sm) (fun _ w' =>
     params (self w') = params (self w) /\
     length (heap w) <= length (heap w') /\
     forall l i, heap w !! l = Some i ->
       exists s, heap w' !! l = Some (sanitised_if s i)
                 /\ (s = true -> imgs = Some l)) w.
Proof.
  unfold wp, fit_transform, transform.
  pose proof (fit_frame imgs w) as [[G [_ [P _]]] Hown].
  pose proof (grown_length _ _ G) as Hlen.
  destruct (fit imgs w) as [[[]|e] w1] eqn:Hfit; cbn [fst snd] in *.
  2:{ rewrite (bind_raised _ _ _ _ _ Hfit). cbn [fst snd].
      split; [exact P|]. split; [exact Hlen|].
      intros l i Hl. exists false. split; [|discriminate].
      rewrite (grown_lookup _ _ _ G); [exact Hl|].
      eapply lookup_lt_Some; exact Hl. }
  rewrite (bind_ok _ _ _ _ _ Hfit).
  destruct (Hown _ eq_refl) as (lm & Hm & Hge).
  pose proof (fit_own_mask imgs w w1 Hfit) as Hmask.
  pose proof (transform_heap_frame imgs c sm w1) as [Hs [Hlen' Hh]].
  split; [rewrite Hs; exact P|]. split; [lia|].
  intros l i Hl.
  assert (Hlt : l < length (heap w)) by (eapply lookup_lt_Some; exact Hl).
  assert (Hl1 : heap w1 !! l = Some i)
    by (rewrite (grown_lookup _ _ _ G Hlt); exact Hl).
  destruct (Hh l i Hl1) as (z & s & E & Pz & Ps).
  destruct z.
  { destruct (Pz eq_refl) as [Hm' _]. rewrite Hm in Hm'.
    injection Hm' as ->. lia. }
  exists s. split; [exact E|].
  intros Hst. destruct (Ps Hst) as [Hi|[Hm'|Hk]]; [exact Hi| |].
  - rewrite Hm in Hm'. injection Hm' as ->. lia.
  - apply Hmask in Hk. lia.
Qed.

(** X12.  Of the images that existed before the call, [fit_transform]
    can change one only, the image it is given, and that one only by
    setting its values that are not finite to zero ("Inf or NaN present
    in the given input images are automatically put to zero").  Every
    other image is left exactly as it was, whatever the configuration
    and the outcome, [allow_overlap=False] included: [fit] works on a
    copy of the maps and on a mask of its own, and the [transform] that
    follows on what that [fit] created. *)
Theorem fit_transform_keeps_existing_images (imgs : option loc)
    (confounds : option signals) (sample_mask : option (list nat))
    (w : world) (l : loc) (i : Nifti1Image) :
  heap w !! l = Some i ->
  let w' := after (fit_transform imgs confounds sample_mask) w in
  (imgs <> Some l -> heap w' !! l = Some i)
  /\ (finite_valued i -> heap w' !! l = Some i)
  /\ (heap w' !! l = Some i \/ heap w' !! l = Some (sanitised i)).
Proof.
  intros Hl w'. subst w'. unfold after.
  pose proof (fit_transform_heap_frame imgs confounds sample_mask w)
    as (_ & _ & Hh).
  destruct (Hh l i Hl) as (s & E & Ps).
  split; [|split].
  - intros Hn. destruct s; [destruct Hn; auto|exact E].
  - intros Hf. destruct s; [|exact E].
    rewrite E. cbn [sanitised_if]. rewrite (sanitised_finite i Hf).
    reflexivity.
  - destruct s; [right|left]; exact E.
Qed.

(** X13.  [fit_transform] with the target "data" resamples at fit time
    only.  Given an image with its three spatial axes, [fit] brings the
    maps and the mask to the grid of that image, so the [transform] that
    follows finds nothing to resample: the call never emits the warning
    "Resampling maps at transform time..." nor the one for the mask. *)
Theorem fit_transform_resamples_at_fit_time_only (li : loc)
    (ii : Nifti1Image) (confounds : option signals)
    (sample_mask : option (list nat)) (w : world) :
  target_is (resampling_target (params (self w))) "data" = true ->
  heap w !! li = Some ii ->
  3 <= length (img_shape ii) ->
  exists new,
    log (after (fit_transform (Some li) confounds sample_mask) w)
    = new ++ log w
    /\ Forall no_warning new.
Proof.
  intros Hd Hli H3. apply extends_app.
  exact (fit_transform_no_warning li ii confounds sample_mask w Hd Hli H3).
Qed.

End FitTransformLog.

Section FitCopies.

Context `{Collaborators}.

Ltac copies_tac :=
  repeat first
    [ apply extends_refl
    | apply extends_cons;
      [first [exact I | intros _; reflexivity | intros [=]]|] ].

Lemma fit_load_copies imgs w :
  wp (fit_load imgs) (fun o w' =>
     extends (copies_only match _maps_img (self w) with
                          | Some m => m
                          | None => maps_img (params (self w))
                          end) (log w) (log w')) w.
Proof.
  unfold fit_load, deepcopy, check_niimg, clean_img, _load_mask.
  wp_go; copies_tac.
Qed.

Lemma fit_align_copies src imgs imgs_ w :
  wp (fit_align imgs imgs_) (fun o w' =>
     extends (copies_only src) (log w) (log w')) w.
Proof.
  unfold fit_align, check_same_fov_raise, check_same_fov, resample_img.
  wp_go; copies_tac.
Qed.

Lemma fit_finish_copies src imgs w :
  wp (fit_finish imgs) (fun o w' =>
     extends (copies_only src) (log w) (log w')) w.
Proof.
  unfold fit_finish, compute_middle_image.
  wp_go; copies_tac.
Qed.

(** X3.  The image [fit] works on is [self._maps_img] when that
    attribute exists -- a subclass sets it before calling [fit] -- and
    the constructor argument [maps_img] otherwise: every deep copy made
    during the call is a copy of that one image. *)
Theorem fit_copies_the_maps_it_is_given (imgs : option loc) (w : world) :
  exists new,
    log (after (fit imgs) w) = new ++ log w
    /\ Forall (copies_only match _maps_img (self w) with
                           | Some m => m
                           | None => maps_img (params (self w))
                           end) new.
Proof.
  apply extends_app. unfold after.
  set (src := match _maps_img (self w) with
              | Some m => m
              | None => maps_img (params (self w))
              end).
  assert (Hwp : wp (fit imgs) (fun _ w' =>
                  extends (copies_only src) (log w) (log w')) w).
  { unfold fit. apply wp_bind.
    eapply wp_mono; [apply fit_check_config_frame|].
    intros o w0 [-> _]. destruct o as [[]|e]; [|constructor].
    apply wp_bind.
    eapply wp_mono; [apply fit_load_copies|].
    intros o w1 E1. fold src in E1. destruct o as [imgs_|e]; [|exact E1].
    apply wp_bind.
    eapply wp_mono; [apply (fit_align_copies src)|].
    intros o w2 E2. pose proof (extends_trans _ _ _ _ E1 E2) as E12.
    destruct o as [[]|e]; [|exact E12].
    eapply wp_mono; [apply (fit_finish_copies src)|].
    intros o w3 E3. exact (extends_trans _ _ _ _ E12 E3). }
  exact Hwp.
Qed.

End FitCopies.

Lemma same_fov_conform_r i a x :
  conform None true (dataobj i) = Some a ->
  same_fov x (mk_img a (affine i)) = same_fov x i.
Proof.
  unfold conform. cbn [orb andb].
  destruct (length (shape (dataobj i)) =? 3) eqn:E; [|discriminate].
  apply Nat.eqb_eq in E. intros [= <-].
  unfold same_fov, img_shape. cbn [dataobj shape affine].
  rewrite take_app_le by lia. reflexivity.
Qed.

Section TransformOneGrid.

Context `{Collaborators}.

Lemma transform_align_one_grid li ii lm im w :
  target_is_None (resampling_target (params (self w))) = true ->
  maps_img_ (self w) = Some (Some lm) ->
  heap w !! lm = Some im ->
  heap w !! li = Some ii ->
  wp (transform_align (Some li)) (fun o w' =>
     forall locals, o = Ok locals ->
       locals = (match mask_img_ (self w) with
                 | Some m => m
                 | None => None
                 end, Some lm) /\
       same_fov im ii = true /\
       forall lk ik,
         mask_img_ (self w) = Some (Some lk) -> heap w !! lk = Some ik ->
         same_fov im ik = true) w.
Proof.
  intros Hn Hmaps Him Hli.
  pose proof (target_is_None_others _ "data" Hn) as Hd.
  unfold transform_align, check_niimg, check_same_fov_raise, check_same_fov,
    resample_img.
  wp_go_known; try (intros; discriminate).
  all: intros ? [= <-]; heap_norm.
  all: repeat match goal with
              | E : _ && _ = true |- _ => apply andb_true_iff in E as [? ?]
              end.
  all: repeat match goal with
              | C : conform None true (dataobj ?i) = Some ?a,
                E : context [same_fov _ (mk_img ?a (affine ?i))] |- _ =>
                  rewrite (same_fov_conform_r i a _ C) in E
              end.
  all: split; [reflexivity|]; split; [assumption|].
  all: intros; simplify_eq; heap_norm; assumption.
Qed.

End TransformOneGrid.

Section TransformOneGridTheorem.

Context `{Collaborators}.

Lemma check_is_fitted_inv w o w' : check_is_fitted w = (o, w') -> w' = w.
Proof.
  unfold check_is_fitted, bind, get_self. cbv beta iota.
  destruct (__sklearn_is_fitted__ (self w)); intros [= _ <-]; reflexivity.
Qed.

(** X10.  With [resampling_target=None], [transform] returns signals only
    for an image that has the field of view of the fitted maps -- same
    first three dimensions, same affine -- the fitted mask, if there is
    one, having it as well; then the extraction is given the fitted maps
    and mask themselves.  Otherwise it raises. *)
Theorem transform_without_target_requires_one_grid (li lm : loc)
    (ii im : Nifti1Image) (confounds : option signals)
    (sample_mask : option (list nat)) (w w' : world) (out : signals) :
  target_is_None (resampling_target (params (self w))) = true ->
  maps_img_ (self w) = Some (Some lm) ->
  heap w !! lm = Some im ->
  heap w !! li = Some ii ->
  transform (Some li) confounds sample_mask w = (Ok out, w') ->
  same_fov im ii = true
  /\ (forall lk ik,
        mask_img_ (self w) = Some (Some lk) -> heap w !! lk = Some ik ->
        same_fov im ik = true)
  /\ exists w1 mask_image,
       mask_img_ (self w) = Some mask_image
       /\ transform_extract (Some li) mask_image (Some lm) confounds
            sample_mask w1 = (Ok out, w').
Proof.
  intros Hn Hmaps Him Hli Hrun.
  unfold transform, transform_single_imgs in Hrun.
  apply bind_ok_inv in Hrun as ([] & w0 & Hc & Hrun).
  apply check_is_fitted_inv in Hc as ->.
  apply bind_ok_inv in Hrun as (locals & w1 & Ha & Hrun).
  apply bind_ok_inv in Hrun as ([] & w2 & Ho & Hrun).
  pose proof (wp_run _ _ _ _ _
                (transform_align_one_grid li ii lm im w Hn Hmaps Him Hli) Ha
                _ eq_refl) as (-> & Hs & Hmask).
  pose proof (wp_run _ _ _ _ _ (transform_align_frame (Some li) w) Ha)
    as [S1 _].
  split; [exact Hs|]. split; [exact Hmask|].
  assert (Hw2 : exists mask_image, mask_img_ (self w) = Some mask_image).
  { unfold transform_align in Ha.
    apply bind_ok_inv in Ha as (m & w3 & Hg & _).
    unfold getattr, bind, get_self in Hg. cbv beta iota in Hg.
    destruct (mask_img_ (self w)) as [m'|]; [|discriminate].
    exists m'. reflexivity. }
  destruct Hw2 as [mask_image Hmk]. rewrite Hmk in Hrun. cbn [fst snd] in *.
  exists w2, mask_image. split; [exact Hmk|exact Hrun].
Qed.

End TransformOneGridTheorem.

(** ** The caller *)

Lemma zip3_length {A B C} (a : list A) (b : list B) (c : list C) :
  length (zip3 a b c)
  = Nat.min (length a) (Nat.min (length b) (length c)).
Proof.
  revert b c. induction a as [|x a IH]; intros [|y b] [|z c];
    cbn [zip3 length]; try reflexivity.
  rewrite IH. reflexivity.
Qed.

Lemma zip3_phenotypes {A B C} (a : list A) (b : list B) (c : list C) :
  map snd (zip3 a b c) = take (length (zip3 a b c)) c.
Proof.
  revert b c. induction a as [|x a IH]; intros [|y b] [|z c];
    cbn [zip3 length map take snd]; try reflexivity.
  rewrite IH. reflexivity.
Qed.

Lemma child_series_snoc series phenotypes s p :
  length series = length phenotypes ->
  child_series (series ++ [s]) (phenotypes ++ [p])
  = child_series series phenotypes
    ++ (if String.eqb p "child" then [s] else []).
Proof.
  revert phenotypes.
  induction series as [|x series IH]; intros [|y phenotypes] Hlen;
    try discriminate.
  - cbn. destruct (String.eqb p "child"); reflexivity.
  - cbn [app child_series]. injection Hlen as Hlen. rewrite (IH _ Hlen).
    destruct (String.eqb y "child"); reflexivity.
Qed.

Lemma child_series_length series phenotypes :
  length series = length phenotypes ->
  length (child_series series phenotypes)
  = length (List.filter (fun p => String.eqb p "child") phenotypes).
Proof.
  revert phenotypes.
  induction series as [|x series IH]; intros [|y phenotypes] Hlen;
    try discriminate; [reflexivity|].
  injection Hlen as Hlen. cbn [child_series List.filter].
  destruct (String.eqb y "child"); cbn [length]; rewrite (IH _ Hlen);
    reflexivity.
Qed.

Section Cohort.

Context `{Collaborators}.

(** The lists stay lined up from one subject to the next. *)
Lemma extract_region_signals_lists subjects so_far w c w' :
  extract_region_signals subjects so_far w = (Ok c, w') ->
  length (pooled_subjects so_far) = length (groups so_far) ->
  children so_far
  = child_series (pooled_subjects so_far) (groups so_far) ->
  length (pooled_subjects c)
  = length (pooled_subjects so_far) + length subjects
  /\ groups c = groups so_far ++ map snd subjects
  /\ length (pooled_subjects c) = length (groups c)
  /\ children c = child_series (pooled_subjects c) (groups c).
Proof.
  revert so_far w.
  induction subjects as [|[[func_file confound_file] phenotype] rest IH];
    intros so_far w Hrun Hlen Hch.
  - injection Hrun as <- _. rewrite app_nil_r, Nat.add_0_r.
    repeat split; assumption.
  - cbn [extract_region_signals] in Hrun.
    apply bind_ok_inv in Hrun as (time_series & w1 & _ & Hrun).
    apply IH in Hrun as (Hp & Hg & Hl & Hc);
      cbn [pooled_subjects groups children] in *.
    + rewrite length_app in Hp. cbn [length map snd] in *.
      rewrite <- app_assoc in Hg.
      repeat split; try assumption. lia.
    + rewrite !length_app. cbn [length]. lia.
    + rewrite (child_series_snoc _ _ _ _ Hlen), <- Hch.
      destruct (String.eqb phenotype "child");
        [reflexivity|rewrite app_nil_r; reflexivity].
Qed.

(** X19.  When the loop over the subjects of the example completes, the
    three lists it filled line up: there is one time series and one
    group label per subject ([zip] stops at the shortest of its lists),
    the labels are the phenotypes in order, and [children] holds, in
    order, the time series of exactly the subjects labelled "child" --
    so the count the example prints is the number of "child" labels. *)
Theorem cohort_lists_line_up (func : list loc) (confounds : list signals)
    (phenotypic : list string) (w w' : world) (c : cohort) :
  region_signals_extraction func confounds phenotypic w = (Ok c, w') ->
  let n := Nat.min (length func)
             (Nat.min (length confounds) (length phenotypic)) in
  length (pooled_subjects c) = n
  /\ groups c = take n phenotypic
  /\ children c = child_series (pooled_subjects c) (groups c)
  /\ length (children c)
     = length (List.filter (fun p => String.eqb p "child") (groups c)).
Proof.
  intros Hrun n. unfold region_signals_extraction in Hrun.
  apply extract_region_signals_lists in Hrun as (Hp & Hg & Hl & Hc);
    [|reflexivity..].
  cbn [pooled_subjects groups length app] in *.
  rewrite zip3_length in Hp. rewrite zip3_phenotypes, zip3_length in Hg.
  repeat split; try assumption.
  rewrite Hc. apply child_series_length. exact Hl.
Qed.


Lemma zip3_func_in {B C} (func : list loc) (b : list B) (c : list C) l :
  In l (map (fun x => fst (fst x)) (zip3 func b c)) -> In l func.
Proof.
  revert b c. induction func as [|x func IH]; intros [|y b] [|z c];
    cbn [zip3 map In fst]; try contradiction.
  intros [->|Hin]; [left; reflexivity|right; exact (IH _ _ Hin)].
Qed.

(** Subject after subject, the constructor arguments are kept, and so
    is every image that existed, up to the sanitising of the functional
    images of the subjects processed. *)
Lemma extract_region_signals_frame subjects so_far w :
  wp (extract_region_signals subjects so_far) (fun _ w' =>
     params (self w') = params (self w) /\
     length (heap w) <= length (heap w') /\
     forall l i, heap w !! l = Some i ->
       exists s,
         heap w' !! l = Some (sanitised_if s i)
         /\ (s = true -> In l (map (fun x => fst (fst x)) subjects))) w.
Proof.
  revert so_far w.
  induction subjects as [|[[func_file confound_file] phenotype] rest IH];
    intros so_far w.
  - cbn [extract_region_signals]. apply wp_ret.
    split; [reflexivity|]. split; [lia|].
    intros l i Hl. exists false. split; [exact Hl|discriminate].
  - cbn [extract_region_signals]. apply wp_bind.
    eapply wp_mono; [apply fit_transform_heap_frame|].
    intros o w1 (P1 & L1 & H1).
    assert (H1' : forall l i, heap w !! l = Some i ->
              exists s,
                heap w1 !! l = Some (sanitised_if s i)
                /\ (s = true ->
                    In l (map (fun x => fst (fst x))
                            ((func_file, confound_file, phenotype) :: rest)))).
    { intros l i Hl. destruct (H1 l i Hl) as (s & E & Ps).
      exists s. split; [exact E|].
      intros Hs. left. cbn [fst]. specialize (Ps Hs). congruence. }
    destruct o as [time_series|e].
    2:{ split; [exact P1|]. split; [exact L1|exact H1']. }
    eapply wp_mono; [apply IH|].
    intros o w2 (P2 & L2 & H2).
    split; [congruence|]. split; [lia|].
    intros l i Hl. destruct (H1' l i Hl) as (s1 & E1 & Ps1).
    destruct (H2 l _ E1) as (s2 & E2 & Ps2).
    exists (s1 || s2). split.
    + rewrite E2. apply f_equal, sanitised_if_twice.
    + intros Hs. destruct s1; [auto|]. right. apply Ps2. exact Hs.
Qed.

(** X20.  Of the images that existed when the loop over the subjects
    started -- the atlas given to the masker, the functional images --
    the loop can change the functional images only, and those only by
    setting their values that are not finite to zero, however many
    subjects were processed and whether or not it completes: each [fit]
    works on a copy of the maps, and each [transform] on what that [fit]
    created and on the subject's image. *)
Theorem cohort_extraction_keeps_the_images (func : list loc)
    (confounds : list signals) (phenotypic : list string) (w : world)
    (l : loc) (i : Nifti1Image) :
  heap w !! l = Some i ->
  let w' := after (region_signals_extraction func confounds phenotypic) w in
  (~ In l func -> heap w' !! l = Some i)
  /\ (finite_valued i -> heap w' !! l = Some i)
  /\ (heap w' !! l = Some i \/ heap w' !! l = Some (sanitised i)).
Proof.
  intros Hl w'. subst w'. unfold after, region_signals_extraction.
  pose proof (extract_region_signals_frame
                (zip3 func confounds phenotypic) (mk_cohort [] [] []) w)
    as (_ & _ & Hh).
  destruct (Hh l i Hl) as (s & E & Ps).
  split; [|split].
  - intros Hn. destruct s; [|exact E].
    destruct Hn. apply (zip3_func_in func confounds phenotypic), Ps.
    reflexivity.
  - intros Hf. destruct s; [|exact E].
    rewrite E. cbn [sanitised_if]. rewrite (sanitised_finite i Hf).
    reflexivity.
  - destruct s; [right|left]; exact E.
Qed.



End Cohort.

Section ReportWarnings.

Context `{Collaborators}.

Lemma wp_plot_maps_any mi n bg comps
    (Q : outcome (list (option string)) -> world -> Prop) w :
  (forall o, Q o w) -> wp (plot_maps mi n bg comps) Q w.
Proof.
  intros HQ. unfold wp.
  assert (Hw : snd (plot_maps mi n bg comps w) = w).
  { induction comps as [|c comps IH]; [reflexivity|].
    cbn [plot_maps]. unfold plot_map, bind, ret, raise.
    destruct ((- Z.of_nat n <=? c)%Z && (c <? Z.of_nat n)%Z);
      [|reflexivity].
    destruct (plot_maps mi n bg comps w) as [[r|e] w1]; exact IH. }
  rewrite Hw. apply HQ.
Qed.

(** The warning of a report: about the missing image, about the first
    subject of several, or none. *)
Lemma embedded_images_warning d mi n comps rc w :
  _report_content (self w) = Some rc ->
  match img d with
  | Some lb => exists bg, heap w !! lb = Some bg
  | None => True
  end ->
  wp (embedded_images d mi n comps) (fun o w' =>
     match img d, dim d with
     | None, _ =>
         log w' = Warned msg_no_image :: log w
         /\ reported_warning w' = Some msg_no_image
     | Some _, Some 5 =>
         log w' = Warned msg_first_subject :: log w
         /\ reported_warning w' = Some msg_first_subject
     | Some _, _ =>
         log w' = log w /\ reported_warning w' = warning_message rc
     end) w.
Proof.
  intros Hrc Hbg. unfold embedded_images, reported_warning.
  wp_step. unfold getattr. wp_go_known.
  all: try (destruct Hbg; congruence).
  all: try (apply wp_plot_maps_any; intros ?; wp_simpl).
  all: repeat match goal with
              | |- context [match ?x with _ => _ end] => destruct x
              end.
  all: try discriminate.
  all: split; reflexivity.
Qed.

End ReportWarnings.

Section ReportWarningsAfterFit.

Context `{Collaborators}.

(** The background of the report is the image [compute_middle_image]
    made of what [fit] was given, with the number of dimensions of that,
    which is not five: [fit] does not return on an image of five
    dimensions. *)
Lemma fit_finish_background imgs w :
  reports (params (self w)) = true ->
  wp (fit_finish imgs) (fun o w' =>
     o = Ok tt ->
     exists d,
       _reporting_data (self w') = Some (Some d) /\
       match imgs with
       | None => img d = None
       | Some li =>
           exists i, heap w !! li = Some i /\
                     dim d = Some (length (img_shape i)) /\
                     length (img_shape i) <> 5 /\
                     is_Some (img d)
       end) w.
Proof.
  intros Hr. unfold fit_finish, compute_middle_image.
  wp_go_known; try (intros; discriminate).
  all: intros _; eexists; split; [reflexivity|].
  all: first [ reflexivity
             | eexists; split; [reflexivity|]; split; [reflexivity|];
               split; [|eexists; reflexivity] ].
  all: repeat match goal with
              | E : (_ =? _) = true |- _ => apply Nat.eqb_eq in E
              | E : (_ =? _) = false |- _ => apply Nat.eqb_neq in E
              end; lia.
Qed.

Lemma reporting_with w n d :
  report_ready w n ->
  _reporting_data (self w) = Some (Some d) ->
  exists mi rc,
    _reporting w = bind (maps_to_be_displayed n) (embedded_images d mi n) w
    /\ _report_content (self w) = Some rc
    /\ match img d with
       | Some lb => exists bg, heap w !! lb = Some bg
       | None => True
       end.
Proof.
  intros (d' & l & mi & rc & Hd' & Hm & Hl & Hn & Hrc & Hbg) Hd.
  assert (d' = d) as -> by congruence.
  exists mi, rc. split; [|split; [exact Hrc|exact Hbg]].
  apply (reporting_selects w d l mi n); assumption.
Qed.

(** X17.  What the report says about the image given to [fit], with
    Matplotlib installed and [reports] on.  After [fit()] without an
    image, the report warns "No image provided to fit ..." and carries
    that message.  After [fit] on an image, the report logs nothing and
    carries no warning: a [fit] that returned was not given an image of
    five dimensions, which [compute_middle_image] refuses, so the
    warning about the first subject is not for a single image. *)
Theorem report_warns_about_the_image_given_to_fit (w0 w : world)
    (imgs : option loc) :
  is_matplotlib_installed = true ->
  reports (params (self w0)) = true ->
  fit imgs w0 = (Ok tt, w) ->
  let w' := after (generate_report (PyStr "all")) w in
  match imgs with
  | None =>
      log w' = Warned msg_no_image :: log w
      /\ reported_warning w' = Some msg_no_image
  | Some li =>
      log w' = log w /\ reported_warning w' = None
      /\ forall ii, heap w0 !! li = Some ii -> length (img_shape ii) <> 5
  end.
Proof.
  intros Hmat Hr Hfit w'. subst w'.
  destruct (fit_report_ready imgs w0 w Hr Hfit)
    as (l & mi & n & _ & _ & _ & Hready).
  destruct (fit_ok_inv _ _ _ Hfit)
    as (imgs_ & w1 & w2 & _ & Hl & Ha & Hf & _ & P2 & _ & G2 & _).
  pose proof (wp_run _ _ _ _ _ (fit_load_report_content imgs w0) Hl
                _ eq_refl) as Hrc.
  pose proof (wp_run _ _ _ _ _ (fit_align_keeps_report_content imgs imgs_ w1)
                Ha) as Hrc2.
  assert (Hr2 : reports (params (self w2)) = true) by (rewrite P2; exact Hr).
  pose proof (wp_run _ _ _ _ _ (fit_finish_reports imgs w2 Hr2) Hf eq_refl)
    as (Hrc3 & _).
  pose proof (wp_run _ _ _ _ _ (fit_finish_background imgs w2 Hr2) Hf
                eq_refl) as (d & Hd & Himg).
  rewrite Hrc2, Hrc in Hrc3.
  unfold after.
  rewrite (generate_report_accepted (PyStr "all") w d Hmat Hd eq_refl).
  destruct (reporting_with (requested (PyStr "all") w) n d Hready Hd)
    as (mi' & rc & Hrep & Hrc' & Hbg).
  assert (Hw : warning_message rc = None).
  { cbn in Hrc'. rewrite Hrc3 in Hrc'. injection Hrc' as <-. reflexivity. }
  rewrite (bind_ok _ _ _ _ _
             (select_everything (requested (PyStr "all") w) n _ eq_refl))
    in Hrep.
  pose proof (embedded_images_warning d mi' n (range (Z.of_nat n)) rc
                (requested (PyStr "all") w) Hrc' Hbg) as Hwarn.
  unfold wp in Hwarn. cbn [log requested] in Hwarn.
  rewrite <- Hrep in Hwarn.
  assert (Hrender : forall o1 w1',
            _reporting (requested (PyStr "all") w) = (o1, w1') ->
            snd (bind _reporting render (requested (PyStr "all") w)) = w1').
  { intros o1 w1' E. unfold bind. rewrite E.
    destruct o1 as [[|x xs]|e]; reflexivity. }
  destruct (_reporting (requested (PyStr "all") w)) as [o1 w1'] eqn:E1.
  rewrite (Hrender _ _ eq_refl). cbn [fst snd] in Hwarn.
  destruct imgs as [li|].
  - destruct Himg as (i & Hi & Hdim & H5 & [lb Hlb]).
    rewrite Hlb, Hdim, Hw in Hwarn.
    assert (Hii : forall ii, heap w0 !! li = Some ii -> ii = i).
    { intros ii Hi0.
      assert (Hlt : li < length (heap w0))
        by (eapply lookup_lt_Some; exact Hi0).
      rewrite (grown_lookup _ _ _ G2 Hlt) in Hi. congruence. }
    assert (Hgoal : log w1' = log w /\ reported_warning w1' = None).
    { destruct (length (img_shape i)) as [|[|[|[|[|[|k]]]]]];
        try exact Hwarn. contradiction. }
    destruct Hgoal as [Hlog Hrw]. split; [exact Hlog|]. split; [exact Hrw|].
    intros ii Hi0. rewrite (Hii ii Hi0). exact H5.
  - rewrite Himg in Hwarn. exact Hwarn.
Qed.

(** X18.  An empty request.  With Matplotlib installed, [generate_report]
    refuses an empty list with [TypeError] and leaves the masker as it
    was: NumPy gives an empty list a floating-point type.  An empty
    array of integers passes that check; on a masker fitted with
    [reports] on it then fails in [max()] with [ValueError], after the
    request was stored in [displayed_maps]. *)
Theorem report_of_an_empty_request (w0 w : world) (imgs : option loc) :
  is_matplotlib_installed = true ->
  reports (params (self w0)) = true ->
  fit imgs w0 = (Ok tt, w) ->
  generate_report (PyList []) w
  = (Raised (TypeError msg_displayed_maps_type), w)
  /\ generate_report (PyArray []) w
     = (Raised (ValueError "max() arg is an empty sequence"),
        requested (PyArray []) w).
Proof.
  intros Hmat Hr Hfit. split.
  - unfold generate_report. rewrite Hmat. reflexivity.
  - destruct (fit_report_ready imgs w0 w Hr Hfit)
      as (l & mi & n & _ & _ & _ & Hready).
    apply (generate_report_raised (PyArray []) w n _ _ Hmat Hready eq_refl).
    destruct (reporting_ready (requested (PyArray []) w) n Hready)
      as (d & mi' & -> & _).
    apply bind_raised. unfold maps_to_be_displayed.
    rewrite (bind_ok _ _ _ _ _
               (getattr_ok "displayed_maps" displayed_maps
                  (requested (PyArray []) w) (PyArray []) eq_refl)).
    reflexivity.
Qed.

End ReportWarningsAfterFit.

(** ** The criterion of the overlap check *)

Lemma filter_two_inv {A} (P : A -> bool) (l : list A) :
  1 < length (List.filter P l) ->
  exists j k x y,
    j <> k /\ l !! j = Some x /\ l !! k = Some y /\
    P x = true /\ P y = true.
Proof.
  induction l as [|a l IH]; cbn [List.filter]; [cbn; lia|].
  destruct (P a) eqn:Pa.
  - cbn [length]. intros Hlen.
    destruct (List.filter P l) as [|b rest] eqn:Hf; [cbn in Hlen; lia|].
    assert (Hin : In b (List.filter P l)) by (rewrite Hf; left; reflexivity).
    apply filter_In in Hin as [Hin Pb].
    apply list_elem_of_In, list_elem_of_lookup_1 in Hin as [k Hk].
    exists 0, (S k), a, b. repeat split; try assumption. discriminate.
  - intros Hlen.
    destruct (IH Hlen) as (j & k & x & y & Hjk & Hj & Hk & Px & Py).
    exists (S j), (S k), x, y. repeat split; try assumption. congruence.
Qed.

Lemma filter_map_length {A B} (P : B -> bool) (f : A -> B) (l : list A) :
  length (List.filter P (map f l))
  = length (List.filter (fun x => P (f x)) l).
Proof.
  induction l as [|a l IH]; [reflexivity|].
  cbn [map List.filter]. destruct (P (f a)); cbn [length]; rewrite IH;
    reflexivity.
Qed.

Lemma counted_float dt eps v :
  finfo_eps dt = Some eps ->
  voxel_pos (zeroed eps v) = true <-> counted dt v.
Proof.
  intros He. pose proof (finfo_eps_pos _ _ He) as Hpos.
  unfold counted, zeroed. rewrite He.
  destruct v as [q| | |]; cbn [voxel_lt voxel_pos]; try (split; easy).
  unfold Qltb. destruct (Qle_bool eps q) eqn:E; cbn [negb voxel_pos].
  - apply Qle_bool_iff in E. unfold Qltb. split; [intros _; exact E|].
    intros _. apply negb_true_iff.
    destruct (Qle_bool q 0) eqn:E0; [|reflexivity].
    apply Qle_bool_iff in E0. lra.
  - split; [discriminate|]. intros Hq. apply Qle_bool_iff in Hq.
    congruence.
Qed.

Lemma counted_integer dt v :
  finfo_eps dt = None -> voxel_pos v = true <-> counted dt v.
Proof.
  intros He. unfold counted. rewrite He.
  destruct v as [q| | |]; cbn [voxel_pos]; try (split; easy).
  unfold Qltb. rewrite negb_true_iff.
  split.
  - intros E. destruct (Qlt_le_dec 0 q) as [Hq|Hq]; [exact Hq|].
    apply Qle_bool_iff in Hq. congruence.
  - intros Hq. destruct (Qle_bool q 0) eqn:E; [|reflexivity].
    apply Qle_bool_iff in E. lra.
Qed.

(** What the test of the check says about the array it is run on. *)
Lemma overlap_detected_iff (P : voxel -> bool) (data : list (list voxel)) :
  existsb (fun row => 1 <? length (List.filter P row)) data = true
  <-> exists row j k x y,
        In row data /\ j <> k /\ row !! j = Some x /\ row !! k = Some y /\
        P x = true /\ P y = true.
Proof.
  rewrite existsb_exists. split.
  - intros (row & Hin & Hlen). apply Nat.ltb_lt in Hlen.
    destruct (filter_two_inv P row Hlen)
      as (j & k & x & y & Hjk & Hj & Hk & Px & Py).
    exists row, j, k, x, y. repeat split; assumption.
  - intros (row & j & k & x & y & Hin & Hjk & Hj & Hk & Px & Py).
    exists row. split; [exact Hin|]. apply Nat.ltb_lt.
    exact (filter_two P row j k x y Hjk Hj Hk Px Py).
Qed.

Lemma overlap_detected_zeroed eps a :
  overlap_detected (zero_below eps a) = true
  <-> exists row j k x y,
        In row (rows a) /\ j <> k /\ row !! j = Some x /\
        row !! k = Some y /\
        voxel_pos (zeroed eps x) = true /\ voxel_pos (zeroed eps y) = true.
Proof.
  unfold overlap_detected, zero_below, count_positive. cbn [rows].
  rewrite <- (overlap_detected_iff (fun v => voxel_pos (zeroed eps v))).
  induction (rows a) as [|row data IH]; [reflexivity|].
  cbn [map existsb]. rewrite !orb_true_iff, IH, filter_map_length.
  reflexivity.
Qed.

Section OverlapCriterion.

Context `{Collaborators}.

Lemma finfo_eps_None_kind d :
  finfo_eps d = None -> String.eqb (kind d) "f" = false.
Proof. destruct d; try discriminate; reflexivity. Qed.

(** The outcome of the check, from the values of the maps. *)
Lemma check_overlap_outcome w lm i :
  allow_overlap (params (self w)) = false ->
  heap w !! lm = Some i ->
  fst (check_overlap (Some lm) w)
  = if overlap_detected
         match finfo_eps (arr_dtype (dataobj i)) with
         | Some eps => zero_below eps (dataobj i)
         | None => dataobj i
         end
    then Raised (ValueError msg_overlap)
    else Ok tt.
Proof.
  intros Ha Hl.
  destruct (finfo_eps (arr_dtype (dataobj i))) as [eps|] eqn:He.
  - pose proof (finfo_eps_kind _ _ He) as Hk.
    assert (Hpoked : <[lm := mk_img (zero_below eps (dataobj i)) (affine i)]>
                       (heap w) !! lm
                     = Some (mk_img (zero_below eps (dataobj i)) (affine i))).
    { apply list_lookup_insert_eq. eapply lookup_lt_Some. exact Hl. }
    assert (Hwp : wp (check_overlap (Some lm)) (fun o _ =>
              o = if overlap_detected (zero_below eps (dataobj i))
                  then Raised (ValueError msg_overlap) else Ok tt) w).
    { unfold check_overlap. wp_go_known; cbn [dataobj] in *;
        first [ reflexivity | congruence
              | match goal with
                | E : overlap_detected _ = _ |- _ => rewrite E; reflexivity
                end ]. }
    exact Hwp.
  - pose proof (finfo_eps_None_kind _ He) as Hk.
    assert (Hwp : wp (check_overlap (Some lm)) (fun o _ =>
              o = if overlap_detected (dataobj i)
                  then Raised (ValueError msg_overlap) else Ok tt) w).
    { unfold check_overlap. wp_go_known; cbn [dataobj] in *;
        first [ reflexivity | congruence
              | match goal with
                | E : overlap_detected _ = _ |- _ => rewrite E; reflexivity
                end ]. }
    exact Hwp.
Qed.

(** X8.  The exact criterion of the overlap check (lines 654 to 669).
    With [allow_overlap=False], the check raises its [ValueError] if and
    only if some voxel has a counted value in two different maps, a
    counted value being a positive one that, on floating-point maps, is
    not below the machine epsilon of the type.  Negative values and NaN
    never count, and the mask is not consulted. *)
Theorem overlap_error_criterion (w : world) (lm : loc) (i : Nifti1Image) :
  allow_overlap (params (self w)) = false ->
  heap w !! lm = Some i ->
  outcome_of (check_overlap (Some lm)) w = Raised (ValueError msg_overlap)
  <-> two_counted (dataobj i).
Proof.
  intros Ha Hl. unfold outcome_of.
  rewrite (check_overlap_outcome w lm i Ha Hl). unfold two_counted.
  destruct (finfo_eps (arr_dtype (dataobj i))) as [eps|] eqn:He.
  - destruct (overlap_detected (zero_below eps (dataobj i))) eqn:Hd.
    + split; [intros _|reflexivity].
      apply overlap_detected_zeroed in Hd
        as (row & j & k & x & y & Hin & Hjk & Hj & Hk & Px & Py).
      exists row, j, k, x, y. repeat split; try assumption.
      * apply (counted_float _ eps); assumption.
      * apply (counted_float _ eps); assumption.
    + split; [discriminate|].
      intros (row & j & k & x & y & Hin & Hjk & Hj & Hk & Px & Py).
      apply (counted_float _ eps) in Px; [|exact He].
      apply (counted_float _ eps) in Py; [|exact He].
      assert (Hd' : overlap_detected (zero_below eps (dataobj i)) = true).
      { apply overlap_detected_zeroed.
        exists row, j, k, x, y. repeat split; assumption. }
      congruence.
  - unfold overlap_detected, count_positive.
    destruct (existsb (fun row => 1 <? length (List.filter voxel_pos row))
                (rows (dataobj i))) eqn:Hd.
    + split; [intros _|reflexivity].
      apply overlap_detected_iff in Hd
        as (row & j & k & x & y & Hin & Hjk & Hj & Hk & Px & Py).
      exists row, j, k, x, y. repeat split; try assumption.
      * apply counted_integer; assumption.
      * apply counted_integer; assumption.
    + split; [discriminate|].
      intros (row & j & k & x & y & Hin & Hjk & Hj & Hk & Px & Py).
      apply counted_integer in Px; [|exact He].
      apply counted_integer in Py; [|exact He].
      assert (Hd' : existsb
                      (fun row => 1 <? length (List.filter voxel_pos row))
                      (rows (dataobj i)) = true).
      { apply overlap_detected_iff.
        exists row, j, k, x, y. repeat split; assumption. }
      congruence.
Qed.

End OverlapCriterion.

Lemma zeroed_idempotent eps v :
  (0 < eps)%Q -> zeroed eps (zeroed eps v) = zeroed eps v.
Proof.
  intros Hpos. unfold zeroed.
  destruct (voxel_lt v eps) eqn:E; [|rewrite E; reflexivity].
  cbn [voxel_lt]. unfold Qltb.
  destruct (Qle_bool eps 0) eqn:E0; [|reflexivity].
  apply Qle_bool_iff in E0. lra.
Qed.

Lemma zero_below_idempotent eps a :
  (0 < eps)%Q -> zero_below eps (zero_below eps a) = zero_below eps a.
Proof.
  intros Hpos. unfold zero_below. cbn [arr_dtype shape rows]. f_equal.
  rewrite map_map. apply map_ext. intros row.
  rewrite map_map. apply map_ext. intros v.
  apply zeroed_idempotent, Hpos.
Qed.

Lemma zeroed_image_idempotent i :
  zeroed_image (zeroed_image i) = zeroed_image i.
Proof.
  unfold zeroed_image.
  destruct (finfo_eps (arr_dtype (dataobj i))) as [eps|] eqn:E;
    cbn [dataobj affine zero_below arr_dtype]; rewrite E; [|reflexivity].
  rewrite (zero_below_idempotent eps (dataobj i) (finfo_eps_pos _ _ E)).
  reflexivity.
Qed.

Lemma zeroed_if_twice z1 z2 i :
  zeroed_if z2 (zeroed_if z1 i) = zeroed_if (z1 || z2) i.
Proof.
  destruct z1, z2; cbn [zeroed_if orb]; try reflexivity.
  apply zeroed_image_idempotent.
Qed.

(** Zeroing the values below the machine epsilon keeps an image of
    finite values one. *)
Lemma zeroed_image_finite i :
  finite_valued i -> finite_valued (zeroed_image i).
Proof.
  unfold finite_valued, zeroed_image. intros Hf.
  destruct (finfo_eps (arr_dtype (dataobj i))) as [eps|]; [|exact Hf].
  cbn [dataobj zero_below rows].
  apply Forall_map. eapply Forall_impl; [exact Hf|].
  intros row Hrow. apply Forall_map. eapply Forall_impl; [exact Hrow|].
  intros v Hv. cbn beta. unfold zeroed.
  destruct (voxel_lt v eps); [reflexivity|exact Hv].
Qed.

Lemma zeroed_if_finite z i :
  finite_valued i -> finite_valued (zeroed_if z i).
Proof. destruct z; [apply zeroed_image_finite|exact id]. Qed.

Lemma sanitised_if_finite s i :
  finite_valued i -> sanitised_if s i = i.
Proof. destruct s; [apply sanitised_finite|reflexivity]. Qed.

Section ManyTransforms.

Context `{Collaborators}.

(** X7.  An invariant of the fitted maps under [transform].  On a
    masker whose fitted maps image holds finite values only, as [fit]
    leaves it, whatever series of [transform] calls is made, with
    whatever images and outcomes, the masker keeps all its attributes
    and the fitted maps image is at every point either as it was or as
    it was with the values below the machine epsilon set to zero: the
    zeroing of the overlap check is the only change, it takes
    [allow_overlap=False], and it happens once. *)
Theorem transforms_change_the_fitted_maps_once
    (calls : list (option loc * option signals * option (list nat)))
    (w : world) (lm : loc) (i : Nifti1Image) :
  maps_img_ (self w) = Some (Some lm) ->
  heap w !! lm = Some i ->
  finite_valued i ->
  let w' := after_transforms calls w in
  self w' = self w
  /\ (heap w' !! lm = Some i
      \/ (allow_overlap (params (self w)) = false
          /\ heap w' !! lm = Some (zeroed_image i))).
Proof.
  intros Hm Hl Hfin w'. subst w'. unfold after_transforms.
  assert (Hgen : forall w1,
            self w1 = self w ->
            (exists z, heap w1 !! lm = Some (zeroed_if z i)
                       /\ (z = true ->
                           allow_overlap (params (self w)) = false)) ->
            let w' := fold_left
                        (fun w c => after (transform (fst (fst c))
                                             (snd (fst c)) (snd c)) w)
                        calls w1 in
            self w' = self w
            /\ exists z, heap w' !! lm = Some (zeroed_if z i)
                         /\ (z = true ->
                             allow_overlap (params (self w)) = false)).
  { induction calls as [|[[imgs c] sm] calls IH]; intros w1 Hs Hh.
    - split; assumption.
    - cbn [fold_left fst snd]. apply IH.
      + pose proof (transform_heap_frame imgs c sm w1) as [Hs1 _].
        unfold after, transform. congruence.
      + pose proof (transform_heap_frame imgs c sm w1) as [_ [_ Hf]].
        unfold after, transform.
        destruct Hh as (z & Hz & Pz).
        destruct (Hf lm _ Hz) as (z' & s & E & Pz' & _).
        exists (z || z'). split.
        * rewrite E, zeroed_if_twice.
          rewrite sanitised_if_finite; [reflexivity|].
          apply zeroed_if_finite, Hfin.
        * intros Hzz. destruct z; [auto|].
          destruct z'; [|discriminate].
          destruct (Pz' eq_refl) as [_ Ha]. rewrite Hs in Ha. exact Ha. }
  destruct (Hgen w eq_refl) as [Hs (z & Hz & Pz)].
  { exists false. split; [exact Hl|discriminate]. }
  split; [exact Hs|].
  destruct z; [right|left; exact Hz].
  split; [apply Pz; reflexivity|exact Hz].
Qed.

End ManyTransforms.

Lemma same_fov_refl i : same_fov i i = true.
Proof.
  unfold same_fov. rewrite shape_eqb_refl, allclose_refl. reflexivity.
Qed.

Lemma target_is_mask t :
  target_is t "mask" = true ->
  target_is t "data" = false /\ target_is t "maps" = false
  /\ target_is_None t = false.
Proof.
  destruct t as [s|]; [|discriminate]. cbn [target_is target_is_None].
  intros E. apply String.eqb_eq in E. subst s. repeat split.
Qed.

Ltac decide_tests :=
  repeat match goal with
         | E : negb _ = false |- _ => apply negb_false_iff in E
         | E : negb _ = true |- _ => apply negb_true_iff in E
         end;
  try match goal with
      | E : same_fov ?x ?x = false |- _ =>
          rewrite same_fov_refl in E; discriminate
      end.

Section FitToTarget.

Context `{Collaborators}.

(** With the mask as the target, the maps are brought to the grid of the
    mask, and the mask stays as it was loaded. *)
Lemma fit_align_to_mask imgs imgs_ w :
  target_is (resampling_target (params (self w))) "mask" = true ->
  wp (fit_align imgs imgs_) (fun o w' =>
     o = Ok tt ->
     forall lk,
       mask_img_ (self w') = Some (Some lk) ->
       exists ik lm im,
         heap w' !! lk = Some ik /\
         maps_img_ (self w') = Some (Some lm) /\ heap w' !! lm = Some im /\
         (3 <= length (img_shape ik) -> same_fov ik im = true)) w.
Proof.
  intros Hk. destruct (target_is_mask _ Hk) as (Hd & Hm & Hn).
  unfold fit_align, check_same_fov_raise, check_same_fov, resample_img.
  wp_go_known; try (intros; discriminate).
  all: intros _ lk Hlk; simplify_eq; heap_norm; decide_tests.
  all: do 3 eexists; split; [solve [solve_lookup]|];
    split; [first [reflexivity|eassumption]|];
    split; [solve [solve_lookup]|].
  all: intros H3.
  all: first [assumption | apply same_fov_resampled; assumption].
Qed.

(** With the maps as the target, the mask is brought to the grid of the
    maps, and the maps stay as they were cleaned. *)
Lemma fit_align_to_maps imgs imgs_ lm0 w :
  target_is (resampling_target (params (self w))) "maps" = true ->
  maps_img_ (self w) = Some (Some lm0) ->
  wp (fit_align imgs imgs_) (fun o w' =>
     o = Ok tt ->
     forall lk,
       mask_img_ (self w') = Some (Some lk) ->
       exists ik lm im,
         heap w' !! lk = Some ik /\
         maps_img_ (self w') = Some (Some lm) /\ heap w' !! lm = Some im /\
         (3 <= length (img_shape im) -> same_fov im ik = true)) w.
Proof.
  intros Hm Hown. destruct (target_is_maps _ Hm) as (Hd & Hk & Hn).
  unfold fit_align, check_same_fov_raise, check_same_fov, resample_img.
  wp_go_known; try (intros; discriminate).
  all: intros _ lk Hlk; simplify_eq; heap_norm; decide_tests.
  all: do 3 eexists; split; [solve [solve_lookup]|];
    split; [first [reflexivity|eassumption]|];
    split; [solve [solve_lookup]|].
  all: intros H3.
  all: first [assumption | apply same_fov_resampled; assumption].
Qed.

(** X22.  [resampling_target] names the image that gives the grid.  When
    [fit] returns: with the target "data" and an image given to [fit],
    the fitted maps and the fitted mask have the field of view of that
    image; with the target "mask", the fitted maps have the field of
    view of the fitted mask; with the target "maps", the fitted mask has
    the field of view of the fitted maps.  (An image gives a grid when it
    has its three spatial axes.) *)
Theorem fit_brings_maps_and_mask_to_the_target_grid (imgs : option loc)
    (w w' : world) (lm : loc) (im : Nifti1Image) :
  fit imgs w = (Ok tt, w') ->
  maps_img_ (self w') = Some (Some lm) ->
  heap w' !! lm = Some im ->
  (target_is (resampling_target (params (self w))) "data" = true ->
   forall li ii,
     imgs = Some li -> heap w !! li = Some ii ->
     3 <= length (img_shape ii) ->
     same_fov ii im = true
     /\ forall lk,
          mask_img_ (self w') = Some (Some lk) ->
          exists ik, heap w' !! lk = Some ik /\ same_fov ii ik = true)
  /\ (target_is (resampling_target (params (self w))) "mask" = true ->
      forall lk ik,
        mask_img_ (self w') = Some (Some lk) -> heap w' !! lk = Some ik ->
        3 <= length (img_shape ik) ->
        same_fov ik im = true)
  /\ (target_is (resampling_target (params (self w))) "maps" = true ->
      forall lk,
        mask_img_ (self w') = Some (Some lk) ->
        exists ik, heap w' !! lk = Some ik /\ same_fov im ik = true).
Proof.
  intros Hfit Hlm Him.
  destruct (fit_ok_inv _ _ _ Hfit)
    as (imgs_ & w1 & w2 & _ & Hl & Ha & Hf & P1 & _ & G1 & _ & O1 & _).
  pose proof (wp_run _ _ _ _ _ (fit_load_same_image imgs w) Hl _ eq_refl)
    as ->.
  pose proof (wp_run _ _ _ _ _ (fit_finish_keeps imgs w2) Hf)
    as (Hm' & Hk' & extra & Hh).
  pose proof (wp_run _ _ _ _ _ (fit_finish_result imgs w2) Hf eq_refl)
    as (lm' & im' & n3 & Hlm' & Him' & Hs & _).
  assert (lm' = lm) as -> by congruence.
  assert (im' = im) as -> by congruence.
  assert (H4 : 3 <= length (img_shape im)).
  { apply lookup_lt_Some in Hs. lia. }
  assert (Hkeep : forall l i, heap w2 !! l = Some i -> heap w' !! l = Some i).
  { intros l i Hi. rewrite Hh. rewrite lookup_app_l; [exact Hi|].
    eapply lookup_lt_Some; exact Hi. }
  split; [|split].
  - intros Hd li ii -> Hii H3.
    assert (Hli1 : heap w1 !! li = Some ii).
    { etrans; [apply (grown_lookup _ _ _ G1)|exact Hii].
      eapply lookup_lt_Some; exact Hii. }
    rewrite <- P1 in Hd.
    pose proof (wp_run _ _ _ _ _ (fit_align_to_data li ii w1 Hd Hli1 H3) Ha
                  eq_refl) as (_ & lm2 & im2 & Hm2 & Him2 & Hs2 & Hmask).
    apply Hkeep in Him2.
    assert (lm2 = lm) as -> by congruence.
    assert (im2 = im) as -> by congruence.
    split; [exact Hs2|].
    intros lk Hlk. rewrite Hk' in Hlk.
    destruct (Hmask lk Hlk) as (ik & Hik & Hsk). exists ik. auto.
  - intros Hk lk ik Hlk Hik H3. rewrite <- P1 in Hk.
    rewrite Hk' in Hlk.
    destruct (wp_run _ _ _ _ _ (fit_align_to_mask imgs imgs w1 Hk) Ha
                eq_refl lk Hlk) as (ik2 & lm2 & im2 & Hik2 & Hm2 & Him2 & Hs2).
    apply Hkeep in Him2. apply Hkeep in Hik2.
    assert (lm2 = lm) as -> by congruence.
    assert (im2 = im) as -> by congruence.
    assert (ik2 = ik) as -> by congruence.
    exact (Hs2 H3).
  - intros Hm lk Hlk. rewrite <- P1 in Hm.
    rewrite Hk' in Hlk.
    destruct O1 as (lm0 & Hown & _).
    destruct (wp_run _ _ _ _ _ (fit_align_to_maps imgs imgs lm0 w1 Hm Hown)
                Ha eq_refl lk Hlk)
      as (ik & lm2 & im2 & Hik & Hm2 & Him2 & Hs2).
    apply Hkeep in Him2. apply Hkeep in Hik.
    assert (lm2 = lm) as -> by congruence.
    assert (im2 = im) as -> by congruence.
    exists ik. split; [exact Hik|exact (Hs2 H4)].
Qed.

End FitToTarget.

Lemma conform_shape i a :
  conform None true (dataobj i) = Some a ->
  3 <= length (img_shape (mk_img a (affine i))).
Proof.
  unfold conform. cbn [orb andb].
  destruct (length (shape (dataobj i)) =? 3) eqn:E; [|discriminate].
  apply Nat.eqb_eq in E. intros [= <-].
  unfold img_shape. cbn [dataobj shape]. rewrite length_app. lia.
Qed.

Section TransformToData.

Context `{Collaborators}.

(** X23.  With the target "data", the maps and the mask that [transform]
    hands to the extraction are on the grid of the image to transform,
    an image with its three spatial axes: each is the fitted image when
    that has the field of view of the input, and otherwise an image
    resampled for this call. *)
Theorem transform_brings_maps_and_mask_to_the_data_grid (li : loc)
    (ii : Nifti1Image) (w w1 : world) (mask1 maps1 : option loc) :
  target_is (resampling_target (params (self w))) "data" = true ->
  heap w !! li = Some ii ->
  3 <= length (img_shape ii) ->
  transform_align (Some li) w = (Ok (mask1, maps1), w1) ->
  (exists lm im,
     maps1 = Some lm /\ heap w1 !! lm = Some im /\ same_fov ii im = true
     /\ (maps_img_ (self w) = Some (Some lm)
         \/ length (heap w) <= lm))
  /\ (forall lk,
        mask1 = Some lk ->
        exists ik,
          heap w1 !! lk = Some ik /\ same_fov ii ik = true
          /\ (mask_img_ (self w) = Some (Some lk)
              \/ length (heap w) <= lk)).
Proof.
  intros Hd Hli H3 Hrun.
  destruct (target_is_data _ Hd) as (Hm & Hk & Hn).
  assert (Hwp : wp (transform_align (Some li)) (fun o w1 =>
            forall mask1 maps1, o = Ok (mask1, maps1) ->
              (exists lm im,
                 maps1 = Some lm /\ heap w1 !! lm = Some im /\
                 same_fov ii im = true
                 /\ (maps_img_ (self w) = Some (Some lm)
                     \/ length (heap w) <= lm))
              /\ (forall lk,
                    mask1 = Some lk ->
                    exists ik,
                      heap w1 !! lk = Some ik /\ same_fov ii ik = true
                      /\ (mask_img_ (self w) = Some (Some lk)
                          \/ length (heap w) <= lk))) w).
  { unfold transform_align, check_niimg, check_same_fov_raise,
      check_same_fov, resample_img.
    wp_go_known; try (intros; discriminate).
    all: intros ? ? [= <- <-]; heap_norm; decide_tests.
    all: repeat match goal with
                | C : conform None true (dataobj ?i) = Some ?a,
                  E : context [same_fov (mk_img ?a (affine ?i)) _] |- _ =>
                    rewrite (same_fov_conform i a _ C) in E
                end.
    all: split;
      [do 2 eexists; split; [reflexivity|]; split; [solve [solve_lookup]|];
       split
      |intros lk Hlk;
       first [ discriminate Hlk
             | injection Hlk as <-; eexists; split; [solve [solve_lookup]|];
               split ]].
    all: try first [ left; first [reflexivity|assumption]
                   | right; repeat rewrite length_app; simpl; lia ].
    all: try assumption.
    all: try match goal with
             | C : conform None true (dataobj ?i) = Some ?a
               |- same_fov ?i _ = true =>
                 rewrite <- (same_fov_conform i a _ C);
                 apply same_fov_resampled, (conform_shape i a C)
             end.
    all: apply same_fov_resampled; assumption. }
  exact (wp_run _ _ _ _ _ Hwp Hrun _ _ eq_refl).
Qed.

End TransformToData.

(** ** The further properties on the concrete setting *)

Lemma fit_counts_the_maps_witness :
  let w := new_default in
  let w' := fitted_default in
  fit None w = (Ok tt, w')
  /\ check_is_fitted w' = (Ok tt, w')
  /\ exists l i n,
       maps_img_ (self w') = Some (Some l) /\ heap w' !! l = Some i /\
       img_shape i !! 3%nat = Some n /\ n_elements_ (self w') = Some n.
Proof.
  intros w w'.
  assert (Hfit : fit None w = (Ok tt, w')) by (vm_compute; reflexivity).
  split; [exact Hfit|].
  exact (fit_counts_the_maps None w w' Hfit).
Defined.

Lemma fit_without_reports_witness :
  let w := new_masker (set_reports false (default_params (Some 0%nat))) in
  let w' := after (fit None) w in
  reports (params (self w)) = false
  /\ fit None w = (Ok tt, w')
  /\ _reporting_data (self w') = Some None
  /\ _reporting w' = (Ok [None], w').
Proof.
  intros w w'.
  assert (Hr : reports (params (self w)) = false) by reflexivity.
  assert (Hfit : fit None w = (Ok tt, w')) by (vm_compute; reflexivity).
  split; [exact Hr|]. split; [exact Hfit|].
  exact (fit_without_reports_gives_empty_report None w w' Hr Hfit).
Defined.

(** With a mask and an image: the three grids are compared. *)
Lemma fit_without_target_witness :
  let w := new_masker (set_mask_img (Some 7%nat)
                         (set_resampling_target None
                            (default_params (Some 0%nat)))) in
  let w' := after (fit (Some 5%nat)) w in
  target_is_None (resampling_target (params (self w))) = true
  /\ fit (Some 5%nat) w = (Ok tt, w')
  /\ mask_img_ (self w') = Some (Some 10%nat)
  /\ exists lm im,
       maps_img_ (self w') = Some (Some lm) /\ heap w' !! lm = Some im
       /\ (forall lk,
             mask_img_ (self w') = Some (Some lk) ->
             exists ik, heap w' !! lk = Some ik /\ same_fov im ik = true)
       /\ (forall li,
             Some 5%nat = Some li ->
             exists ii, heap w' !! li = Some ii /\ same_fov im ii = true).
Proof.
  intros w w'.
  assert (Hn : target_is_None (resampling_target (params (self w))) = true)
    by reflexivity.
  assert (Hfit : fit (Some 5%nat) w = (Ok tt, w'))
    by (vm_compute; reflexivity).
  assert (Hk : mask_img_ (self w') = Some (Some 10%nat))
    by (vm_compute; reflexivity).
  split; [exact Hn|]. split; [exact Hfit|]. split; [exact Hk|].
  exact (fit_without_target_requires_one_grid (Some 5%nat) w w' Hn Hfit).
Defined.

(** The same masker given an image on another grid: [fit] raises. *)
Example fit_without_target_refuses_another_grid :
  outcome_of (fit (Some 6%nat))
    (new_masker (set_mask_img (Some 7%nat)
                   (set_resampling_target None
                      (default_params (Some 0%nat)))))
  = Raised (ValueError msg_fov).
Proof. vm_compute. reflexivity. Qed.

Lemma transforms_change_the_fitted_maps_once_witness :
  let w := strict_signed in
  let calls := [(Some 5%nat, @None signals, @None (list nat));
                (Some 5%nat, None, None)] in
  let w' := after_transforms calls w in
  maps_img_ (self w) = Some (Some 9%nat)
  /\ heap w !! 9%nat = Some signed_maps
  /\ finite_valued signed_maps
  /\ self w' = self w
  /\ (heap w' !! 9%nat = Some signed_maps
      \/ (allow_overlap (params (self w)) = false
          /\ heap w' !! 9%nat = Some (zeroed_image signed_maps))).
Proof.
  intros w calls w'.
  assert (Hm : maps_img_ (self w) = Some (Some 9%nat))
    by (vm_compute; reflexivity).
  assert (Hl : heap w !! 9%nat = Some signed_maps)
    by (vm_compute; reflexivity).
  assert (Hf : finite_valued signed_maps)
    by (repeat constructor).
  split; [exact Hm|]. split; [exact Hl|]. split; [exact Hf|].
  exact (transforms_change_the_fitted_maps_once calls w 9%nat signed_maps
           Hm Hl Hf).
Defined.

Lemma overlap_error_criterion_witness :
  let w := strict_overlapping in
  allow_overlap (params (self w)) = false
  /\ heap w !! 9%nat = Some overlapping_maps
  /\ (outcome_of (check_overlap (Some 9%nat)) w
      = Raised (ValueError msg_overlap)
      <-> two_counted (dataobj overlapping_maps)).
Proof.
  intros w.
  assert (Ha : allow_overlap (params (self w)) = false)
    by (vm_compute; reflexivity).
  assert (Hl : heap w !! 9%nat = Some overlapping_maps)
    by (vm_compute; reflexivity).
  split; [exact Ha|]. split; [exact Hl|].
  exact (overlap_error_criterion w 9%nat overlapping_maps Ha Hl).
Defined.


Lemma transform_without_target_witness :
  let w := fitted_two_maps in
  let w' := after (transform (Some 5%nat) None None) w in
  target_is_None (resampling_target (params (self w))) = true
  /\ maps_img_ (self w) = Some (Some 9%nat)
  /\ heap w !! 9%nat = Some disjoint_maps
  /\ heap w !! 5%nat = Some data_same_grid
  /\ transform (Some 5%nat) None None w = (Ok disjoint_signals, w')
  /\ same_fov disjoint_maps data_same_grid = true
  /\ (forall lk ik,
        mask_img_ (self w) = Some (Some lk) -> heap w !! lk = Some ik ->
        same_fov disjoint_maps ik = true)
  /\ exists w1 mask_image,
       mask_img_ (self w) = Some mask_image
       /\ transform_extract (Some 5%nat) mask_image (Some 9%nat) None None w1
          = (Ok disjoint_signals, w').
Proof.
  intros w w'.
  assert (Hn : target_is_None (resampling_target (params (self w))) = true)
    by (vm_compute; reflexivity).
  assert (Hm : maps_img_ (self w) = Some (Some 9%nat))
    by (vm_compute; reflexivity).
  assert (Hl : heap w !! 9%nat = Some disjoint_maps)
    by (vm_compute; reflexivity).
  assert (Hi : heap w !! 5%nat = Some data_same_grid)
    by (vm_compute; reflexivity).
  assert (Hrun : transform (Some 5%nat) None None w
                 = (Ok disjoint_signals, w'))
    by (vm_compute; reflexivity).
  do 5 (split; [assumption|]).
  exact (transform_without_target_requires_one_grid 5%nat 9%nat
           data_same_grid disjoint_maps None None w w' disjoint_signals
           Hn Hm Hl Hi Hrun).
Defined.

(** The image given to [fit_transform] holds NaN and an infinity: what
    the call leaves of the atlas, and of that image. *)
Lemma fit_transform_keeps_existing_images_witness :
  let w := new_default in
  let w' := after (fit_transform (Some 4%nat) None None) w in
  (heap w !! 0%nat = Some disjoint_maps
   /\ (Some 4%nat <> Some 0%nat -> heap w' !! 0%nat = Some disjoint_maps)
   /\ (finite_valued disjoint_maps -> heap w' !! 0%nat = Some disjoint_maps)
   /\ (heap w' !! 0%nat = Some disjoint_maps
       \/ heap w' !! 0%nat = Some (sanitised disjoint_maps)))
  /\ (heap w !! 4%nat = Some unclean_maps
      /\ (Some 4%nat <> Some 4%nat -> heap w' !! 4%nat = Some unclean_maps)
      /\ (finite_valued unclean_maps -> heap w' !! 4%nat = Some unclean_maps)
      /\ (heap w' !! 4%nat = Some unclean_maps
          \/ heap w' !! 4%nat = Some (sanitised unclean_maps))).
Proof.
  intros w w'.
  assert (H0 : heap w !! 0%nat = Some disjoint_maps) by reflexivity.
  assert (H4 : heap w !! 4%nat = Some unclean_maps) by reflexivity.
  split.
  - split; [exact H0|].
    exact (fit_transform_keeps_existing_images (Some 4%nat) None None w
             0%nat disjoint_maps H0).
  - split; [exact H4|].
    exact (fit_transform_keeps_existing_images (Some 4%nat) None None w
             4%nat unclean_maps H4).
Defined.

(** On that input the concrete extraction does write: the caller's image
    comes out sanitised, the maps it was fitted on are kept. *)
Example fit_transform_sanitises_its_input :
  let w := new_default in
  let w' := after (fit_transform (Some 4%nat) None None) w in
  option_map (fun i => rows (dataobj i)) (heap w !! 4%nat)
  = Some [[NaN; Finite 0]; [PInf; Finite (1 # 3)]]
  /\ option_map (fun i => rows (dataobj i)) (heap w' !! 4%nat)
     = Some [[Finite 0; Finite 0]; [Finite 0; Finite (1 # 3)]]
  /\ heap w' !! 0%nat = heap w !! 0%nat.
Proof. repeat split; vm_compute; reflexivity. Qed.

Lemma fit_transform_resamples_at_fit_time_witness :
  let w := new_default in
  target_is (resampling_target (params (self w))) "data" = true
  /\ heap w !! 6%nat = Some data_other_grid
  /\ 3 <= length (img_shape data_other_grid)
  /\ exists new,
       log (after (fit_transform (Some 6%nat) None None) w) = new ++ log w
       /\ Forall no_warning new.
Proof.
  intros w.
  assert (Hd : target_is (resampling_target (params (self w))) "data" = true)
    by reflexivity.
  assert (Hl : heap w !! 6%nat = Some data_other_grid) by reflexivity.
  assert (H3 : 3 <= length (img_shape data_other_grid)) by (simpl; lia).
  split; [exact Hd|]. split; [exact Hl|]. split; [exact H3|].
  exact (fit_transform_resamples_at_fit_time_only 6%nat data_other_grid
           None None w Hd Hl H3).
Defined.


(** A request for no map at all, or for a negative number of maps. *)
Example report_of_no_map_raises :
  outcome_of (generate_report (PyInt 0)) fitted_default
  = Raised (IndexError "list index out of range")
  /\ outcome_of (generate_report (PyInt (-3))) fitted_default
     = Raised (IndexError "list index out of range").
Proof. split; vm_compute; reflexivity. Qed.


Lemma report_index_equal_to_number_of_maps_witness :
  let w0 := new_default in
  let w := fitted_default in
  is_matplotlib_installed = true
  /\ reports (params (self w0)) = true
  /\ fit None w0 = (Ok tt, w)
  /\ maps_img_ (self w) = Some (Some 9%nat)
  /\ heap w !! 9%nat = Some disjoint_maps
  /\ last (img_shape disjoint_maps) = Some 2%nat
  /\ forallb fits_int64 [0; 2]%Z = true
  /\ list_max_Z 0 [2]%Z = Z.of_nat 2
  /\ (exists w',
        generate_report (PyList [0; 2]%Z) w
        = (Raised (IndexError "index out of bounds"), w')
        /\ reported_maps w' = Some [0; 2]%Z)
  /\ (exists w',
        generate_report (PyArray [0; 2]%Z) w
        = (Raised (IndexError "index out of bounds"), w')
        /\ reported_maps w' = Some [0; 2]%Z).
Proof.
  intros w0 w.
  assert (H1 : is_matplotlib_installed = true) by reflexivity.
  assert (H2 : reports (params (self w0)) = true) by reflexivity.
  assert (H3 : fit None w0 = (Ok tt, w)) by (vm_compute; reflexivity).
  assert (H4 : maps_img_ (self w) = Some (Some 9%nat))
    by (vm_compute; reflexivity).
  assert (H5 : heap w !! 9%nat = Some disjoint_maps)
    by (vm_compute; reflexivity).
  assert (H6 : last (img_shape disjoint_maps) = Some 2%nat) by reflexivity.
  assert (Hf : forallb fits_int64 [0; 2]%Z = true) by reflexivity.
  assert (H7 : list_max_Z 0 [2]%Z = Z.of_nat 2) by reflexivity.
  do 8 (split; [assumption|]).
  exact (report_index_equal_to_number_of_maps w0 w None 9%nat
           disjoint_maps 2%nat 0%Z [2]%Z H1 H2 H3 H4 H5 H6 Hf H7).
Defined.

(** The same largest index beside an entry that no [int64] holds: the
    request is refused before it reaches the guard. *)
Example report_index_beyond_int64_is_refused :
  outcome_of (generate_report (PyList [2; - 2 ^ 70]%Z)) fitted_default
  = Raised (TypeError msg_displayed_maps_type).
Proof. vm_compute. reflexivity. Qed.

(** After [fit] on an image: no warning. *)
Lemma report_warns_witness :
  let w0 := new_default in
  let w := after (fit (Some 5%nat)) w0 in
  let w' := after (generate_report (PyStr "all")) w in
  is_matplotlib_installed = true
  /\ reports (params (self w0)) = true
  /\ fit (Some 5%nat) w0 = (Ok tt, w)
  /\ log w' = log w
  /\ reported_warning w' = None
  /\ forall ii, heap w0 !! 5%nat = Some ii -> length (img_shape ii) <> 5.
Proof.
  intros w0 w w'.
  assert (H1 : is_matplotlib_installed = true) by reflexivity.
  assert (H2 : reports (params (self w0)) = true) by reflexivity.
  assert (H3 : fit (Some 5%nat) w0 = (Ok tt, w))
    by (vm_compute; reflexivity).
  do 3 (split; [assumption|]).
  exact (report_warns_about_the_image_given_to_fit w0 w (Some 5%nat)
           H1 H2 H3).
Defined.

(** After [fit()] without an image: the warning about it. *)
Example report_warns_without_an_image :
  let w := fitted_default in
  let w' := after (generate_report (PyStr "all")) w in
  log w' = Warned msg_no_image :: log w
  /\ reported_warning w' = Some msg_no_image.
Proof. split; vm_compute; reflexivity. Qed.

Lemma report_of_an_empty_request_witness :
  let w0 := new_default in
  let w := fitted_default in
  is_matplotlib_installed = true
  /\ reports (params (self w0)) = true
  /\ fit None w0 = (Ok tt, w)
  /\ generate_report (PyList []) w
     = (Raised (TypeError msg_displayed_maps_type), w)
  /\ generate_report (PyArray []) w
     = (Raised (ValueError "max() arg is an empty sequence"),
        requested (PyArray []) w).
Proof.
  intros w0 w.
  assert (H1 : is_matplotlib_installed = true) by reflexivity.
  assert (H2 : reports (params (self w0)) = true) by reflexivity.
  assert (H3 : fit None w0 = (Ok tt, w)) by (vm_compute; reflexivity).
  do 3 (split; [assumption|]).
  exact (report_of_an_empty_request w0 w None H1 H2 H3).
Defined.

Lemma cohort_lists_line_up_witness :
  let w := new_default in
  let func := [5; 6; 5]%nat in
  let confounds := [[]; []; []] : list signals in
  let phenotypic := ["child"; "adult"; "child"; "adult"]%string in
  let on_other_grid := [[1 # 2; 0]; [1 # 2; 0]; [1 # 2; 0]]%Q in
  let c := mk_cohort [disjoint_signals; disjoint_signals]
             [disjoint_signals; on_other_grid; disjoint_signals]
             ["child"; "adult"; "child"]%string in
  let w' := after (region_signals_extraction func confounds phenotypic) w in
  region_signals_extraction func confounds phenotypic w = (Ok c, w')
  /\ length (pooled_subjects c) = 3
  /\ groups c = take 3 phenotypic
  /\ children c = child_series (pooled_subjects c) (groups c)
  /\ length (children c)
     = length (List.filter (fun p => String.eqb p "child") (groups c)).
Proof.
  intros w func confounds phenotypic on_other_grid c w'.
  assert (Hrun : region_signals_extraction func confounds phenotypic w
                 = (Ok c, w')) by (vm_compute; reflexivity).
  split; [exact Hrun|].
  exact (cohort_lists_line_up func confounds phenotypic w w' c Hrun).
Defined.

(** The second subject's image holds NaN and an infinity. *)
Lemma cohort_extraction_keeps_the_images_witness :
  let w := new_default in
  let w' := after (region_signals_extraction [5; 4]%nat [[]; []]
                     ["child"; "adult"]%string) w in
  heap w !! 0%nat = Some disjoint_maps
  /\ (~ In 0%nat [5; 4]%nat -> heap w' !! 0%nat = Some disjoint_maps)
  /\ (finite_valued disjoint_maps -> heap w' !! 0%nat = Some disjoint_maps)
  /\ (heap w' !! 0%nat = Some disjoint_maps
      \/ heap w' !! 0%nat = Some (sanitised disjoint_maps)).
Proof.
  intros w w'.
  assert (Hl : heap w !! 0%nat = Some disjoint_maps) by reflexivity.
  split; [exact Hl|].
  exact (cohort_extraction_keeps_the_images [5; 4]%nat [[]; []]
           ["child"; "adult"]%string w 0%nat disjoint_maps Hl).
Defined.

(** There the atlas and the first subject's image are kept, and the
    second subject's image comes out sanitised. *)
Example cohort_extraction_sanitises_a_subject :
  let w := new_default in
  let w' := after (region_signals_extraction [5; 4]%nat [[]; []]
                     ["child"; "adult"]%string) w in
  heap w' !! 0%nat = heap w !! 0%nat
  /\ heap w' !! 5%nat = heap w !! 5%nat
  /\ heap w !! 4%nat = Some unclean_maps
  /\ heap w' !! 4%nat = Some (sanitised unclean_maps).
Proof. repeat split; vm_compute; reflexivity. Qed.


(** A [fit] that resamples both the maps and the mask: the image given
    is on another grid, and it is the target. *)
Lemma fit_to_the_target_grid_witness :
  let w := new_masker (set_mask_img (Some 7%nat)
                         (default_params (Some 3%nat))) in
  let w' := after (fit (Some 6%nat)) w in
  fit (Some 6%nat) w = (Ok tt, w')
  /\ maps_img_ (self w') = Some (Some 11%nat)
  /\ heap w' !! 11%nat = Some three_maps_on_data_grid
  /\ (target_is (resampling_target (params (self w))) "data" = true ->
      forall li ii,
        Some 6%nat = Some li -> heap w !! li = Some ii ->
        3 <= length (img_shape ii) ->
        same_fov ii three_maps_on_data_grid = true
        /\ forall lk,
             mask_img_ (self w') = Some (Some lk) ->
             exists ik, heap w' !! lk = Some ik /\ same_fov ii ik = true)
  /\ (target_is (resampling_target (params (self w))) "mask" = true ->
      forall lk ik,
        mask_img_ (self w') = Some (Some lk) -> heap w' !! lk = Some ik ->
        3 <= length (img_shape ik) ->
        same_fov ik three_maps_on_data_grid = true)
  /\ (target_is (resampling_target (params (self w))) "maps" = true ->
      forall lk,
        mask_img_ (self w') = Some (Some lk) ->
        exists ik, heap w' !! lk = Some ik
                   /\ same_fov three_maps_on_data_grid ik = true).
Proof.
  intros w w'.
  assert (Hfit : fit (Some 6%nat) w = (Ok tt, w'))
    by (vm_compute; reflexivity).
  assert (Hm : maps_img_ (self w') = Some (Some 11%nat))
    by (vm_compute; reflexivity).
  assert (Hl : heap w' !! 11%nat = Some three_maps_on_data_grid)
    by (vm_compute; reflexivity).
  do 3 (split; [assumption|]).
  exact (fit_brings_maps_and_mask_to_the_target_grid (Some 6%nat) w w'
           11%nat three_maps_on_data_grid Hfit Hm Hl).
Defined.

(** In that [fit] the maps and the mask were on the grid of neither the
    data nor the target before, and both were resampled. *)
Example fit_to_the_target_grid_resamples :
  let w := new_masker (set_mask_img (Some 7%nat)
                         (default_params (Some 3%nat))) in
  let w' := after (fit (Some 6%nat)) w in
  same_fov data_other_grid three_maps = false
  /\ same_fov data_other_grid second_voxel_mask = false
  /\ mask_img_ (self w') = Some (Some 12%nat)
  /\ option_map (same_fov data_other_grid) (heap w' !! 11%nat) = Some true
  /\ option_map (same_fov data_other_grid) (heap w' !! 12%nat) = Some true
  /\ List.filter (fun e => match e with
                           | Resampled _ _ _ _ _ => true
                           | _ => false
                           end) (log w')
     = [Resampled mask_role (Some 10%nat) nearest [1; 1; 3]%nat
          shifted_affine;
        Resampled maps_role (Some 9%nat) linear [1; 1; 3]%nat
          shifted_affine].
Proof. repeat split; vm_compute; reflexivity. Qed.

Lemma transform_to_the_data_grid_witness :
  let w := fitted_default in
  let w1 := after (transform_align (Some 6%nat)) w in
  target_is (resampling_target (params (self w))) "data" = true
  /\ heap w !! 6%nat = Some data_other_grid
  /\ 3 <= length (img_shape data_other_grid)
  /\ transform_align (Some 6%nat) w = (Ok (None, Some 10%nat), w1)
  /\ (exists lm im,
        Some 10%nat = Some lm /\ heap w1 !! lm = Some im /\
        same_fov data_other_grid im = true
        /\ (maps_img_ (self w) = Some (Some lm)
            \/ length (heap w) <= lm))
  /\ (forall lk,
        @None loc = Some lk ->
        exists ik,
          heap w1 !! lk = Some ik /\ same_fov data_other_grid ik = true
          /\ (mask_img_ (self w) = Some (Some lk)
              \/ length (heap w) <= lk)).
Proof.
  intros w w1.
  assert (Hd : target_is (resampling_target (params (self w))) "data" = true)
    by (vm_compute; reflexivity).
  assert (Hl : heap w !! 6%nat = Some data_other_grid)
    by (vm_compute; reflexivity).
  assert (H3 : 3 <= length (img_shape data_other_grid)) by (simpl; lia).
  assert (Hrun : transform_align (Some 6%nat) w
                 = (Ok (None, Some 10%nat), w1))
    by (vm_compute; reflexivity).
  do 4 (split; [assumption|]).
  exact (transform_brings_maps_and_mask_to_the_data_grid 6%nat
           data_other_grid w w1 None (Some 10%nat) Hd Hl H3 Hrun).
Defined.
